(** * ESP32 distance-sensor telemetry sketch (esp32.ino)

    A shallow embedding of the sketch
    [semester2/final_exam_embedded/solution/esp32.ino]: the WiFi and MQTT
    connection routines, the health check, the JSON publisher, [setup] and
    [loop], together with the properties of the connectivity state machine.

    The sketch talks to four collaborators (the WiFi stack, the PubSubClient
    MQTT client, the HC-SR04 driver and the serial port).  Their answers are
    supplied by a [World]: the k-th call of a primitive receives the k-th
    answer of that primitive.  Every call is recorded as an [Event]; a run of
    a routine yields its result, the updated program state and the events it
    emitted.  Unbounded [while] loops take a fuel argument that counts the
    iterations still allowed; a run that needs more reports [None] and keeps
    the events emitted so far. *)

From Stdlib Require Import ZArith QArith Qround List String Ascii Bool Lia.
From Stdlib Require Import DecimalString DecimalZ Lqa.
Import ListNotations.

#[local] Open Scope string_scope.
#[local] Open Scope list_scope.
#[local] Open Scope Z_scope.

(** String concatenation; [++] is kept for lists. *)
Infix "+++" := String.append (at level 60, right associativity).

(** ** Constants and configuration *)

Definition KEY_NONE    : Z := 0.
Definition KEY_WEP     : Z := 1.
Definition KEY_WPA_PSK : Z := 2.
Definition KEY_WPA_EAP : Z := 3.

Definition PIN_HCSR04_TRIG : Z := 16.
Definition PIN_HCSR04_ECHO : Z := 17.

(** The "Config Variables" block of the sketch. *)
Record Config := mkConfig {
  wifi_essid          : string;
  wifi_key            : Z;
  wifi_password       : string;
  mqtt_server         : string;
  mqtt_port           : Z;
  mqtt_topic          : string;
  mqtt_user           : string;
  mqtt_password       : string;
  json_device_name    : string;
  json_resend_timeout : Z
}.

Definition sketch_config : Config :=
  {| wifi_essid          := "esp32";
     wifi_key            := KEY_WPA_PSK;
     wifi_password       := "cisco123";
     mqtt_server         := "public.mqtthq.com";
     mqtt_port           := 1883;
     mqtt_topic          := "garage_sensor";
     mqtt_user           := EmptyString;
     mqtt_password       := EmptyString;
     json_device_name    := "ESP32";
     json_resend_timeout := 1000 |}.

(** ** Machine integers *)

(** [unsigned char]: 8 bits. *)
Definition to_uchar (z : Z) : Z := z mod 256.

(** [short]: 16 bits, two's complement. *)
Definition to_short (z : Z) : Z := (z + 32768) mod 65536 - 32768.

Definition INT_MIN : Z := -2147483648.
Definition INT_MAX : Z := 2147483647.

(** ** Measurements

    The HC-SR04 driver hands back a [double].  Only its rounding to an [int]
    matters to the sketch, so a double is a rational, an infinity or a NaN. *)

Inductive double :=
| DFinite (q : Q)
| DInfinity (negative : bool)
| DNaN.

Definition is_finite (d : double) : bool :=
  match d with DFinite _ => true | _ => false end.

(** C's [round]: to the nearest integer, halfway cases away from zero. *)
Definition round_half_away (q : Q) : Z :=
  if Qle_bool 0 q then Qfloor (q + (1 # 2))%Q else Qceiling (q - (1 # 2))%Q.

Definition round (d : double) : double :=
  match d with
  | DFinite q => DFinite (inject_Z (round_half_away q))
  | other => other
  end.

(** ** Text rendering used by [Serial.print] and the JSON writer *)

(** The characters the sketch writes with a backslash escape. *)
Definition quote_char : ascii := ascii_of_nat 34.
Definition QUOTE : string := String quote_char EmptyString.
Definition NL : string := String (ascii_of_nat 10) EmptyString.

(** Decimal rendering of an integer ([Serial.print(long)], JSON numbers). *)
Definition dec (z : Z) : string := NilZero.string_of_int (Z.to_int z).

Definition hex_digit (n : Z) : string :=
  match n with
  | 0 => "0" | 1 => "1" | 2 => "2" | 3 => "3" | 4 => "4" | 5 => "5"
  | 6 => "6" | 7 => "7" | 8 => "8" | 9 => "9" | 10 => "A" | 11 => "B"
  | 12 => "C" | 13 => "D" | 14 => "E" | _ => "F"
  end.

(** [Serial.print(b, HEX)] for a byte: upper case, no leading zero. *)
Definition hex (b : Z) : string :=
  if b <? 16 then hex_digit b else hex_digit (b / 16) +++ hex_digit (b mod 16).

Definition IPAddress : Type := Z * Z * Z * Z.

Definition ip_text (ip : IPAddress) : string :=
  let '(a, b, c, d) := ip in
  dec a +++ "." +++ dec b +++ "." +++ dec c +++ "." +++ dec d.

(** ** Collaborators *)

(** The answers of the collaborators.  [wifi_status_at k] tells whether the
    k-th call of [WiFi.status()] returns [WL_CONNECTED]; the identity fields
    are the answers of [WiFi.SSID()], [WiFi.localIP()], [WiFi.macAddress()]
    and [WiFi.RSSI()], each called once per successful link connect.
    [mqtt_connected_at k] is what [mqtt_client.connected()] would answer just
    before the k-th [publish]; the sketch never asks.  [cast_unrepresentable]
    is what the platform's double-to-int conversion yields for a value no
    [int] represents (the language leaves it open). *)
Record World := mkWorld {
  wifi_status_at       : nat -> bool;
  wifi_SSID_at         : nat -> string;
  wifi_localIP_at      : nat -> IPAddress;
  wifi_macAddress_at   : nat -> list Z;
  wifi_RSSI_at         : nat -> Z;
  mqtt_connect_at      : nat -> bool;
  mqtt_state_at        : nat -> Z;
  mqtt_publish_at      : nat -> bool;
  mqtt_connected_at    : nat -> bool;
  hcsr_measure_at      : nat -> double;
  cast_unrepresentable : double -> Z
}.

(** Conversion of a [double] to [int] (the assignment to [hcsr_value]):
    truncation toward zero when the truncated value is an [int]. *)
Definition truncate (q : Q) : Z :=
  if Qle_bool 0 q then Qfloor q else Qceiling q.

Definition double_to_int (w : World) (d : double) : Z :=
  match d with
  | DFinite q =>
      let z := truncate q in
      if (INT_MIN <=? z) && (z <=? INT_MAX) then z
      else cast_unrepresentable w d
  | _ => cast_unrepresentable w d
  end.

Inductive Event :=
| ESerialBegin (baud : Z)
| ESerial (text : string)
| EDelay (ms : Z)
| EWifiBegin (essid : string) (password : option string)
| EWifiStatus (connected : bool)
| EWifiSSID (ssid : string)
| EWifiLocalIP (ip : IPAddress)
| EWifiMacAddress (mac : list Z)
| EWifiRSSI (rssi : Z)
| EMqttSetServer (host : string) (port : Z)
| EMqttConnect (client_id user password : string) (accepted : bool)
| EMqttState (code : Z)
| EMqttPublish (topic payload : string) (sent : bool)
| EHcsrBegin (trig echo : Z)
| EHcsrMeasure (distance : double).

(** ** ArduinoJson documents

    [StaticJsonDocument] as the sketch uses it: an object whose members keep
    their insertion order, holding strings and integers.  [serializeJson]
    writes the minified text; inside a string the writer escapes the quote,
    the backslash and the five control characters of its escape table. *)

Inductive JsonVariant :=
| JsonString (s : string)
| JsonInteger (z : Z).

Definition JsonDocument : Type := list (string * JsonVariant).

(** [doc[key] = v]: replaces the member when present, appends it otherwise. *)
Fixpoint json_set (key : string) (v : JsonVariant) (doc : JsonDocument)
  : JsonDocument :=
  match doc with
  | [] => [(key, v)]
  | (k, x) :: rest =>
      if String.eqb k key then (k, v) :: rest else (k, x) :: json_set key v rest
  end.

Definition escape_letter (c : ascii) : option ascii :=
  if Ascii.eqb c quote_char then Some quote_char
  else if Ascii.eqb c "\" then Some "\"%char
  else if Ascii.eqb c (ascii_of_nat 8) then Some "b"%char
  else if Ascii.eqb c (ascii_of_nat 12) then Some "f"%char
  else if Ascii.eqb c (ascii_of_nat 10) then Some "n"%char
  else if Ascii.eqb c (ascii_of_nat 13) then Some "r"%char
  else if Ascii.eqb c (ascii_of_nat 9) then Some "t"%char
  else None.

Fixpoint write_escaped (s : string) : string :=
  match s with
  | EmptyString => EmptyString
  | String c rest =>
      match escape_letter c with
      | Some l => String "\" (String l (write_escaped rest))
      | None => String c (write_escaped rest)
      end
  end.

Definition write_string (s : string) : string :=
  QUOTE +++ write_escaped s +++ QUOTE.

Definition write_variant (v : JsonVariant) : string :=
  match v with
  | JsonString s => write_string s
  | JsonInteger z => dec z
  end.

Fixpoint write_members (doc : JsonDocument) : string :=
  match doc with
  | [] => EmptyString
  | [(k, v)] => write_string k +++ ":" +++ write_variant v
  | (k, v) :: rest =>
      write_string k +++ ":" +++ write_variant v +++ "," +++ write_members rest
  end.

(** [serializeJson(doc, Serial)]: the whole text. *)
Definition serializeJson (doc : JsonDocument) : string :=
  "{" +++ write_members doc +++ "}".

(** [serializeJson(doc, out)] for [char out[size]]: the writer never goes past
    the array; it keeps the first [size - 1] characters and the terminator. *)
Definition serializeJson_to (size : nat) (doc : JsonDocument) : string :=
  substring 0 (size - 1) (serializeJson doc).

(** ** Program state and runs *)

(** The sketch's mutable globals ([exit_status_code], [hcsr_value]) and, per
    collaborator primitive, the number of calls made so far. *)
Record State := mkState {
  exit_status_code : Z;
  hcsr_value       : Z;
  n_status         : nat;
  n_identity       : nat;
  n_connect        : nat;
  n_state          : nat;
  n_publish        : nat;
  n_measure        : nat
}.

(** Globals as initialised by the sketch, no call made yet. *)
Definition initial_state : State :=
  mkState 0 (-1) 0 0 0 0 0 0.

Definition set_exit_status_code (v : Z) (s : State) : State :=
  mkState v (hcsr_value s) (n_status s) (n_identity s) (n_connect s)
          (n_state s) (n_publish s) (n_measure s).
Definition set_hcsr_value (v : Z) (s : State) : State :=
  mkState (exit_status_code s) v (n_status s) (n_identity s) (n_connect s)
          (n_state s) (n_publish s) (n_measure s).
Definition tick_status (s : State) : State :=
  mkState (exit_status_code s) (hcsr_value s) (S (n_status s)) (n_identity s)
          (n_connect s) (n_state s) (n_publish s) (n_measure s).
Definition tick_identity (s : State) : State :=
  mkState (exit_status_code s) (hcsr_value s) (n_status s) (S (n_identity s))
          (n_connect s) (n_state s) (n_publish s) (n_measure s).
Definition tick_connect (s : State) : State :=
  mkState (exit_status_code s) (hcsr_value s) (n_status s) (n_identity s)
          (S (n_connect s)) (n_state s) (n_publish s) (n_measure s).
Definition tick_state (s : State) : State :=
  mkState (exit_status_code s) (hcsr_value s) (n_status s) (n_identity s)
          (n_connect s) (S (n_state s)) (n_publish s) (n_measure s).
Definition tick_publish (s : State) : State :=
  mkState (exit_status_code s) (hcsr_value s) (n_status s) (n_identity s)
          (n_connect s) (n_state s) (S (n_publish s)) (n_measure s).
Definition tick_measure (s : State) : State :=
  mkState (exit_status_code s) (hcsr_value s) (n_status s) (n_identity s)
          (n_connect s) (n_state s) (n_publish s) (S (n_measure s)).

(** The outcome of running a routine from a state: [result] is [None] when
    a loop ran out of fuel; [emitted] lists the collaborator calls in order. *)
Record Run (A : Type) := mkRun {
  result  : option A;
  final   : State;
  emitted : list Event
}.
Arguments mkRun {A} _ _ _.
Arguments result {A} _.
Arguments final {A} _.
Arguments emitted {A} _.

Definition M (A : Type) : Type := State -> Run A.

Definition ret {A} (a : A) : M A := fun s => mkRun (Some a) s [].

Definition bind {A B} (m : M A) (f : A -> M B) : M B := fun s =>
  let r := m s in
  match result r with
  | Some a =>
      let r' := f a (final r) in
      mkRun (result r') (final r') (emitted r ++ emitted r')
  | None => mkRun None (final r) (emitted r)
  end.

Definition out_of_fuel {A} : M A := fun s => mkRun None s [].

Definition emit (e : Event) : M unit := fun s => mkRun (Some tt) s [e].
Definition get {A} (f : State -> A) : M A := fun s => mkRun (Some (f s)) s [].
Definition modify (f : State -> State) : M unit :=
  fun s => mkRun (Some tt) (f s) [].

Notation "x <- m ;; k" := (bind m (fun x => k))
  (at level 61, m at next level, right associativity).
Notation "m ;; k" := (bind m (fun _ => k))
  (at level 61, right associativity).

(** ** Signal quality and broker status tables *)

Inductive SignalQuality := Amazing | VeryGood | Okay | NotGood | Unusable.

(** The [if]/[else if] chain on [rssi] in [connectToWiFi]. *)
Definition signal_quality (rssi : Z) : SignalQuality :=
  if rssi >? -67 then Amazing
  else if rssi >? -70 then VeryGood
  else if rssi >? -80 then Okay
  else if rssi >? -90 then NotGood
  else Unusable.

Definition signal_quality_text (q : SignalQuality) : string :=
  match q with
  | Amazing  => " (Amazing)"
  | VeryGood => " (Very Good)"
  | Okay     => " (Okay)"
  | NotGood  => " (Not Good)"
  | Unusable => " (Unusable)"
  end.

Inductive BrokerFailure :=
| ConnectionTimeout | ConnectionLost | ConnectFailed | DisconnectedCleanly
| BadProtocolVersion | BadClientId | ServerUnavailable | BadCredentials
| Unauthorized | UnknownStatus.

(** The [switch (broker_response)] in [connectToMqtt]. *)
Definition broker_failure (broker_response : Z) : BrokerFailure :=
  match broker_response with
  | -4 => ConnectionTimeout
  | -3 => ConnectionLost
  | -2 => ConnectFailed
  | -1 => DisconnectedCleanly
  | 1 => BadProtocolVersion
  | 2 => BadClientId
  | 3 => ServerUnavailable
  | 4 => BadCredentials
  | 5 => Unauthorized
  | _ => UnknownStatus
  end.

Definition broker_failure_text (f : BrokerFailure) : string :=
  match f with
  | ConnectionTimeout =>
      "MQTT_CONNECTION_TIMEOUT - the server didn't respond within the keepalive time"
  | ConnectionLost =>
      "MQTT_CONNECTION_LOST - the network connection was broken"
  | ConnectFailed =>
      "MQTT_CONNECT_FAILED - the network connection failed"
  | DisconnectedCleanly =>
      "MQTT_DISCONNECTED - the client is disconnected cleanly"
  | BadProtocolVersion =>
      "MQTT_CONNECT_BAD_PROTOCOL - the server doesn't support the requested version of MQTT"
  | BadClientId =>
      "MQTT_CONNECT_BAD_CLIENT_ID - the server rejected the client identifier"
  | ServerUnavailable =>
      "MQTT_CONNECT_UNAVAILABLE - the server was unable to accept the connection"
  | BadCredentials =>
      "MQTT_CONNECT_BAD_CREDENTIALS - the username/password were rejected"
  | Unauthorized =>
      "MQTT_CONNECT_UNAUTHORIZED - the client was not authorized to connect"
  | UnknownStatus => "UNKNOWN"
  end.

(** ** The sketch *)

Section Sketch.

Variable cfg : Config.
Variable w : World.

(** *** Collaborator calls *)

Definition Serial_begin (baud : Z) : M unit := emit (ESerialBegin baud).
Definition Serial_print (text : string) : M unit := emit (ESerial text).
Definition delay (ms : Z) : M unit := emit (EDelay ms).

Definition WiFi_begin (essid : string) (password : option string) : M unit :=
  emit (EWifiBegin essid password).

(** [WiFi.status() == WL_CONNECTED] *)
Definition WiFi_connected : M bool := fun s =>
  let b := wifi_status_at w (n_status s) in
  mkRun (Some b) (tick_status s) [EWifiStatus b].

Definition WiFi_SSID : M string := fun s =>
  let x := wifi_SSID_at w (n_identity s) in mkRun (Some x) s [EWifiSSID x].
Definition WiFi_localIP : M IPAddress := fun s =>
  let x := wifi_localIP_at w (n_identity s) in mkRun (Some x) s [EWifiLocalIP x].
Definition WiFi_macAddress : M (list Z) := fun s =>
  let x := wifi_macAddress_at w (n_identity s) in
  mkRun (Some x) s [EWifiMacAddress x].
(** The last identity read of a connect; it closes the identity round. *)
Definition WiFi_RSSI : M Z := fun s =>
  let x := wifi_RSSI_at w (n_identity s) in
  mkRun (Some x) (tick_identity s) [EWifiRSSI x].

Definition mqtt_client_setServer (host : string) (port : Z) : M unit :=
  emit (EMqttSetServer host port).
Definition mqtt_client_connect (client_id user password : string) : M bool :=
  fun s =>
    let b := mqtt_connect_at w (n_connect s) in
    mkRun (Some b) (tick_connect s) [EMqttConnect client_id user password b].
Definition mqtt_client_state : M Z := fun s =>
  let c := mqtt_state_at w (n_state s) in
  mkRun (Some c) (tick_state s) [EMqttState c].
Definition mqtt_client_publish (topic payload : string) : M bool := fun s =>
  let b := mqtt_publish_at w (n_publish s) in
  mkRun (Some b) (tick_publish s) [EMqttPublish topic payload b].

Definition HCSR04_begin (trig echo : Z) : M unit := emit (EHcsrBegin trig echo).
Definition HCSR04_measureDistanceCm : M double := fun s =>
  let d := hcsr_measure_at w (n_measure s) in
  mkRun (Some d) (tick_measure s) [EHcsrMeasure d].

(** *** connectToWiFi *)

(** The polling loop
    [while (WiFi.status() != WL_CONNECTED) { delay(500); Serial.print(".");
       wait_counter++; if (wait_counter >= 20) break; }]
    [fuel] bounds the iterations after the first. *)
Fixpoint wait_for_link (fuel : nat) (wait_counter : Z) : M unit :=
  connected <- WiFi_connected ;;
  if connected : bool then ret tt
  else
    delay 500 ;;
    Serial_print "." ;;
    let wait_counter := to_uchar (wait_counter + 1) in
    if wait_counter >=? 20 then ret tt
    else match fuel with
         | O => out_of_fuel
         | S fuel' => wait_for_link fuel' wait_counter
         end.

Definition connectToWiFi : M Z :=
  Serial_print ("    Connecting to WiFi " +++ QUOTE) ;;
  Serial_print (wifi_essid cfg) ;;
  Serial_print QUOTE ;;
  (if wifi_key cfg =? KEY_NONE then WiFi_begin (wifi_essid cfg) None
   else if wifi_key cfg =? KEY_WPA_PSK
        then WiFi_begin (wifi_essid cfg) (Some (wifi_password cfg))
        else ret tt) ;;
  wait_for_link 20 0 ;;
  connected <- WiFi_connected ;;
  if connected : bool then
    Serial_print (NL +++ "[+] Conected to WiFi " +++ QUOTE) ;;
    ssid <- WiFi_SSID ;;
    Serial_print ssid ;;
    Serial_print QUOTE ;;
    Serial_print " with IP address: " ;;
    ip <- WiFi_localIP ;;
    Serial_print (ip_text ip) ;;
    Serial_print " [" ;;
    mac <- WiFi_macAddress ;;
    Serial_print (hex (nth 5 mac 0)) ;;
    Serial_print ":" ;;
    Serial_print (hex (nth 4 mac 0)) ;;
    Serial_print ":" ;;
    Serial_print (hex (nth 3 mac 0)) ;;
    Serial_print ":" ;;
    Serial_print (hex (nth 2 mac 0)) ;;
    Serial_print ":" ;;
    Serial_print (hex (nth 1 mac 0)) ;;
    Serial_print ":" ;;
    Serial_print (hex (nth 0 mac 0)) ;;
    Serial_print "]" ;;
    Serial_print " (signal: " ;;
    rssi <- WiFi_RSSI ;;
    Serial_print (dec rssi) ;;
    Serial_print (signal_quality_text (signal_quality rssi)) ;;
    Serial_print (")." +++ NL) ;;
    ret 0
  else
    Serial_print (NL +++ "[-] Connection to WiFi " +++ QUOTE) ;;
    Serial_print (wifi_essid cfg) ;;
    Serial_print (QUOTE +++ " failed!" +++ NL) ;;
    ret 1.

(** *** connectToMqtt *)

Definition connectToMqtt : M Z :=
  mqtt_client_setServer (mqtt_server cfg) (mqtt_port cfg) ;;
  Serial_print "    Connecting to MQTT server " ;;
  Serial_print (mqtt_server cfg) ;;
  Serial_print ":" ;;
  Serial_print (dec (mqtt_port cfg)) ;;
  Serial_print (" " +++ QUOTE) ;;
  Serial_print (mqtt_topic cfg) ;;
  Serial_print (QUOTE +++ "...") ;;
  accepted <- mqtt_client_connect (mqtt_topic cfg) (mqtt_user cfg)
                                  (mqtt_password cfg) ;;
  if accepted : bool then
    Serial_print (NL +++ "[+] Connected to MQTT server ") ;;
    Serial_print (mqtt_server cfg) ;;
    Serial_print ":" ;;
    Serial_print (dec (mqtt_port cfg)) ;;
    Serial_print (" " +++ QUOTE) ;;
    Serial_print (mqtt_topic cfg) ;;
    Serial_print (QUOTE +++ "." +++ NL) ;;
    ret 0
  else
    Serial_print (NL +++ "[-] Connection to MQTT broker ") ;;
    Serial_print (mqtt_server cfg) ;;
    Serial_print ":" ;;
    Serial_print (dec (mqtt_port cfg)) ;;
    Serial_print " failed with status code: " ;;
    state <- mqtt_client_state ;;
    let broker_response := to_short state in
    Serial_print (dec broker_response) ;;
    Serial_print " (" ;;
    Serial_print (broker_failure_text (broker_failure broker_response)) ;;
    Serial_print (")!" +++ NL) ;;
    ret 1.

(** *** healthCheck, getDistanceCm, sendJsonToMqttBroker *)

Definition healthCheck : M Z :=
  connected <- WiFi_connected ;;
  if connected : bool then ret 0 else ret 1.

Definition getDistanceCm : M double := HCSR04_measureDistanceCm.

(** [json_data] after the two assignments of [sendJsonToMqttBroker]. *)
Definition json_data (device_name : string) (distance : Z) : JsonDocument :=
  json_set "distance_cm" (JsonInteger distance)
    (json_set "device" (JsonString device_name) []).

Definition sendJsonToMqttBroker : M Z :=
  value <- get hcsr_value ;;
  let doc := json_data (json_device_name cfg) value in
  Serial_print "    " ;;
  Serial_print (serializeJson doc) ;;
  Serial_print NL ;;
  let out := serializeJson_to 128 doc in
  data_sent <- mqtt_client_publish (mqtt_topic cfg) out ;;
  ret (if data_sent : bool then 0 else 1).

(** *** setup and loop *)

(** [while (exit_status_code) { body }] *)
Fixpoint while_exit_status_code (fuel : nat) (body : M unit) : M unit :=
  code <- get exit_status_code ;;
  if code =? 0 then ret tt
  else match fuel with
       | O => out_of_fuel
       | S fuel' => body ;; while_exit_status_code fuel' body
       end.

(** [exit_status_code = f();] for a routine returning [unsigned char]. *)
Definition assign_exit_status_code (f : M Z) : M unit :=
  code <- f ;; modify (set_exit_status_code (to_uchar code)).

(** The link and session (re)connection sequences; [setup] and the [case 1]
    branch of [loop] hold the same two statements each. *)
Definition reconnect_link (fuel : nat) : M unit :=
  assign_exit_status_code connectToWiFi ;;
  while_exit_status_code fuel (assign_exit_status_code connectToWiFi).

Definition reconnect_session (fuel : nat) : M unit :=
  assign_exit_status_code connectToMqtt ;;
  while_exit_status_code fuel
    (delay 5000 ;; assign_exit_status_code connectToMqtt).

Definition setup (fuel : nat) : M unit :=
  Serial_begin 9600 ;;
  Serial_print (NL +++ NL +++ "-------------------- START --------------------"
                   +++ NL) ;;
  reconnect_link fuel ;;
  reconnect_session fuel ;;
  HCSR04_begin PIN_HCSR04_TRIG PIN_HCSR04_ECHO ;;
  Serial_print ("[+] Distance sensor HC-SR04 initialized." +++ NL).

Definition loop (fuel : nat) : M unit :=
  distance <- getDistanceCm ;;
  modify (set_hcsr_value (double_to_int w (round distance))) ;;
  assign_exit_status_code healthCheck ;;
  code <- get exit_status_code ;;
  (if code =? 1 then
     Serial_print ("[-] Device has lost connection to WiFi " +++ QUOTE) ;;
     Serial_print (wifi_essid cfg) ;;
     Serial_print (QUOTE +++ "!" +++ NL) ;;
     reconnect_link fuel ;;
     reconnect_session fuel
   else
     assign_exit_status_code sendJsonToMqttBroker ;;
     code <- get exit_status_code ;;
     if negb (code =? 0) then
       Serial_print "[-] JSON data could not be sent to " ;;
       Serial_print (mqtt_server cfg) ;;
       Serial_print ":" ;;
       Serial_print (dec (mqtt_port cfg)) ;;
       Serial_print (" " +++ QUOTE) ;;
       Serial_print (mqtt_topic cfg) ;;
       Serial_print (QUOTE +++ "!" +++ NL)
     else
       Serial_print "[+] JSON data sent to " ;;
       Serial_print (mqtt_server cfg) ;;
       Serial_print ":" ;;
       Serial_print (dec (mqtt_port cfg)) ;;
       Serial_print (" " +++ QUOTE) ;;
       Serial_print (mqtt_topic cfg) ;;
       Serial_print (QUOTE +++ "." +++ NL)) ;;
  delay (json_resend_timeout cfg).

(** [setup] once, then [cycles] turns of [loop]. *)
Fixpoint loop_cycles (fuel : nat) (cycles : nat) : M unit :=
  match cycles with
  | O => ret tt
  | S n => loop fuel ;; loop_cycles fuel n
  end.

Definition sketch (fuel cycles : nat) : M unit :=
  setup fuel ;; loop_cycles fuel cycles.

End Sketch.

(** ** Reading traces *)

Definition is_publish (e : Event) : bool :=
  match e with EMqttPublish _ _ _ => true | _ => false end.

Definition is_session_connect (e : Event) : bool :=
  match e with EMqttConnect _ _ _ _ => true | _ => false end.

Definition is_link_call (e : Event) : bool :=
  match e with
  | EWifiBegin _ _ | EWifiStatus _ | EWifiSSID _ | EWifiLocalIP _
  | EWifiMacAddress _ | EWifiRSSI _ => true
  | _ => false
  end.

Definition is_session_call (e : Event) : bool :=
  match e with
  | EMqttSetServer _ _ | EMqttConnect _ _ _ _ | EMqttState _
  | EMqttPublish _ _ _ => true
  | _ => false
  end.

(** The publish calls of a trace: topic, payload, broker's answer. *)
Definition publishes (tr : list Event) : list (string * string * bool) :=
  flat_map (fun e => match e with
                     | EMqttPublish t p b => [(t, p, b)]
                     | _ => []
                     end) tr.

(** The waits of a trace, in milliseconds. *)
Definition delays (tr : list Event) : list Z :=
  flat_map (fun e => match e with EDelay ms => [ms] | _ => [] end) tr.

(** The answers to the link status reads of a trace. *)
Definition status_reads (tr : list Event) : list bool :=
  flat_map (fun e => match e with EWifiStatus b => [b] | _ => [] end) tr.

(** The answers to the session connect attempts of a trace. *)
Definition session_attempts (tr : list Event) : list bool :=
  flat_map (fun e => match e with EMqttConnect _ _ _ b => [b] | _ => [] end) tr.

(** Simulated clock: the time a trace spends waiting. *)
Definition elapsed (tr : list Event) : Z := fold_right Z.add 0 (delays tr).

(** The text written to the serial port. *)
Definition serial_output (tr : list Event) : string :=
  fold_right (fun e acc => match e with ESerial t => t +++ acc | _ => acc end)
             EmptyString tr.

Definition always {A} (a : A) : nat -> A := fun _ => a.

(** A world in which every collaborator cooperates: the link is up, the
    broker accepts, the sensor reads 42.0 cm. *)
Definition calm_world : World :=
  {| wifi_status_at := always true;
     wifi_SSID_at := always "esp32";
     wifi_localIP_at := always (192, 168, 4, 2);
     wifi_macAddress_at := always [36; 111; 40; 171; 205; 239];
     wifi_RSSI_at := always (-67);
     mqtt_connect_at := always true;
     mqtt_state_at := always 0;
     mqtt_publish_at := always true;
     mqtt_connected_at := always true;
     hcsr_measure_at := always (DFinite (42 # 1));
     cast_unrepresentable := fun _ => 0 |}.

(** The calls of [WiFi.begin] of a trace: network name and passphrase. *)
Definition joins (tr : list Event) : list (string * option string) :=
  flat_map (fun e => match e with EWifiBegin e p => [(e, p)] | _ => [] end) tr.

(** The measurements of a trace. *)
Definition measures (tr : list Event) : list double :=
  flat_map (fun e => match e with EHcsrMeasure d => [d] | _ => [] end) tr.

Definition is_sensor_call (e : Event) : bool :=
  match e with
  | EHcsrBegin _ _ | EHcsrMeasure _ => true
  | _ => false
  end.

(** The events of a measurement and of a publish. *)
Definition is_sensor_or_publish (e : Event) : bool :=
  match e with
  | EHcsrMeasure _ | EMqttPublish _ _ _ => true
  | _ => false
  end.

(** A link that comes up at the [k]-th status read and a broker that accepts
    from the [m]-th connect attempt on; everything else as in [calm_world]. *)
Definition slow_world (k m : nat) : World :=
  {| wifi_status_at := fun i => Nat.leb k i;
     wifi_SSID_at := wifi_SSID_at calm_world;
     wifi_localIP_at := wifi_localIP_at calm_world;
     wifi_macAddress_at := wifi_macAddress_at calm_world;
     wifi_RSSI_at := wifi_RSSI_at calm_world;
     mqtt_connect_at := fun i => Nat.leb m i;
     mqtt_state_at := mqtt_state_at calm_world;
     mqtt_publish_at := mqtt_publish_at calm_world;
     mqtt_connected_at := mqtt_connected_at calm_world;
     hcsr_measure_at := hcsr_measure_at calm_world;
     cast_unrepresentable := cast_unrepresentable calm_world |}.

(** A sensor that reads 2.5 cm; everything else as in [calm_world]. *)
Definition halfway_world : World :=
  {| wifi_status_at := wifi_status_at calm_world;
     wifi_SSID_at := wifi_SSID_at calm_world;
     wifi_localIP_at := wifi_localIP_at calm_world;
     wifi_macAddress_at := wifi_macAddress_at calm_world;
     wifi_RSSI_at := wifi_RSSI_at calm_world;
     mqtt_connect_at := mqtt_connect_at calm_world;
     mqtt_state_at := mqtt_state_at calm_world;
     mqtt_publish_at := mqtt_publish_at calm_world;
     mqtt_connected_at := mqtt_connected_at calm_world;
     hcsr_measure_at := always (DFinite (5 # 2));
     cast_unrepresentable := cast_unrepresentable calm_world |}.

(** * The sensor-only sketch (unnamed/part_000)

    The same sensor code without any connectivity: [setup] starts the serial
    port and the driver, [loop] measures, rounds, prints and waits one
    second.  It shares the collaborators and the state of the telemetry
    sketch; it never touches [exit_status_code]. *)

Module SensorOnly.

Section Sketch.

Variable w : World.

Definition getDistanceCm : M double := HCSR04_measureDistanceCm w.

Definition setup : M unit :=
  Serial_begin 9600 ;;
  Serial_print (NL +++ NL +++ "-------------------- START --------------------"
                   +++ NL) ;;
  HCSR04_begin PIN_HCSR04_TRIG PIN_HCSR04_ECHO ;;
  Serial_print ("[+] Distance sensor HC-SR04 initialized." +++ NL).

Definition loop : M unit :=
  distance <- getDistanceCm ;;
  modify (set_hcsr_value (double_to_int w (round distance))) ;;
  Serial_print "Measured distance: " ;;
  value <- get hcsr_value ;;
  Serial_print (dec value) ;;
  Serial_print (" cm." +++ NL) ;;
  delay 1000.

(** [cycles] turns of [loop]. *)
Fixpoint loop_cycles (cycles : nat) : M unit :=
  match cycles with
  | O => ret tt
  | S n => loop ;; loop_cycles n
  end.

Definition sketch (cycles : nat) : M unit :=
  setup ;; loop_cycles cycles.

End Sketch.

(** The line a turn prints for a stored value. *)
Definition reading_line (value : Z) : string :=
  "Measured distance: " +++ dec value +++ " cm." +++ NL.

End SensorOnly.

(** * The installation script (nemesis, install.sh)

    The shell script that follows the sketch in the source file.  A command
    is the list of its words after expansion; the host decides which commands
    succeed.  Every command of the script has its own text and runs at most
    once, so one answer per command text covers every behaviour of the host.
    The and-or lists of the shell, [a && b] and [a || b], have equal
    precedence and associate to the left; [exit] leaves the script with the
    status of the last command. *)

Module Install.

Definition Command : Type := list string.

Definition echo (text : string) : Command := ["echo"; text].

Inductive AndOr :=
| Simple (c : Command)
| Exit
| AndThen (l r : AndOr)
| OrElse (l r : AndOr).

Record Host := mkHost {
  EUID     : Z;
  succeeds : Command -> bool
}.

(** What running a piece of the script gives: the commands run, in order,
    the status of the last one, and whether [exit] was reached. *)
Record Outcome := mkOutcome {
  ran    : list Command;
  status : bool;
  exited : bool
}.

(** [last] is the status of the command that ran before. *)
Fixpoint run (h : Host) (last : bool) (a : AndOr) : Outcome :=
  match a with
  | Simple c => mkOutcome [c] (succeeds h c) false
  | Exit => mkOutcome [] last true
  | AndThen l r =>
      let o := run h last l in
      if exited o then o
      else if status o then
        let o' := run h (status o) r in
        mkOutcome (ran o ++ ran o') (status o') (exited o')
      else o
  | OrElse l r =>
      let o := run h last l in
      if exited o then o
      else if status o then o
      else
        let o' := run h (status o) r in
        mkOutcome (ran o ++ ran o') (status o') (exited o')
  end.

(** A sequence of lists, one after the other, up to an [exit]. *)
Fixpoint run_all (h : Host) (last : bool) (script : list AndOr) : Outcome :=
  match script with
  | [] => mkOutcome [] last false
  | a :: rest =>
      let o := run h last a in
      if exited o then o
      else
        let o' := run_all h (status o) rest in
        mkOutcome (ran o ++ ran o') (status o') (exited o')
  end.

(** The pattern of every step of the script:
    [command && echo ok || echo error || exit]. *)
Definition step (c : Command) (ok error : string) : AndOr :=
  OrElse (OrElse (AndThen (Simple c) (Simple (echo ok))) (Simple (echo error)))
         Exit.

Definition DIRECTORY : string := "/etc/nemesis".
Definition SCRIPT : string := "./install/generate_config.py".
Definition NEMESIS : string := "./install/nemesis.py".
Definition DESTINATION : string := "/usr/sbin".
Definition FULL_PATH : string := DESTINATION +++ "/nemesis.py".
Definition VENV : string := "./venv".

(** The seven steps: command, success message, error message. *)
Definition install_steps : list (Command * string * string) :=
  [ (["rm"; "-rf"; DIRECTORY],
     "Directory '" +++ DIRECTORY +++ "' removed.",
     "ERROR! Directory '" +++ DIRECTORY +++ "' could not be removed!");
    (["mkdir"; DIRECTORY],
     "Directory '" +++ DIRECTORY +++ "' created.",
     "ERROR! Directory '" +++ DIRECTORY +++ "' could not be created!");
    (["python3"; SCRIPT],
     "Python script '" +++ SCRIPT +++ "' executed.",
     "ERROR! Python script '" +++ SCRIPT +++ "' could not be executed!");
    (["cp"; "-f"; NEMESIS; DESTINATION],
     "Script '" +++ NEMESIS +++ "' copied to '" +++ DESTINATION +++ "'.",
     "ERROR! Script '" +++ NEMESIS +++ "' could not be copied to '"
       +++ DESTINATION +++ "'!");
    (["chown"; "root:root"; FULL_PATH],
     "Ownership of file '" +++ FULL_PATH +++ "' changed to root.",
     "ERROR! Ownership of file '" +++ FULL_PATH
       +++ "' could not be changed to root!");
    (["chmod"; "0500"; FULL_PATH],
     "Rights of file '" +++ FULL_PATH +++ "' changed to 0500.",
     "ERROR! Rights of file '" +++ FULL_PATH
       +++ "' could not be changed to 0500!");
    (["cp"; "-rf"; VENV; DIRECTORY],
     "Venv '" +++ VENV +++ "' copied to '" +++ DIRECTORY +++ "'.",
     "ERROR! Venv '" +++ VENV +++ "' could not be copied to '"
       +++ DIRECTORY +++ "'!") ].

Definition finished : Command := echo "Installation finished successfully.".

Definition script_of (steps : list (Command * string * string)) : list AndOr :=
  map (fun '(c, ok, error) => step c ok error) steps ++ [Simple finished].

(** The script: the root check, then the steps and the closing message. *)
Definition install (h : Host) : Outcome :=
  if negb (EUID h =? 0)
  then run_all h true [Simple (echo "Run as root!"); Exit]
  else run_all h true (script_of install_steps).

(** What a step writes: the success message after a command that
    succeeded, the error message after one that failed, and the error
    message as well when the success message could not be written. *)
Definition step_report (h : Host) (c : Command) (ok error : string)
  : list Command :=
  if succeeds h c
  then echo ok :: (if succeeds h (echo ok) then [] else [echo error])
  else [echo error].

(** A step leaves the script only when its error message was due and could
    not be written. *)
Definition step_exits (h : Host) (c : Command) (ok error : string) : bool :=
  negb (succeeds h c && succeeds h (echo ok)) && negb (succeeds h (echo error)).

End Install.

Definition unprivileged_host : Install.Host := Install.mkHost 1000 (fun _ => true).

(** A host on which [mkdir] fails and everything else succeeds. *)
Definition failing_mkdir_host : Install.Host :=
  Install.mkHost 0 (fun c => match c with
                             | name :: _ => negb (String.eqb name "mkdir")
                             | [] => true
                             end).

(** A host on which nothing succeeds, not even writing a message. *)
Definition mute_host : Install.Host := Install.mkHost 0 (fun _ => false).

(** * Properties *)

(** ** Broker status table *)

Lemma to_short_id : forall c : Z, -32768 <= c <= 32767 -> to_short c = c.
Proof.
  intros c H. unfold to_short.
  rewrite Z.mod_small by lia. lia.
Qed.

Lemma broker_failure_unknown : forall c : Z,
  c < -4 \/ c = 0 \/ 5 < c -> broker_failure c = UnknownStatus.
Proof.
  intros c H. unfold broker_failure.
  destruct c as [ | p | p ]; [ reflexivity | | ].
  - destruct p as [ [ [ ? | ? | ] | [ ? | ? | ] | ] | [ [ ? | ? | ] | [ ? | ? | ] | ] | ];
      try reflexivity; exfalso; lia.
  - destruct p as [ [ [ ? | ? | ] | [ ? | ? | ] | ] | [ [ ? | ? | ] | [ ? | ? | ] | ] | ];
      try reflexivity; exfalso; lia.
Qed.

Arguments dec : simpl never.
Arguments hex : simpl never.
Arguments ip_text : simpl never.
Arguments String.append : simpl never.
Arguments to_short : simpl never.
Arguments to_uchar : simpl never.
Arguments serializeJson : simpl never.
Arguments serializeJson_to : simpl never.
Arguments json_data : simpl never.
Arguments double_to_int : simpl never.
Arguments round : simpl never.

(** C4. The session-connect failure classification is the fixed table, and
    its entries are the labels the sketch prints: -4 connection timeout,
    -3 connection lost, -2 connect failed, -1 disconnected cleanly, 1 bad
    protocol version, 2 bad client id, 3 server unavailable, 4 bad
    credentials, 5 unauthorized, each with its verbatim text, and UNKNOWN for
    every other value; a refused connect prints the entry of the status the
    broker client reports (a [short], unchanged by the conversion). *)
Theorem broker_failure_table :
  (forall c : Z,
     let label := broker_failure_text (broker_failure c) in
     (label = "MQTT_CONNECTION_TIMEOUT - the server didn't respond within the keepalive time"
        <-> c = -4) /\
     (label = "MQTT_CONNECTION_LOST - the network connection was broken"
        <-> c = -3) /\
     (label = "MQTT_CONNECT_FAILED - the network connection failed"
        <-> c = -2) /\
     (label = "MQTT_DISCONNECTED - the client is disconnected cleanly"
        <-> c = -1) /\
     (label = "MQTT_CONNECT_BAD_PROTOCOL - the server doesn't support the requested version of MQTT"
        <-> c = 1) /\
     (label = "MQTT_CONNECT_BAD_CLIENT_ID - the server rejected the client identifier"
        <-> c = 2) /\
     (label = "MQTT_CONNECT_UNAVAILABLE - the server was unable to accept the connection"
        <-> c = 3) /\
     (label = "MQTT_CONNECT_BAD_CREDENTIALS - the username/password were rejected"
        <-> c = 4) /\
     (label = "MQTT_CONNECT_UNAUTHORIZED - the client was not authorized to connect"
        <-> c = 5) /\
     (label = "UNKNOWN"
        <-> c <> -4 /\ c <> -3 /\ c <> -2 /\ c <> -1 /\
            c <> 1 /\ c <> 2 /\ c <> 3 /\ c <> 4 /\ c <> 5)) /\
  (forall c : Z,
     (broker_failure c = ConnectionTimeout   <-> c = -4) /\
     (broker_failure c = ConnectionLost      <-> c = -3) /\
     (broker_failure c = ConnectFailed       <-> c = -2) /\
     (broker_failure c = DisconnectedCleanly <-> c = -1) /\
     (broker_failure c = BadProtocolVersion  <-> c = 1) /\
     (broker_failure c = BadClientId         <-> c = 2) /\
     (broker_failure c = ServerUnavailable   <-> c = 3) /\
     (broker_failure c = BadCredentials      <-> c = 4) /\
     (broker_failure c = Unauthorized        <-> c = 5) /\
     (broker_failure c = UnknownStatus
        <-> c <> -4 /\ c <> -3 /\ c <> -2 /\ c <> -1 /\
            c <> 1 /\ c <> 2 /\ c <> 3 /\ c <> 4 /\ c <> 5)) /\
  (forall c : Z, -32768 <= c <= 32767 -> to_short c = c) /\
  (forall cfg w s,
     mqtt_connect_at w (n_connect s) = false ->
     let r := connectToMqtt cfg w s in
     let c := to_short (mqtt_state_at w (n_state s)) in
     result r = Some 1 /\
     exists before,
       emitted r =
         before ++ [EMqttState (mqtt_state_at w (n_state s));
                    ESerial (dec c); ESerial " (";
                    ESerial (broker_failure_text (broker_failure c));
                    ESerial (")!" +++ NL)]).
Proof.
  assert (Table : forall c : Z,
     (broker_failure c = ConnectionTimeout   <-> c = -4) /\
     (broker_failure c = ConnectionLost      <-> c = -3) /\
     (broker_failure c = ConnectFailed       <-> c = -2) /\
     (broker_failure c = DisconnectedCleanly <-> c = -1) /\
     (broker_failure c = BadProtocolVersion  <-> c = 1) /\
     (broker_failure c = BadClientId         <-> c = 2) /\
     (broker_failure c = ServerUnavailable   <-> c = 3) /\
     (broker_failure c = BadCredentials      <-> c = 4) /\
     (broker_failure c = Unauthorized        <-> c = 5) /\
     (broker_failure c = UnknownStatus
        <-> c <> -4 /\ c <> -3 /\ c <> -2 /\ c <> -1 /\
            c <> 1 /\ c <> 2 /\ c <> 3 /\ c <> 4 /\ c <> 5)).
  { intros c.
    assert (K : c < -4 \/ c = -4 \/ c = -3 \/ c = -2 \/ c = -1 \/ c = 0 \/
                c = 1 \/ c = 2 \/ c = 3 \/ c = 4 \/ c = 5 \/ 5 < c) by lia.
    destruct K as [K|[K|[K|[K|[K|[K|[K|[K|[K|[K|[K|K]]]]]]]]]]];
      try (rewrite broker_failure_unknown by lia);
      try (subst c; cbn);
      repeat split; intros; try discriminate; try lia; try reflexivity. }
  assert (Labels : forall f : BrokerFailure,
    (broker_failure_text f = "MQTT_CONNECTION_TIMEOUT - the server didn't respond within the keepalive time"
       <-> f = ConnectionTimeout) /\
    (broker_failure_text f = "MQTT_CONNECTION_LOST - the network connection was broken"
       <-> f = ConnectionLost) /\
    (broker_failure_text f = "MQTT_CONNECT_FAILED - the network connection failed"
       <-> f = ConnectFailed) /\
    (broker_failure_text f = "MQTT_DISCONNECTED - the client is disconnected cleanly"
       <-> f = DisconnectedCleanly) /\
    (broker_failure_text f = "MQTT_CONNECT_BAD_PROTOCOL - the server doesn't support the requested version of MQTT"
       <-> f = BadProtocolVersion) /\
    (broker_failure_text f = "MQTT_CONNECT_BAD_CLIENT_ID - the server rejected the client identifier"
       <-> f = BadClientId) /\
    (broker_failure_text f = "MQTT_CONNECT_UNAVAILABLE - the server was unable to accept the connection"
       <-> f = ServerUnavailable) /\
    (broker_failure_text f = "MQTT_CONNECT_BAD_CREDENTIALS - the username/password were rejected"
       <-> f = BadCredentials) /\
    (broker_failure_text f = "MQTT_CONNECT_UNAUTHORIZED - the client was not authorized to connect"
       <-> f = Unauthorized) /\
    (broker_failure_text f = "UNKNOWN" <-> f = UnknownStatus)).
  { intros []; cbn [broker_failure_text];
      repeat split; intros H; try reflexivity; discriminate H. }
  split; [ | split; [ exact Table | split ] ].
  - intros c label. subst label.
    destruct (Labels (broker_failure c))
      as (L1 & L2 & L3 & L4 & L5 & L6 & L7 & L8 & L9 & L10).
    destruct (Table c) as (T1 & T2 & T3 & T4 & T5 & T6 & T7 & T8 & T9 & T10).
    rewrite L1, L2, L3, L4, L5, L6, L7, L8, L9, L10.
    repeat (split; [ assumption | ]). assumption.
  - exact to_short_id.
  - intros cfg w s Hrefused r c. subst r c.
    split.
    + unfold connectToMqtt. cbn. rewrite Hrefused. reflexivity.
    + exists (firstn 14 (emitted (connectToMqtt cfg w s))).
      unfold connectToMqtt. cbn. rewrite Hrefused. reflexivity.
Qed.

(** ** Runs of composed routines *)

Lemma bind_run_some {A B} (m : M A) (f : A -> M B) (s : State) (a : A) :
  result (m s) = Some a ->
  bind m f s =
  mkRun (result (f a (final (m s)))) (final (f a (final (m s))))
        (emitted (m s) ++ emitted (f a (final (m s)))).
Proof. intros H. unfold bind. rewrite H. reflexivity. Qed.

Lemma bind_run_none {A B} (m : M A) (f : A -> M B) (s : State) :
  result (m s) = None ->
  bind m f s = mkRun None (final (m s)) (emitted (m s)).
Proof. intros H. unfold bind. rewrite H. reflexivity. Qed.

Lemma bind_emitted {A B} (m : M A) (f : A -> M B) (s : State) :
  emitted (bind m f s) =
  emitted (m s) ++ match result (m s) with
                   | Some a => emitted (f a (final (m s)))
                   | None => []
                   end.
Proof.
  unfold bind. destruct (result (m s)); cbn; [ reflexivity | ].
  now rewrite app_nil_r.
Qed.

Lemma bind_result_some {A B} (m : M A) (f : A -> M B) (s : State) (b : B) :
  result (bind m f s) = Some b ->
  exists a, result (m s) = Some a /\ result (f a (final (m s))) = Some b.
Proof.
  unfold bind. destruct (result (m s)) as [a | ]; cbn; intros H.
  - exists a. split; [ reflexivity | exact H ].
  - discriminate.
Qed.

(** *** Properties of every emitted event *)

(** [m] only ever emits events satisfying [P], from any state. *)
Definition always_emits {A} (P : Event -> Prop) (m : M A) : Prop :=
  forall s, Forall P (emitted (m s)).

Section AlwaysEmits.

Variable P : Event -> Prop.

Lemma emits_ret {A} (a : A) : always_emits P (ret a).
Proof. intros s. constructor. Qed.

Lemma emits_out_of_fuel {A} : always_emits P (@out_of_fuel A).
Proof. intros s. constructor. Qed.

Lemma emits_get {A} (f : State -> A) : always_emits P (get f).
Proof. intros s. constructor. Qed.

Lemma emits_modify (f : State -> State) : always_emits P (modify f).
Proof. intros s. constructor. Qed.

Lemma emits_emit (e : Event) : P e -> always_emits P (emit e).
Proof. intros H s. cbn. constructor; [ exact H | constructor ]. Qed.

Lemma emits_bind {A B} (m : M A) (f : A -> M B) :
  always_emits P m -> (forall a, always_emits P (f a)) ->
  always_emits P (bind m f).
Proof.
  intros Hm Hf s. rewrite bind_emitted. apply Forall_app. split.
  - apply Hm.
  - destruct (result (m s)); [ apply Hf | constructor ].
Qed.

Lemma emits_while (fuel : nat) (body : M unit) :
  always_emits P body -> always_emits P (while_exit_status_code fuel body).
Proof.
  intros Hbody. induction fuel as [ | fuel IH ]; cbn [while_exit_status_code].
  - apply emits_bind; [ apply emits_get | ].
    intros code. destruct (code =? 0); [ apply emits_ret | apply emits_out_of_fuel ].
  - apply emits_bind; [ apply emits_get | ].
    intros code. destruct (code =? 0); [ apply emits_ret | ].
    apply emits_bind; [ exact Hbody | intros _; exact IH ].
Qed.

Lemma emits_assign (f : M Z) :
  always_emits P f -> always_emits P (assign_exit_status_code f).
Proof.
  intros H. unfold assign_exit_status_code.
  apply emits_bind; [ exact H | intros; apply emits_modify ].
Qed.

End AlwaysEmits.

(** Splits a routine along its binds and branches; the leaves are single
    collaborator calls, whose one event is checked by [leaf]. *)
Ltac emits_with leaf :=
  repeat first
    [ apply emits_ret
    | apply emits_get
    | apply emits_modify
    | apply emits_out_of_fuel
    | apply emits_bind; [ | intro ]
    | apply emits_assign
    | apply emits_while
    | match goal with
      | |- always_emits _ (if ?b then _ else _) => destruct b
      | |- always_emits _ (match ?x with O => _ | S _ => _ end) => destruct x
      end
    | (intros ?; cbn; repeat constructor; leaf) ].

Section SketchEvents.

Variable cfg : Config.
Variable w : World.
Variable P : Event -> Prop.

(** The events every routine of the sketch may emit fall in these classes. *)
Hypothesis P_serial : forall t, P (ESerial t).
Hypothesis P_delay : forall ms, P (EDelay ms).

Section Link.

Hypothesis P_begin : forall e p, P (EWifiBegin e p).
Hypothesis P_status : forall b, P (EWifiStatus b).
Hypothesis P_ssid : forall x, P (EWifiSSID x).
Hypothesis P_ip : forall x, P (EWifiLocalIP x).
Hypothesis P_mac : forall x, P (EWifiMacAddress x).
Hypothesis P_rssi : forall x, P (EWifiRSSI x).

Lemma emits_wait_for_link (fuel : nat) : forall wait_counter,
  always_emits P (wait_for_link w fuel wait_counter).
Proof.
  induction fuel as [ | fuel IH ]; intros wc; cbn [wait_for_link];
    emits_with ltac:(auto).
  apply IH.
Qed.

Lemma emits_connectToWiFi : always_emits P (connectToWiFi cfg w).
Proof.
  unfold connectToWiFi.
  emits_with ltac:(auto using emits_wait_for_link).
Qed.

Lemma emits_reconnect_link (fuel : nat) :
  always_emits P (reconnect_link cfg w fuel).
Proof.
  unfold reconnect_link.
  emits_with ltac:(auto using emits_connectToWiFi).
Qed.

End Link.

Section Session.

Hypothesis P_setServer : P (EMqttSetServer (mqtt_server cfg) (mqtt_port cfg)).
Hypothesis P_connect : forall b,
  P (EMqttConnect (mqtt_topic cfg) (mqtt_user cfg) (mqtt_password cfg) b).
Hypothesis P_state : forall c, P (EMqttState c).

Lemma emits_connectToMqtt : always_emits P (connectToMqtt cfg w).
Proof.
  unfold connectToMqtt. emits_with ltac:(auto).
Qed.

Lemma emits_reconnect_session (fuel : nat) :
  always_emits P (reconnect_session cfg w fuel).
Proof.
  unfold reconnect_session.
  emits_with ltac:(auto using emits_connectToMqtt).
Qed.

End Session.

Section Whole.

Hypothesis P_begin : forall e p, P (EWifiBegin e p).
Hypothesis P_status : forall b, P (EWifiStatus b).
Hypothesis P_ssid : forall x, P (EWifiSSID x).
Hypothesis P_ip : forall x, P (EWifiLocalIP x).
Hypothesis P_mac : forall x, P (EWifiMacAddress x).
Hypothesis P_rssi : forall x, P (EWifiRSSI x).
Hypothesis P_setServer : P (EMqttSetServer (mqtt_server cfg) (mqtt_port cfg)).
Hypothesis P_connect : forall b,
  P (EMqttConnect (mqtt_topic cfg) (mqtt_user cfg) (mqtt_password cfg) b).
Hypothesis P_state : forall c, P (EMqttState c).
Hypothesis P_publish : forall payload b,
  P (EMqttPublish (mqtt_topic cfg) payload b).
Hypothesis P_serial_begin : forall baud, P (ESerialBegin baud).
Hypothesis P_hcsr_begin : forall t e, P (EHcsrBegin t e).
Hypothesis P_measure : forall d, P (EHcsrMeasure d).

Lemma emits_healthCheck : always_emits P (healthCheck w).
Proof. unfold healthCheck. emits_with ltac:(auto). Qed.

Lemma emits_sendJsonToMqttBroker : always_emits P (sendJsonToMqttBroker cfg w).
Proof. unfold sendJsonToMqttBroker. emits_with ltac:(auto). Qed.

Lemma emits_setup (fuel : nat) : always_emits P (setup cfg w fuel).
Proof.
  unfold setup.
  emits_with ltac:(auto using emits_reconnect_link, emits_reconnect_session).
Qed.

Lemma emits_loop (fuel : nat) : always_emits P (loop cfg w fuel).
Proof.
  unfold loop, getDistanceCm.
  emits_with ltac:(auto using emits_reconnect_link, emits_reconnect_session,
                     emits_healthCheck, emits_sendJsonToMqttBroker).
Qed.

Lemma emits_loop_cycles (fuel cycles : nat) :
  always_emits P (loop_cycles cfg w fuel cycles).
Proof.
  induction cycles as [ | n IH ]; cbn [loop_cycles].
  - apply emits_ret.
  - apply emits_bind; [ apply emits_loop | intros _; exact IH ].
Qed.

Lemma emits_sketch (fuel cycles : nat) :
  always_emits P (sketch cfg w fuel cycles).
Proof.
  unfold sketch.
  apply emits_bind; [ apply emits_setup | intros _; apply emits_loop_cycles ].
Qed.

End Whole.

End SketchEvents.

(** ** Client identifier *)

(** What a broker call of the sketch must present: the configured topic as
    the client id of every connect and as the topic of every publish. *)
Definition presents_topic (cfg : Config) (e : Event) : Prop :=
  match e with
  | EMqttConnect client_id _ _ _ => client_id = mqtt_topic cfg
  | EMqttPublish topic _ _ => topic = mqtt_topic cfg
  | _ => True
  end.

(** C10. Every session-connect attempt passes the configured publish topic
    as the client identifier: one call of [connectToMqtt] makes exactly one
    attempt, with that identifier, and in every run of the sketch each
    connect's client id and each publish's topic are the configured topic. *)
Theorem client_id_is_topic : forall cfg w fuel cycles s,
  (exists accepted,
     filter is_session_connect (emitted (connectToMqtt cfg w s)) =
     [EMqttConnect (mqtt_topic cfg) (mqtt_user cfg) (mqtt_password cfg)
                   accepted]) /\
  Forall (presents_topic cfg) (emitted (sketch cfg w fuel cycles s)).
Proof.
  intros cfg w fuel cycles s. split.
  - exists (mqtt_connect_at w (n_connect s)).
    unfold connectToMqtt. cbn.
    destruct (mqtt_connect_at w (n_connect s)); reflexivity.
  - apply emits_sketch; intros; exact I || reflexivity.
Qed.

(** ** Link connect: the polling loop *)

(** One unsuccessful poll: the status read, the wait, the progress dot. *)
Definition wait_round : list Event :=
  [EWifiStatus false; EDelay 500; ESerial "."].

(** [k] unsuccessful polls, then the poll that found the link when one did. *)
Fixpoint wait_trace (k : nat) (found : bool) : list Event :=
  match k with
  | O => if found then [EWifiStatus true] else []
  | S k' => wait_round ++ wait_trace k' found
  end.

Lemma n_status_iter (n : nat) (s : State) :
  n_status (Nat.iter n tick_status s) = (n + n_status s)%nat.
Proof.
  induction n as [ | n IH ]; [ reflexivity | ].
  change (Nat.iter (S n) tick_status s) with (tick_status (Nat.iter n tick_status s)).
  unfold tick_status at 1. cbn [n_status]. now rewrite IH.
Qed.

Lemma iter_tick_status_shift (n : nat) (s : State) :
  Nat.iter n tick_status (tick_status s) = Nat.iter (S n) tick_status s.
Proof.
  induction n as [ | n IH ]; [ reflexivity | ].
  change (Nat.iter (S n) tick_status (tick_status s))
    with (tick_status (Nat.iter n tick_status (tick_status s))).
  now rewrite IH.
Qed.

Lemma delays_app (a b : list Event) : delays (a ++ b) = delays a ++ delays b.
Proof. apply flat_map_app. Qed.

Lemma status_reads_app (a b : list Event) :
  status_reads (a ++ b) = status_reads a ++ status_reads b.
Proof. apply flat_map_app. Qed.

Lemma publishes_app (a b : list Event) :
  publishes (a ++ b) = publishes a ++ publishes b.
Proof. apply flat_map_app. Qed.

Lemma session_attempts_app (a b : list Event) :
  session_attempts (a ++ b) = session_attempts a ++ session_attempts b.
Proof. apply flat_map_app. Qed.

Lemma delays_wait_trace (k : nat) (found : bool) :
  delays (wait_trace k found) = repeat 500 k.
Proof.
  induction k as [ | k IH ]; cbn [wait_trace].
  - now destruct found.
  - rewrite delays_app, IH. reflexivity.
Qed.

Lemma status_reads_wait_trace (k : nat) (found : bool) :
  status_reads (wait_trace k found) =
  repeat false k ++ (if found then [true] else []).
Proof.
  induction k as [ | k IH ]; cbn [wait_trace].
  - now destruct found.
  - rewrite status_reads_app, IH. reflexivity.
Qed.

(** One turn of the polling loop. *)
Lemma wait_for_link_step (w : World) (fuel : nat) (wait_counter : Z) (s : State) :
  wait_for_link w fuel wait_counter s =
  if wifi_status_at w (n_status s)
  then mkRun (Some tt) (tick_status s) [EWifiStatus true]
  else if to_uchar (wait_counter + 1) >=? 20
       then mkRun (Some tt) (tick_status s) wait_round
       else match fuel with
            | O => mkRun None (tick_status s) wait_round
            | S fuel' =>
                let r := wait_for_link w fuel' (to_uchar (wait_counter + 1))
                                       (tick_status s) in
                mkRun (result r) (final r) (wait_round ++ emitted r)
            end.
Proof.
  destruct fuel as [ | fuel ]; cbn [wait_for_link]; unfold bind at 1; cbn;
    destruct (wifi_status_at w (n_status s)); cbn; try reflexivity;
    destruct (to_uchar (wait_counter + 1) >=? 20); cbn; try reflexivity.
Qed.

(** The polling loop never runs out of the fuel [connectToWiFi] gives it:
    it makes [k] unsuccessful polls and stops either on a poll that reports
    the link connected or with the twentieth wait. *)
Lemma wait_for_link_run (w : World) : forall fuel wait_counter s,
  0 <= wait_counter < 20 ->
  (Z.to_nat (19 - wait_counter) <= fuel)%nat ->
  exists (k : nat) (found : bool),
    wait_for_link w fuel wait_counter s =
      mkRun (Some tt)
            (Nat.iter (k + if found then 1 else 0)%nat tick_status s)
            (wait_trace k found) /\
    (if found then Z.of_nat k + wait_counter < 20
     else Z.of_nat k + wait_counter = 20) /\
    (forall i, (i < k)%nat -> wifi_status_at w (n_status s + i) = false) /\
    (found = true -> wifi_status_at w (n_status s + k) = true).
Proof.
  assert (Hone : forall (s : State) (i : nat),
             wifi_status_at w (n_status s) = false -> (i < 1)%nat ->
             wifi_status_at w (n_status s + i) = false).
  { intros s i E Hi. assert (i = 0)%nat by lia. subst i.
    now rewrite Nat.add_0_r. }
  induction fuel as [ | fuel IH ]; intros wc s Hwc Hfuel;
    rewrite wait_for_link_step;
    assert (Hu : to_uchar (wc + 1) = wc + 1)
      by (unfold to_uchar; apply Z.mod_small; lia);
    rewrite Hu;
    destruct (wifi_status_at w (n_status s)) eqn:E.
  - exists 0%nat, true.
    split; [ reflexivity | split; [ lia | split; [ intros; lia | ] ] ].
    intros _. now rewrite Nat.add_0_r.
  - destruct (Z.geb_spec (wc + 1) 20) as [Hge | Hlt]; [ | lia ].
    exists 1%nat, false.
    split; [ reflexivity | split; [ lia | split; [ | discriminate ] ] ].
    intros i Hi. now apply Hone.
  - exists 0%nat, true.
    split; [ reflexivity | split; [ lia | split; [ intros; lia | ] ] ].
    intros _. now rewrite Nat.add_0_r.
  - destruct (Z.geb_spec (wc + 1) 20) as [Hge | Hlt].
    + exists 1%nat, false.
      split; [ reflexivity | split; [ lia | split; [ | discriminate ] ] ].
      intros i Hi. now apply Hone.
    + destruct (IH (wc + 1) (tick_status s))
        as (k & found & Hrun & Hk & Hno & Hyes); [ lia | lia | ].
      rewrite Hrun. cbn [result final emitted].
      exists (S k), found. rewrite iter_tick_status_shift.
      split; [ reflexivity | split; [ destruct found; lia | split ] ].
      * intros i Hi. destruct i as [ | i ].
        -- now rewrite Nat.add_0_r.
        -- specialize (Hno i ltac:(lia)). cbn [n_status tick_status] in Hno.
           now replace (n_status s + S i)%nat with (S (n_status s) + i)%nat by lia.
      * intros Hf. specialize (Hyes Hf). cbn [n_status tick_status] in Hyes.
        now replace (n_status s + S k)%nat with (S (n_status s) + k)%nat by lia.
Qed.
Arguments wait_for_link : simpl never.

(** ** Link connect: one call *)

(** What [connectToWiFi] emits before polling. *)
Definition link_connect_head (cfg : Config) : list Event :=
  [ESerial ("    Connecting to WiFi " +++ QUOTE); ESerial (wifi_essid cfg);
   ESerial QUOTE] ++
  (if wifi_key cfg =? KEY_NONE then [EWifiBegin (wifi_essid cfg) None]
   else if wifi_key cfg =? KEY_WPA_PSK
        then [EWifiBegin (wifi_essid cfg) (Some (wifi_password cfg))]
        else []).

(** The identity report of a successful connect: network name, address,
    hardware id, signal strength and its quality tier. *)
Definition identity_report (w : World) (i : nat) : list Event :=
  let mac := wifi_macAddress_at w i in
  let rssi := wifi_RSSI_at w i in
  [ESerial (NL +++ "[+] Conected to WiFi " +++ QUOTE);
   EWifiSSID (wifi_SSID_at w i); ESerial (wifi_SSID_at w i); ESerial QUOTE;
   ESerial " with IP address: ";
   EWifiLocalIP (wifi_localIP_at w i); ESerial (ip_text (wifi_localIP_at w i));
   ESerial " [";
   EWifiMacAddress mac;
   ESerial (hex (nth 5 mac 0)); ESerial ":"; ESerial (hex (nth 4 mac 0));
   ESerial ":"; ESerial (hex (nth 3 mac 0)); ESerial ":";
   ESerial (hex (nth 2 mac 0)); ESerial ":"; ESerial (hex (nth 1 mac 0));
   ESerial ":"; ESerial (hex (nth 0 mac 0)); ESerial "]";
   ESerial " (signal: ";
   EWifiRSSI rssi; ESerial (dec rssi);
   ESerial (signal_quality_text (signal_quality rssi));
   ESerial (")." +++ NL)].

Definition link_failure_report (cfg : Config) : list Event :=
  [ESerial (NL +++ "[-] Connection to WiFi " +++ QUOTE);
   ESerial (wifi_essid cfg); ESerial (QUOTE +++ " failed!" +++ NL)].

Lemma n_identity_iter (n : nat) (s : State) :
  n_identity (Nat.iter n tick_status s) = n_identity s.
Proof.
  induction n as [ | n IH ]; [ reflexivity | ].
  change (Nat.iter (S n) tick_status s) with (tick_status (Nat.iter n tick_status s)).
  unfold tick_status at 1. cbn [n_identity]. exact IH.
Qed.

(** One call of [connectToWiFi]: [k] unsuccessful polls (at most 20), the
    poll that found the link when one did, and the status read after the
    loop, whose answer [b] decides the result. *)
Lemma connectToWiFi_run (cfg : Config) (w : World) (s : State) :
  exists (k : nat) (found : bool),
    let n := (k + if found then 1 else 0)%nat in
    let b := wifi_status_at w (n_status s + n) in
    connectToWiFi cfg w s =
      mkRun (Some (if b then 0 else 1))
            (if b then tick_identity (Nat.iter (S n) tick_status s)
             else Nat.iter (S n) tick_status s)
            (link_connect_head cfg ++ wait_trace k found ++
             EWifiStatus b ::
             (if b then identity_report w (n_identity s)
              else link_failure_report cfg)) /\
    (if found then (k < 20)%nat else k = 20%nat) /\
    (forall i, (i < k)%nat -> wifi_status_at w (n_status s + i) = false) /\
    (found = true -> wifi_status_at w (n_status s + k) = true).
Proof.
  destruct (wait_for_link_run w 20 0 s) as (k & found & Hrun & Hk & Hno & Hyes);
    [ lia | cbn; lia | ].
  exists k, found. cbv zeta.
  split; [ | split; [ destruct found; lia | split; assumption ] ].
  assert (Hb : wifi_status_at w
                 (n_status (Nat.iter (k + (if found then 1 else 0)) tick_status s))
               = wifi_status_at w (n_status s + (k + if found then 1 else 0)))
    by (rewrite n_status_iter; f_equal; lia).
  unfold connectToWiFi, link_connect_head.
  destruct (wifi_key cfg =? KEY_NONE); [ | destruct (wifi_key cfg =? KEY_WPA_PSK) ];
    cbn;
    rewrite (bind_run_some (wait_for_link w 20 0) _ s tt) by (rewrite Hrun; reflexivity);
    rewrite Hrun; cbn [result final emitted]; unfold bind at 1; cbn;
    rewrite Hb;
    destruct (wifi_status_at w (n_status s + (k + if found then 1 else 0)));
    cbn; rewrite ?n_identity_iter; reflexivity.
Qed.

(** ** Signal quality classifier *)

(** C3. For every signal strength the classifier yields exactly one tier,
    by exclusive lower bounds tried top-down, and the tier is the label the
    sketch prints, in parentheses after the signal strength: Amazing iff
    [s > -67], Very Good iff [-70 < s <= -67], Okay iff [-80 < s <= -70],
    Not Good iff [-90 < s <= -80], Unusable iff [s <= -90]; [-67] is Very
    Good and [-90] is Unusable.  A successful call of [connectToWiFi] ends
    by printing the signal strength it read, the label of that strength and
    the closing text. *)
Theorem signal_quality_tiers : forall s : Z,
  let label := signal_quality_text (signal_quality s) in
  (label = " (Amazing)"   <-> s > -67) /\
  (label = " (Very Good)" <-> -70 < s <= -67) /\
  (label = " (Okay)"      <-> -80 < s <= -70) /\
  (label = " (Not Good)"  <-> -90 < s <= -80) /\
  (label = " (Unusable)"  <-> s <= -90) /\
  signal_quality_text (signal_quality (-67)) = " (Very Good)" /\
  signal_quality_text (signal_quality (-90)) = " (Unusable)" /\
  (signal_quality s = Amazing  <-> s > -67) /\
  (signal_quality s = VeryGood <-> -70 < s <= -67) /\
  (signal_quality s = Okay     <-> -80 < s <= -70) /\
  (signal_quality s = NotGood  <-> -90 < s <= -80) /\
  (signal_quality s = Unusable <-> s <= -90) /\
  (forall cfg w st,
     let r := connectToWiFi cfg w st in
     let rssi := wifi_RSSI_at w (n_identity st) in
     result r = Some 0 ->
     exists before,
       emitted r =
         before ++ [ESerial " (signal: "; EWifiRSSI rssi; ESerial (dec rssi);
                    ESerial (signal_quality_text (signal_quality rssi));
                    ESerial (")." +++ NL)]).
Proof.
  intros s label. subst label.
  assert (T : forall q,
             signal_quality_text q = " (Amazing)" <-> q = Amazing)
    by (intros []; cbn; split; intros H; try reflexivity; discriminate H).
  assert (T2 : forall q,
             signal_quality_text q = " (Very Good)" <-> q = VeryGood)
    by (intros []; cbn; split; intros H; try reflexivity; discriminate H).
  assert (T3 : forall q,
             signal_quality_text q = " (Okay)" <-> q = Okay)
    by (intros []; cbn; split; intros H; try reflexivity; discriminate H).
  assert (T4 : forall q,
             signal_quality_text q = " (Not Good)" <-> q = NotGood)
    by (intros []; cbn; split; intros H; try reflexivity; discriminate H).
  assert (T5 : forall q,
             signal_quality_text q = " (Unusable)" <-> q = Unusable)
    by (intros []; cbn; split; intros H; try reflexivity; discriminate H).
  assert (E : (signal_quality s = Amazing  <-> s > -67) /\
              (signal_quality s = VeryGood <-> -70 < s <= -67) /\
              (signal_quality s = Okay     <-> -80 < s <= -70) /\
              (signal_quality s = NotGood  <-> -90 < s <= -80) /\
              (signal_quality s = Unusable <-> s <= -90)).
  { unfold signal_quality.
    destruct (Z.gtb_spec s (-67));
      [ repeat split; intros; try lia; try discriminate | ].
    destruct (Z.gtb_spec s (-70));
      [ repeat split; intros; try lia; try discriminate | ].
    destruct (Z.gtb_spec s (-80));
      [ repeat split; intros; try lia; try discriminate | ].
    destruct (Z.gtb_spec s (-90)); repeat split; intros; try lia;
      try discriminate. }
  destruct E as (E1 & E2 & E3 & E4 & E5).
  rewrite T, T2, T3, T4, T5.
  repeat (split; [ assumption || reflexivity | ]).
  intros cfg w st r rssi. subst r rssi.
  destruct (connectToWiFi_run cfg w st) as (k & found & Hrun & _).
  cbv zeta in Hrun. rewrite Hrun. cbn [result emitted].
  destruct (wifi_status_at w _); [ intros _ | discriminate ].
  exists (link_connect_head cfg ++ wait_trace k found ++ EWifiStatus true ::
          firstn 21 (identity_report w (n_identity st))).
  rewrite <- !app_assoc. reflexivity.
Qed.

(** ** Link connect: the contract of one call *)

(** A world whose link reports connected on the first status read and lost
    from the second on; everything else as in [calm_world]. *)
Definition dropping_world : World :=
  {| wifi_status_at := fun k => Nat.eqb k 0;
     wifi_SSID_at := wifi_SSID_at calm_world;
     wifi_localIP_at := wifi_localIP_at calm_world;
     wifi_macAddress_at := wifi_macAddress_at calm_world;
     wifi_RSSI_at := wifi_RSSI_at calm_world;
     mqtt_connect_at := mqtt_connect_at calm_world;
     mqtt_state_at := mqtt_state_at calm_world;
     mqtt_publish_at := mqtt_publish_at calm_world;
     mqtt_connected_at := mqtt_connected_at calm_world;
     hcsr_measure_at := hcsr_measure_at calm_world;
     cast_unrepresentable := cast_unrepresentable calm_world |}.

(** The link-connect contract read literally: at most 20 waits of 500 ms;
    failure when no status read of the call reports the link connected,
    success otherwise. *)
Definition link_connect_contract (cfg : Config) (w : World) (s : State) : Prop :=
  let r := connectToWiFi cfg w s in
  (List.length (delays (emitted r)) <= 20)%nat /\
  Forall (eq 500) (delays (emitted r)) /\
  (Forall (eq false) (status_reads (emitted r)) -> result r = Some 1) /\
  (Exists (eq true) (status_reads (emitted r)) -> result r = Some 0).

(** C5, as stated, fails: when the link reports connected at the first poll
    and is lost by the read that follows the polling loop, the call fails
    without any wait although the link was connected within the bound. *)
Lemma link_connect_contract_fails :
  ~ link_connect_contract sketch_config dropping_world initial_state.
Proof.
  intros (_ & _ & _ & H).
  assert (E : Exists (eq true)
                (status_reads
                   (emitted (connectToWiFi sketch_config dropping_world
                                           initial_state)))).
  { vm_compute. apply Exists_cons_hd. reflexivity. }
  specialize (H E). vm_compute in H. discriminate.
Qed.

(** C5, amended. One call of the link-connect routine waits at most 20 times,
    500 ms each, each wait following a status read that reported the link not
    connected; the polling stops at the first read that reports it connected;
    one more status read then decides the call: failure (1) when it reports
    not connected, success (0) otherwise, after the identity report (network
    name, address, hardware id, signal strength and quality tier) is written.
    When the link never reports connected the call fails after exactly 20
    waits. *)
Theorem link_connect_polling : forall cfg w s,
  let r := connectToWiFi cfg w s in
  (exists (waits : nat) (found connected : bool),
     (waits <= 20)%nat /\
     (if found then (waits < 20)%nat else waits = 20%nat) /\
     delays (emitted r) = repeat 500 waits /\
     status_reads (emitted r) =
       repeat false waits ++ (if found then [true] else []) ++ [connected] /\
     (forall i, (i < waits)%nat -> wifi_status_at w (n_status s + i) = false) /\
     (found = true -> wifi_status_at w (n_status s + waits) = true) /\
     connected =
       wifi_status_at w (n_status s + (waits + if found then 1 else 0)) /\
     result r = Some (if connected then 0 else 1) /\
     exists before,
       emitted r =
         before ++ (if connected then identity_report w (n_identity s)
                    else link_failure_report cfg)) /\
  ((forall i, (i <= 20)%nat -> wifi_status_at w (n_status s + i) = false) ->
   result r = Some 1 /\ delays (emitted r) = repeat 500 20).
Proof.
  intros cfg w s r. subst r.
  destruct (connectToWiFi_run cfg w s) as (k & found & Hrun & Hk & Hno & Hyes).
  cbv zeta in Hrun.
  set (b := wifi_status_at w (n_status s + (k + if found then 1 else 0))) in *.
  assert (Hhead : delays (link_connect_head cfg) = []
                  /\ status_reads (link_connect_head cfg) = []).
  { unfold link_connect_head.
    destruct (wifi_key cfg =? KEY_NONE); [ | destruct (wifi_key cfg =? KEY_WPA_PSK) ];
      split; reflexivity. }
  destruct Hhead as [Hd Hs].
  assert (Hdel : delays (emitted (connectToWiFi cfg w s)) = repeat 500 k).
  { rewrite Hrun. cbn [emitted].
    rewrite !delays_app, Hd, delays_wait_trace.
    destruct b; cbn; now rewrite app_nil_r. }
  split.
  - exists k, found, b.
    split; [ destruct found; lia | ].
    split; [ exact Hk | ].
    split; [ exact Hdel | ].
    split.
    { rewrite Hrun. cbn [emitted].
      rewrite !status_reads_app, Hs, status_reads_wait_trace.
      destruct b; cbn; now rewrite <- app_assoc. }
    split; [ exact Hno | ].
    split; [ exact Hyes | ].
    split; [ reflexivity | ].
    split; [ rewrite Hrun; reflexivity | ].
    exists (link_connect_head cfg ++ wait_trace k found ++ [EWifiStatus b]).
    rewrite Hrun. cbn [emitted]. now rewrite <- !app_assoc.
  - intros Hnever.
    assert (Hfound : found = false).
    { destruct found; [ | reflexivity ].
      rewrite Hnever in Hyes by lia. now specialize (Hyes eq_refl). }
    subst found.
    assert (Hb : b = false) by (subst b; apply Hnever; lia).
    rewrite Hdel. rewrite Hrun, Hb, Hk. split; reflexivity.
Qed.

(** A link that stays away: the call waits 20 times and fails. *)
Example link_connect_timeout :
  let w := mkWorld (always false) (always EmptyString) (always (0, 0, 0, 0))
                   (always []) (always 0) (always false) (always 0)
                   (always false) (always false) (always DNaN) (fun _ => 0) in
  let r := connectToWiFi sketch_config w initial_state in
  result r = Some 1 /\ elapsed (emitted r) = 10000 /\
  List.length (status_reads (emitted r)) = 21%nat.
Proof. vm_compute. repeat split. Qed.
(** ** Session connect: the retry loop *)

Arguments connectToWiFi : simpl never.
Arguments connectToMqtt : simpl never.
Arguments while_exit_status_code : simpl never.

Lemma while_exit_status_code_step (fuel : nat) (body : M unit) (s : State) :
  while_exit_status_code fuel body s =
  if exit_status_code s =? 0 then mkRun (Some tt) s []
  else match fuel with
       | O => mkRun None s []
       | S fuel' =>
           let r := bind body (fun _ => while_exit_status_code fuel' body) s in
           mkRun (result r) (final r) (emitted r)
       end.
Proof.
  destruct fuel; unfold while_exit_status_code; unfold bind at 1; cbn;
    destruct (exit_status_code s =? 0); reflexivity.
Qed.

Lemma assign_exit_status_code_run (f : M Z) (s : State) (code : Z) :
  result (f s) = Some code ->
  assign_exit_status_code f s =
  mkRun (Some tt) (set_exit_status_code (to_uchar code) (final (f s)))
        (emitted (f s)).
Proof.
  intros H. unfold assign_exit_status_code.
  rewrite (bind_run_some _ _ _ _ H). cbn. now rewrite app_nil_r.
Qed.

(** One call of [connectToMqtt]: a single attempt, answered by the broker. *)
Lemma connectToMqtt_run (cfg : Config) (w : World) (s : State) :
  let b := mqtt_connect_at w (n_connect s) in
  let r := connectToMqtt cfg w s in
  result r = Some (if b then 0 else 1) /\
  final r = (if b then tick_connect s else tick_state (tick_connect s)) /\
  session_attempts (emitted r) = [b] /\
  delays (emitted r) = [] /\
  status_reads (emitted r) = [] /\
  publishes (emitted r) = [].
Proof.
  cbv zeta. unfold connectToMqtt. cbn.
  destruct (mqtt_connect_at w (n_connect s)); cbn; repeat split.
Qed.

(** The body of the session retry loop: the wait, then one attempt. *)
Definition session_retry (cfg : Config) (w : World) : M unit :=
  bind (delay 5000) (fun _ => assign_exit_status_code (connectToMqtt cfg w)).

Lemma session_attempt_run (cfg : Config) (w : World) (s : State) :
  let b := mqtt_connect_at w (n_connect s) in
  let r := assign_exit_status_code (connectToMqtt cfg w) s in
  result r = Some tt /\
  exit_status_code (final r) = (if b then 0 else 1) /\
  n_connect (final r) = S (n_connect s) /\
  emitted r = emitted (connectToMqtt cfg w s).
Proof.
  cbv zeta.
  destruct (connectToMqtt_run cfg w s) as (Hres & Hfin & _).
  rewrite (assign_exit_status_code_run _ _ _ Hres). cbn [result final emitted].
  rewrite Hfin.
  destruct (mqtt_connect_at w (n_connect s)); repeat split.
Qed.

Lemma session_retry_run (cfg : Config) (w : World) (s : State) :
  let b := mqtt_connect_at w (n_connect s) in
  let r := session_retry cfg w s in
  result r = Some tt /\
  exit_status_code (final r) = (if b then 0 else 1) /\
  n_connect (final r) = S (n_connect s) /\
  emitted r = EDelay 5000 :: emitted (connectToMqtt cfg w s).
Proof.
  cbv zeta. unfold session_retry.
  destruct (session_attempt_run cfg w s) as (Hres & Hexit & Hcon & Hem).
  rewrite (bind_run_some (delay 5000) _ s tt eq_refl).
  change (final (delay 5000 s)) with s.
  change (emitted (delay 5000 s)) with [EDelay 5000].
  cbn [result final emitted app]. rewrite Hem. repeat split; assumption.
Qed.

(** The retry loop entered after a refused attempt: if the broker refuses
    the next [n] attempts and accepts the one after, the loop makes exactly
    these [n + 1] attempts, each after a 5000 ms wait, and ends. *)
Lemma session_retry_until_accepted (cfg : Config) (w : World) :
  forall n fuel s,
    exit_status_code s <> 0 ->
    (forall k, (k < n)%nat -> mqtt_connect_at w (n_connect s + k) = false) ->
    mqtt_connect_at w (n_connect s + n) = true ->
    (n < fuel)%nat ->
    let r := while_exit_status_code fuel (session_retry cfg w) s in
    result r = Some tt /\
    exit_status_code (final r) = 0 /\
    session_attempts (emitted r) = repeat false n ++ [true] /\
    delays (emitted r) = repeat 5000 (S n).
Proof.
  induction n as [ | n IH ]; intros fuel s Hcode Hno Hyes Hfuel r; subst r;
    (destruct fuel as [ | fuel ]; [ lia | ]);
    rewrite while_exit_status_code_step;
    (destruct (Z.eqb_spec (exit_status_code s) 0) as [ | _ ]; [ contradiction | ]);
    destruct (session_retry_run cfg w s) as (Hres & Hexit & Hcon & Hem);
    destruct (connectToMqtt_run cfg w s) as (_ & _ & Hatt & Hdel & _);
    cbv zeta; rewrite (bind_run_some _ _ _ tt Hres); cbn [result final emitted];
    rewrite session_attempts_app, delays_app, Hem;
    change (session_attempts (EDelay 5000 :: ?l)) with (session_attempts l);
    change (delays (EDelay 5000 :: ?l)) with (5000 :: delays l);
    rewrite Hatt, Hdel.
  - rewrite Nat.add_0_r in Hyes. rewrite Hyes in *.
    rewrite while_exit_status_code_step, Hexit. cbn.
    repeat split. exact Hexit.
  - pose proof (Hno 0%nat ltac:(lia)) as H0. rewrite Nat.add_0_r in H0.
    rewrite H0 in *.
    destruct (IH fuel (final (session_retry cfg w s))) as (R1 & R2 & R3 & R4).
    + rewrite Hexit. discriminate.
    + intros k Hk. rewrite Hcon.
      replace (S (n_connect s) + k)%nat with (n_connect s + S k)%nat by lia.
      apply Hno. lia.
    + rewrite Hcon.
      replace (S (n_connect s) + n)%nat with (n_connect s + S n)%nat by lia.
      exact Hyes.
    + lia.
    + rewrite R1, R2, R3, R4. repeat split.
Qed.
Lemma session_retry_while_refused (cfg : Config) (w : World) :
  forall fuel s,
    exit_status_code s <> 0 ->
    (forall k, (k < fuel)%nat -> mqtt_connect_at w (n_connect s + k) = false) ->
    let r := while_exit_status_code fuel (session_retry cfg w) s in
    result r = None /\
    session_attempts (emitted r) = repeat false fuel /\
    delays (emitted r) = repeat 5000 fuel.
Proof.
  induction fuel as [ | fuel IH ]; intros s Hcode Hno r; subst r;
    rewrite while_exit_status_code_step;
    (destruct (Z.eqb_spec (exit_status_code s) 0) as [ | _ ]; [ contradiction | ]).
  - repeat split.
  - destruct (session_retry_run cfg w s) as (Hres & Hexit & Hcon & Hem).
    destruct (connectToMqtt_run cfg w s) as (_ & _ & Hatt & Hdel & _).
    cbv zeta. rewrite (bind_run_some _ _ _ tt Hres). cbn [result final emitted].
    rewrite session_attempts_app, delays_app, Hem.
    change (session_attempts (EDelay 5000 :: ?l)) with (session_attempts l).
    change (delays (EDelay 5000 :: ?l)) with (5000 :: delays l).
    rewrite Hatt, Hdel.
    pose proof (Hno 0%nat ltac:(lia)) as H0. rewrite Nat.add_0_r in H0.
    rewrite H0 in *.
    destruct (IH (final (session_retry cfg w s))) as (R1 & R2 & R3).
    + rewrite Hexit. discriminate.
    + intros k Hk. rewrite Hcon.
      replace (S (n_connect s) + k)%nat with (n_connect s + S k)%nat by lia.
      apply Hno. lia.
    + rewrite R1, R2, R3. repeat split.
Qed.

(** The session connection sequence of [setup] and of the recovery branch
    of [loop]: a first attempt, then the retry loop. *)
Lemma reconnect_session_until_accepted (cfg : Config) (w : World) :
  forall n fuel s,
    (forall k, (k < n)%nat -> mqtt_connect_at w (n_connect s + k) = false) ->
    mqtt_connect_at w (n_connect s + n) = true ->
    (n <= fuel)%nat ->
    let r := reconnect_session cfg w fuel s in
    result r = Some tt /\
    exit_status_code (final r) = 0 /\
    session_attempts (emitted r) = repeat false n ++ [true] /\
    delays (emitted r) = repeat 5000 n.
Proof.
  intros n fuel s Hno Hyes Hfuel r. subst r. unfold reconnect_session.
  destruct (session_attempt_run cfg w s) as (Hres & Hexit & Hcon & Hem).
  destruct (connectToMqtt_run cfg w s) as (_ & _ & Hatt & Hdel & _).
  rewrite (bind_run_some _ _ _ tt Hres). cbn [result final emitted].
  rewrite session_attempts_app, delays_app, Hem, Hatt, Hdel.
  change (bind (delay 5000)
            (fun _ => assign_exit_status_code (connectToMqtt cfg w)))
    with (session_retry cfg w).
  destruct n as [ | n ].
  - rewrite Nat.add_0_r in Hyes. rewrite Hyes in *.
    rewrite while_exit_status_code_step, Hexit. cbn. repeat split. exact Hexit.
  - pose proof (Hno 0%nat ltac:(lia)) as H0. rewrite Nat.add_0_r in H0.
    rewrite H0 in *.
    destruct (session_retry_until_accepted cfg w n fuel
                (final (assign_exit_status_code (connectToMqtt cfg w) s)))
      as (R1 & R2 & R3 & R4).
    + rewrite Hexit. discriminate.
    + intros k Hk. rewrite Hcon.
      replace (S (n_connect s) + k)%nat with (n_connect s + S k)%nat by lia.
      apply Hno. lia.
    + rewrite Hcon.
      replace (S (n_connect s) + n)%nat with (n_connect s + S n)%nat by lia.
      exact Hyes.
    + lia.
    + rewrite R1, R2, R3, R4. repeat split.
Qed.

Lemma reconnect_session_while_refused (cfg : Config) (w : World) :
  forall fuel s,
    (forall k, (k <= fuel)%nat -> mqtt_connect_at w (n_connect s + k) = false) ->
    let r := reconnect_session cfg w fuel s in
    result r = None /\
    session_attempts (emitted r) = repeat false (S fuel) /\
    delays (emitted r) = repeat 5000 fuel.
Proof.
  intros fuel s Hno r. subst r. unfold reconnect_session.
  destruct (session_attempt_run cfg w s) as (Hres & Hexit & Hcon & Hem).
  destruct (connectToMqtt_run cfg w s) as (_ & _ & Hatt & Hdel & _).
  rewrite (bind_run_some _ _ _ tt Hres). cbn [result final emitted].
  rewrite session_attempts_app, delays_app, Hem, Hatt, Hdel.
  change (bind (delay 5000)
            (fun _ => assign_exit_status_code (connectToMqtt cfg w)))
    with (session_retry cfg w).
  pose proof (Hno 0%nat ltac:(lia)) as H0. rewrite Nat.add_0_r in H0.
  rewrite H0 in *.
  destruct (session_retry_while_refused cfg w fuel
              (final (assign_exit_status_code (connectToMqtt cfg w) s)))
    as (R1 & R2 & R3).
  - rewrite Hexit. discriminate.
  - intros k Hk. rewrite Hcon.
    replace (S (n_connect s) + k)%nat with (n_connect s + S k)%nat by lia.
    apply Hno. lia.
  - rewrite R1, R2, R3. repeat split.
Qed.
(** ** Spacing of session connect attempts *)

(** Consecutive session connect attempts of a trace are at least [gap]
    milliseconds of waiting apart. *)
Definition attempts_spaced (gap : Z) (tr : list Event) : Prop :=
  forall pre a mid b post,
    tr = pre ++ a :: mid ++ b :: post ->
    is_session_connect a = true ->
    is_session_connect b = true ->
    Forall (fun e => is_session_connect e = false) mid ->
    gap <= elapsed mid.

(** The time waited since the last attempt ([None] before the first). *)
Definition waited_step (since : option Z) (e : Event) : option Z :=
  match e with
  | EMqttConnect _ _ _ _ => Some 0
  | EDelay ms => option_map (Z.add ms) since
  | _ => since
  end.

Definition waited (since : option Z) (tr : list Event) : option Z :=
  fold_left waited_step tr since.

(** Executable form of [attempts_spaced], scanning the trace once. *)
Fixpoint spaced (gap : Z) (since : option Z) (tr : list Event) : bool :=
  match tr with
  | [] => true
  | e :: rest =>
      (if is_session_connect e
       then match since with Some t => gap <=? t | None => true end
       else true)
      && spaced gap (waited_step since e) rest
  end.

Lemma spaced_app (gap : Z) (a b : list Event) : forall since,
  spaced gap since (a ++ b) =
  spaced gap since a && spaced gap (waited since a) b.
Proof.
  induction a as [ | e a IH ]; intros since; cbn [app spaced waited fold_left].
  - reflexivity.
  - rewrite IH. unfold waited. now rewrite andb_assoc.
Qed.

Lemma waited_app (a b : list Event) (since : option Z) :
  waited since (a ++ b) = waited (waited since a) b.
Proof. apply fold_left_app. Qed.

Lemma spaced_quiet (gap : Z) (tr : list Event) :
  Forall (fun e => is_session_connect e = false) tr ->
  forall since, spaced gap since tr = true.
Proof.
  induction 1 as [ | e tr He _ IH ]; intros since; cbn [spaced].
  - reflexivity.
  - now rewrite He, IH.
Qed.

Lemma waited_quiet_none (tr : list Event) :
  Forall (fun e => is_session_connect e = false) tr ->
  waited None tr = None.
Proof.
  induction 1 as [ | e tr He _ IH ]; [ reflexivity | ].
  unfold waited in *. cbn [fold_left].
  destruct e; try discriminate; exact IH.
Qed.

Lemma elapsed_cons (e : Event) (tr : list Event) :
  elapsed (e :: tr) =
  match e with EDelay ms => ms + elapsed tr | _ => elapsed tr end.
Proof. destruct e; reflexivity. Qed.

Lemma spaced_gap (gap : Z) (b : Event) (post : list Event) :
  is_session_connect b = true ->
  forall mid t,
    Forall (fun e => is_session_connect e = false) mid ->
    spaced gap (Some t) (mid ++ b :: post) = true ->
    gap <= t + elapsed mid.
Proof.
  intros Hb. induction mid as [ | e mid IH ]; intros t Hmid H.
  - cbn [app spaced] in H. rewrite Hb in H.
    apply andb_prop in H. destruct H as [H _].
    apply Z.leb_le in H. unfold elapsed. cbn. lia.
  - inversion Hmid as [ | ? ? He Hmid' ]; subst.
    cbn [app spaced] in H. rewrite He in H. cbn [andb] in H.
    rewrite elapsed_cons.
    destruct e; cbn [waited_step option_map] in H; try discriminate;
      try (now apply IH).
    specialize (IH (ms + t) Hmid' H). lia.
Qed.

Lemma spaced_sound (gap : Z) (tr : list Event) (since : option Z) :
  spaced gap since tr = true -> attempts_spaced gap tr.
Proof.
  intros H pre a mid b post Htr Ha Hb Hmid. subst tr.
  revert since H. induction pre as [ | e pre IH ]; intros since H.
  - cbn [app spaced] in H. apply andb_prop in H. destruct H as [_ H].
    destruct a; try discriminate. cbn [waited_step] in H.
    apply (spaced_gap gap b post Hb mid 0 Hmid) in H. lia.
  - cbn [app spaced] in H. apply andb_prop in H. destruct H as [_ H].
    exact (IH _ H).
Qed.

(** A routine that makes no session connect attempt. *)
Definition quiet {A} (m : M A) : Prop :=
  always_emits (fun e => is_session_connect e = false) m.

(** A routine whose attempts are spaced, from any state. *)
Definition spaces_attempts {A} (m : M A) : Prop :=
  forall s, spaced 5000 None (emitted (m s)) = true.

Lemma quiet_spaces {A} (m : M A) : quiet m -> spaces_attempts m.
Proof. intros H s. apply spaced_quiet. apply H. Qed.

Lemma spaces_after_quiet {A B} (m : M A) (f : A -> M B) :
  quiet m -> (forall a, spaces_attempts (f a)) -> spaces_attempts (bind m f).
Proof.
  intros Hm Hf s. rewrite bind_emitted, spaced_app.
  rewrite (spaced_quiet _ _ (Hm s)), (waited_quiet_none _ (Hm s)). cbn [andb].
  destruct (result (m s)); [ apply Hf | reflexivity ].
Qed.

Lemma spaces_before_quiet {A B} (m : M A) (f : A -> M B) :
  spaces_attempts m -> (forall a, quiet (f a)) -> spaces_attempts (bind m f).
Proof.
  intros Hm Hf s. rewrite bind_emitted, spaced_app, Hm. cbn [andb].
  destruct (result (m s)); [ apply spaced_quiet, Hf | reflexivity ].
Qed.

Lemma spaced_attempt (cfg : Config) (w : World) (s : State) (since : option Z) :
  spaced 5000 since (emitted (connectToMqtt cfg w s)) =
    match since with Some t => 5000 <=? t | None => true end /\
  waited since (emitted (connectToMqtt cfg w s)) = Some 0.
Proof.
  unfold connectToMqtt. cbn.
  destruct (mqtt_connect_at w (n_connect s)); cbn;
    destruct since; cbn; rewrite ?andb_true_r; split; reflexivity.
Qed.

Lemma spaced_session_retries (cfg : Config) (w : World) : forall fuel s,
  spaced 5000 (Some 0)
         (emitted (while_exit_status_code fuel (session_retry cfg w) s)) = true.
Proof.
  induction fuel as [ | fuel IH ]; intros s;
    rewrite while_exit_status_code_step;
    destruct (exit_status_code s =? 0); try reflexivity.
  destruct (session_retry_run cfg w s) as (Hres & _ & _ & Hem).
  cbv zeta. rewrite (bind_run_some _ _ _ tt Hres). cbn [emitted].
  rewrite spaced_app, Hem.
  cbn [spaced is_session_connect waited_step option_map andb].
  unfold waited. cbn [fold_left waited_step option_map].
  destruct (spaced_attempt cfg w s (Some (5000 + 0))) as [H1 H2].
  rewrite H1. unfold waited in H2. rewrite H2. cbn [andb Z.leb Z.add Z.compare].
  apply IH.
Qed.

Lemma spaces_reconnect_session (cfg : Config) (w : World) (fuel : nat) :
  spaces_attempts (reconnect_session cfg w fuel).
Proof.
  intros s. unfold reconnect_session.
  destruct (session_attempt_run cfg w s) as (Hres & _ & _ & Hem).
  rewrite (bind_run_some _ _ _ tt Hres). cbn [emitted].
  rewrite spaced_app, Hem.
  destruct (spaced_attempt cfg w s None) as [H1 H2]. rewrite H1, H2.
  apply spaced_session_retries.
Qed.
Arguments reconnect_session : simpl never.
Arguments reconnect_link : simpl never.

Ltac quiet_routine :=
  unfold quiet;
  emits_with ltac:(first [ reflexivity
                         | apply emits_reconnect_link; intros; reflexivity
                         | apply emits_healthCheck; intros; reflexivity
                         | apply emits_sendJsonToMqttBroker; intros; reflexivity ]).

Lemma spaces_setup (cfg : Config) (w : World) (fuel : nat) :
  spaces_attempts (setup cfg w fuel).
Proof.
  unfold setup.
  do 3 (apply spaces_after_quiet; [ quiet_routine | intros _ ]).
  apply spaces_before_quiet; [ apply spaces_reconnect_session | intros _ ].
  quiet_routine.
Qed.

Lemma spaces_loop (cfg : Config) (w : World) (fuel : nat) :
  spaces_attempts (loop cfg w fuel).
Proof.
  unfold loop, getDistanceCm.
  do 4 (apply spaces_after_quiet; [ quiet_routine | intros ? ]).
  apply spaces_before_quiet; [ | intros _; quiet_routine ].
  match goal with |- context [ ?c =? 1 ] => destruct (c =? 1) end.
  - do 4 (apply spaces_after_quiet; [ quiet_routine | intros _ ]).
    apply spaces_reconnect_session.
  - apply quiet_spaces. quiet_routine.
Qed.

(** C6. In the session-connect retry loop of [setup] and in the one of the
    recovery branch of [loop], consecutive attempts are at least 5000 ms of
    waiting apart; the retries have no attempt bound: whatever the number
    [n] of refusals before the broker accepts, the sequence makes exactly
    [n + 1] attempts with a 5000 ms wait before each retry and then ends,
    and while the broker keeps refusing the sequence keeps retrying. *)
Theorem session_retry_policy : forall cfg w fuel s,
  attempts_spaced 5000 (emitted (setup cfg w fuel s)) /\
  attempts_spaced 5000 (emitted (loop cfg w fuel s)) /\
  (forall n,
     (forall k, (k < n)%nat -> mqtt_connect_at w (n_connect s + k) = false) ->
     mqtt_connect_at w (n_connect s + n) = true ->
     (n <= fuel)%nat ->
     let r := reconnect_session cfg w fuel s in
     result r = Some tt /\
     session_attempts (emitted r) = repeat false n ++ [true] /\
     delays (emitted r) = repeat 5000 n) /\
  ((forall k, (k <= fuel)%nat -> mqtt_connect_at w (n_connect s + k) = false) ->
   let r := reconnect_session cfg w fuel s in
   result r = None /\
   session_attempts (emitted r) = repeat false (S fuel) /\
   delays (emitted r) = repeat 5000 fuel).
Proof.
  intros cfg w fuel s.
  split; [ apply (spaced_sound 5000 _ None), spaces_setup | ].
  split; [ apply (spaced_sound 5000 _ None), spaces_loop | ].
  split.
  - intros n Hno Hyes Hfuel.
    destruct (reconnect_session_until_accepted cfg w n fuel s Hno Hyes Hfuel)
      as (R1 & _ & R3 & R4).
    repeat split; assumption.
  - intros Hno. now apply reconnect_session_while_refused.
Qed.

(** A broker that refuses three connects (status -2) and then accepts. *)
Definition reluctant_broker_world : World :=
  {| wifi_status_at := wifi_status_at calm_world;
     wifi_SSID_at := wifi_SSID_at calm_world;
     wifi_localIP_at := wifi_localIP_at calm_world;
     wifi_macAddress_at := wifi_macAddress_at calm_world;
     wifi_RSSI_at := wifi_RSSI_at calm_world;
     mqtt_connect_at := fun k => Nat.leb 3 k;
     mqtt_state_at := always (-2);
     mqtt_publish_at := mqtt_publish_at calm_world;
     mqtt_connected_at := mqtt_connected_at calm_world;
     hcsr_measure_at := hcsr_measure_at calm_world;
     cast_unrepresentable := cast_unrepresentable calm_world |}.

Example session_retry_three_refusals :
  let r := setup sketch_config reluctant_broker_world 3 initial_state in
  result r = Some tt /\
  session_attempts (emitted r) = [false; false; false; true] /\
  elapsed (emitted r) = 15000.
Proof. vm_compute. repeat split. Qed.

(** ** One turn of [loop] *)

Lemma bind_run_eq {A B} (m : M A) (f : A -> M B) (s s' : State) (a : A)
      (tr : list Event) :
  m s = mkRun (Some a) s' tr ->
  bind m f s =
  mkRun (result (f a s')) (final (f a s')) (tr ++ emitted (f a s')).
Proof. intros H. unfold bind. rewrite H. reflexivity. Qed.

Lemma assign_exit_status_code_eq (f : M Z) (s s' : State) (code : Z)
      (tr : list Event) :
  f s = mkRun (Some code) s' tr ->
  assign_exit_status_code f s =
  mkRun (Some tt) (set_exit_status_code (to_uchar code) s') tr.
Proof.
  intros H. unfold assign_exit_status_code.
  rewrite (bind_run_eq _ _ _ _ _ _ H). cbn. now rewrite app_nil_r.
Qed.

Lemma bind_assoc {A B C} (m : M A) (f : A -> M B) (g : B -> M C) (s : State) :
  bind (bind m f) g s = bind m (fun a => bind (f a) g) s.
Proof.
  unfold bind. destruct (m s) as [ [ a | ] s1 e1 ]; cbn; [ | reflexivity ].
  destruct (f a s1) as [ [ b | ] s2 e2 ]; cbn; [ | reflexivity ].
  now rewrite app_assoc.
Qed.

(** Runs the routine at the head of the goal's outermost [bind] when it is a
    single collaborator call or a state access. *)
Ltac bind_step :=
  rewrite ?bind_assoc;
  erewrite bind_run_eq by reflexivity;
  cbn [result final emitted app].

(** The same for a routine whose run is given by a lemma. *)
Ltac bind_step_by lem :=
  rewrite ?bind_assoc;
  erewrite bind_run_eq by lem;
  cbn [result final emitted app].

Ltac state_fields :=
  cbn [exit_status_code hcsr_value n_status n_identity n_connect n_state
       n_publish n_measure
       set_exit_status_code set_hcsr_value tick_status tick_identity
       tick_connect tick_state tick_publish tick_measure].

Lemma healthCheck_run (w : World) (s : State) :
  healthCheck w s =
  mkRun (Some (if wifi_status_at w (n_status s) then 0 else 1))
        (tick_status s) [EWifiStatus (wifi_status_at w (n_status s))].
Proof.
  unfold healthCheck, bind, WiFi_connected. cbn [result final emitted].
  destruct (wifi_status_at w (n_status s)); reflexivity.
Qed.

Lemma sendJsonToMqttBroker_run (cfg : Config) (w : World) (s : State) :
  let doc := json_data (json_device_name cfg) (hcsr_value s) in
  let sent := mqtt_publish_at w (n_publish s) in
  sendJsonToMqttBroker cfg w s =
  mkRun (Some (if sent then 0 else 1)) (tick_publish s)
        [ESerial "    "; ESerial (serializeJson doc); ESerial NL;
         EMqttPublish (mqtt_topic cfg) (serializeJson_to 128 doc) sent].
Proof.
  cbv zeta. unfold sendJsonToMqttBroker. repeat bind_step. reflexivity.
Qed.

(** The value [loop] stores in [hcsr_value] at the start of a turn. *)
Definition sampled_value (w : World) (s : State) : Z :=
  double_to_int w (round (hcsr_measure_at w (n_measure s))).

(** The message a turn of [loop] hands to [publish]. *)
Definition telemetry_payload (cfg : Config) (w : World) (s : State) : string :=
  serializeJson_to 128 (json_data (json_device_name cfg) (sampled_value w s)).

(** What [loop] writes after a publish, by the broker's answer. *)
Definition publish_report (cfg : Config) (sent : bool) : list Event :=
  [ESerial (if sent then "[+] JSON data sent to "
            else "[-] JSON data could not be sent to ");
   ESerial (mqtt_server cfg); ESerial ":"; ESerial (dec (mqtt_port cfg));
   ESerial (" " +++ QUOTE); ESerial (mqtt_topic cfg);
   ESerial (QUOTE +++ (if sent then "." else "!") +++ NL)].

(** A turn whose health check finds the link connected: sample, publish
    once, report, wait. *)
Lemma loop_healthy (cfg : Config) (w : World) (fuel : nat) (s : State) :
  wifi_status_at w (n_status s) = true ->
  let r := loop cfg w fuel s in
  let sent := mqtt_publish_at w (n_publish s) in
  result r = Some tt /\
  emitted r =
    [EHcsrMeasure (hcsr_measure_at w (n_measure s)); EWifiStatus true;
     ESerial "    ";
     ESerial (serializeJson (json_data (json_device_name cfg)
                                       (sampled_value w s)));
     ESerial NL;
     EMqttPublish (mqtt_topic cfg) (telemetry_payload cfg w s) sent]
    ++ publish_report cfg sent ++ [EDelay (json_resend_timeout cfg)] /\
  n_publish (final r) = S (n_publish s) /\
  n_connect (final r) = n_connect s /\
  n_status (final r) = S (n_status s) /\
  n_measure (final r) = S (n_measure s) /\
  hcsr_value (final r) = sampled_value w s.
Proof.
  intros E r sent. subst r sent.
  unfold telemetry_payload, sampled_value, publish_report.
  unfold loop, getDistanceCm.
  do 2 bind_step.
  bind_step_by ltac:(apply assign_exit_status_code_eq, healthCheck_run).
  state_fields. rewrite E.
  bind_step. state_fields.
  change (to_uchar 0 =? 1) with false. cbv iota.
  bind_step_by ltac:(apply assign_exit_status_code_eq, sendJsonToMqttBroker_run).
  state_fields.
  bind_step. state_fields.
  destruct (mqtt_publish_at w (n_publish s)).
  - change (negb (to_uchar 0 =? 0)) with false. cbv iota.
    repeat bind_step. cbn [delay emit result final emitted]. state_fields.
    repeat split.
  - change (negb (to_uchar 1 =? 0)) with true. cbv iota.
    repeat bind_step. cbn [delay emit result final emitted]. state_fields.
    repeat split.
Qed.

Lemma bind_unfold {A B} (m : M A) (f : A -> M B) (s : State) :
  bind m f s =
  match result (m s) with
  | Some a =>
      mkRun (result (f a (final (m s)))) (final (f a (final (m s))))
            (emitted (m s) ++ emitted (f a (final (m s))))
  | None => mkRun None (final (m s)) (emitted (m s))
  end.
Proof. reflexivity. Qed.

(** The shape of a turn of [loop], whatever its two branches do. *)
Section Turn.

Variable cfg : Config.
Variable w : World.
Variables recovery publication : M unit.

Definition turn : M unit :=
  bind (getDistanceCm w) (fun distance =>
  bind (modify (set_hcsr_value (double_to_int w (round distance)))) (fun _ =>
  bind (assign_exit_status_code (healthCheck w)) (fun _ =>
  bind (get exit_status_code) (fun code =>
  bind (if code =? 1 then recovery else publication) (fun _ =>
  delay (json_resend_timeout cfg)))))).

Lemma turn_run (s : State) :
  let b := wifi_status_at w (n_status s) in
  let s2 := set_exit_status_code (if b then 0 else 1)
              (tick_status (set_hcsr_value (sampled_value w s)
                                           (tick_measure s))) in
  let r := (if b then publication else recovery) s2 in
  turn s =
  mkRun (match result r with Some _ => Some tt | None => None end)
        (final r)
        (EHcsrMeasure (hcsr_measure_at w (n_measure s)) :: EWifiStatus b ::
         emitted r ++ match result r with
                      | Some _ => [EDelay (json_resend_timeout cfg)]
                      | None => []
                      end).
Proof.
  cbv zeta. unfold turn, sampled_value, getDistanceCm.
  do 2 bind_step.
  bind_step_by ltac:(apply assign_exit_status_code_eq, healthCheck_run).
  state_fields.
  bind_step. state_fields.
  destruct (wifi_status_at w (n_status s)).
  - change (to_uchar 0) with 0. change (0 =? 1) with false. cbv iota.
    rewrite bind_unfold.
    generalize (publication
                  (set_exit_status_code 0
                     (tick_status
                        (set_hcsr_value
                           (double_to_int w
                              (round (hcsr_measure_at w (n_measure s))))
                           (tick_measure s))))).
    intros [ [ [] | ] s1 e1 ]; cbn [result final emitted app delay emit];
      rewrite ?app_nil_r; reflexivity.
  - change (to_uchar 1) with 1. change (1 =? 1) with true. cbv iota.
    rewrite bind_unfold.
    generalize (recovery
                  (set_exit_status_code 1
                     (tick_status
                        (set_hcsr_value
                           (double_to_int w
                              (round (hcsr_measure_at w (n_measure s))))
                           (tick_measure s))))).
    intros [ [ [] | ] s1 e1 ]; cbn [result final emitted app delay emit];
      rewrite ?app_nil_r; reflexivity.
Qed.

End Turn.

Definition lost_link_notice (cfg : Config) : list Event :=
  [ESerial ("[-] Device has lost connection to WiFi " +++ QUOTE);
   ESerial (wifi_essid cfg); ESerial (QUOTE +++ "!" +++ NL)].

(** The shape of the recovery branch, whatever the two sequences do. *)
Section Recovery.

Variable cfg : Config.
Variables link_sequence session_sequence : M unit.

Definition recovery_of : M unit :=
  bind (Serial_print ("[-] Device has lost connection to WiFi " +++ QUOTE))
    (fun _ =>
  bind (Serial_print (wifi_essid cfg)) (fun _ =>
  bind (Serial_print (QUOTE +++ "!" +++ NL)) (fun _ =>
  bind link_sequence (fun _ => session_sequence)))).

Lemma recovery_of_run (s : State) :
  let r1 := link_sequence s in
  let r2 := session_sequence (final r1) in
  recovery_of s =
  mkRun (match result r1 with Some _ => result r2 | None => None end)
        (match result r1 with Some _ => final r2 | None => final r1 end)
        (lost_link_notice cfg ++ emitted r1 ++
         match result r1 with Some _ => emitted r2 | None => [] end).
Proof.
  cbv zeta. unfold recovery_of, lost_link_notice.
  do 3 bind_step. rewrite bind_unfold.
  generalize (link_sequence s).
  intros [ [ [] | ] s1 e1 ]; cbn [result final emitted app];
    rewrite ?app_nil_r; reflexivity.
Qed.

End Recovery.

(** The publication branch of [loop]. *)
Definition publication_of (cfg : Config) (w : World) : M unit :=
  bind (assign_exit_status_code (sendJsonToMqttBroker cfg w)) (fun _ =>
  bind (get exit_status_code) (fun code =>
  if negb (code =? 0) then
    bind (Serial_print "[-] JSON data could not be sent to ") (fun _ =>
    bind (Serial_print (mqtt_server cfg)) (fun _ =>
    bind (Serial_print ":") (fun _ =>
    bind (Serial_print (dec (mqtt_port cfg))) (fun _ =>
    bind (Serial_print (" " +++ QUOTE)) (fun _ =>
    bind (Serial_print (mqtt_topic cfg)) (fun _ =>
    Serial_print (QUOTE +++ "!" +++ NL)))))))
  else
    bind (Serial_print "[+] JSON data sent to ") (fun _ =>
    bind (Serial_print (mqtt_server cfg)) (fun _ =>
    bind (Serial_print ":") (fun _ =>
    bind (Serial_print (dec (mqtt_port cfg))) (fun _ =>
    bind (Serial_print (" " +++ QUOTE)) (fun _ =>
    bind (Serial_print (mqtt_topic cfg)) (fun _ =>
    Serial_print (QUOTE +++ "." +++ NL))))))))).

Lemma loop_shape (cfg : Config) (w : World) (fuel : nat) :
  loop cfg w fuel =
  turn cfg w
       (recovery_of cfg (reconnect_link cfg w fuel)
                    (reconnect_session cfg w fuel))
       (publication_of cfg w).
Proof. reflexivity. Qed.

Lemma publication_of_run (cfg : Config) (w : World) (s : State) :
  let sent := mqtt_publish_at w (n_publish s) in
  let doc := json_data (json_device_name cfg) (hcsr_value s) in
  publication_of cfg w s =
  mkRun (Some tt)
        (set_exit_status_code (if sent then 0 else 1) (tick_publish s))
        ([ESerial "    "; ESerial (serializeJson doc); ESerial NL;
          EMqttPublish (mqtt_topic cfg) (serializeJson_to 128 doc) sent]
         ++ publish_report cfg sent).
Proof.
  cbv zeta. unfold publication_of, publish_report.
  bind_step_by ltac:(apply assign_exit_status_code_eq, sendJsonToMqttBroker_run).
  bind_step. state_fields.
  destruct (mqtt_publish_at w (n_publish s)).
  - change (negb (to_uchar 0 =? 0)) with false. cbv iota.
    repeat bind_step. reflexivity.
  - change (negb (to_uchar 1 =? 0)) with true. cbv iota.
    repeat bind_step. reflexivity.
Qed.

(** The state in which the recovery branch of [loop] starts. *)
Definition recovery_state (w : World) (s : State) : State :=
  set_exit_status_code 1
    (tick_status (set_hcsr_value (sampled_value w s) (tick_measure s))).

(** A turn whose health check finds the link lost: the notice, the link
    connection sequence, then the session connection sequence, then the
    wait; nothing else. *)
Lemma loop_link_lost (cfg : Config) (w : World) (fuel : nat) (s : State) :
  wifi_status_at w (n_status s) = false ->
  let r := loop cfg w fuel s in
  let r1 := reconnect_link cfg w fuel (recovery_state w s) in
  let r2 := reconnect_session cfg w fuel (final r1) in
  result r = match result r1 with Some _ => result r2 | None => None end /\
  emitted r =
    EHcsrMeasure (hcsr_measure_at w (n_measure s)) :: EWifiStatus false ::
    lost_link_notice cfg ++ emitted r1 ++
    match result r1 with
    | Some _ =>
        emitted r2 ++ match result r2 with
                      | Some _ => [EDelay (json_resend_timeout cfg)]
                      | None => []
                      end
    | None => []
    end /\
  final r = match result r1 with Some _ => final r2 | None => final r1 end.
Proof.
  intros E r r1 r2. subst r r1 r2.
  rewrite loop_shape, turn_run. cbv zeta. rewrite E.
  fold (recovery_state w s). rewrite recovery_of_run. cbv zeta.
  generalize (reconnect_link cfg w fuel (recovery_state w s)).
  intros [ [ [] | ] s1 e1 ]; cbn [result final emitted].
  - generalize (reconnect_session cfg w fuel s1).
    intros [ [ [] | ] s2 e2 ]; cbn [result final emitted];
      (split; [ reflexivity | split; [ | reflexivity ] ]);
      rewrite <- ?app_assoc; reflexivity.
  - split; [ reflexivity | split; [ | reflexivity ] ].
    rewrite <- ?app_assoc. reflexivity.
Qed.
(** ** Connection sequences end on a success *)

Section RetryUntilSuccess.

(** [answers] reads off a trace the answers to the attempts of one kind
    (link status reads, session connects); [body] is one retry, whose last
    answer [b] decides [exit_status_code]. *)
Variable answers : list Event -> list bool.
Hypothesis answers_app : forall a b, answers (a ++ b) = answers a ++ answers b.

Definition one_attempt (body : M unit) : Prop :=
  forall s, exists (b : bool) (l : list bool),
    result (body s) = Some tt /\
    exit_status_code (final (body s)) = (if b then 0 else 1) /\
    answers (emitted (body s)) = l ++ [b].

Lemma while_ends_on_success (body : M unit) :
  one_attempt body ->
  forall fuel s,
    let r := while_exit_status_code fuel body s in
    result r = Some tt ->
    exit_status_code (final r) = 0 /\
    ((emitted r = [] /\ final r = s) \/
     exists l, answers (emitted r) = l ++ [true]).
Proof.
  intros Hbody. induction fuel as [ | fuel IH ]; intros s r; subst r;
    rewrite while_exit_status_code_step;
    destruct (Z.eqb_spec (exit_status_code s) 0) as [ Hz | Hnz ];
    cbn [result final emitted]; intros Hres;
    try (split; [ exact Hz | left; split; reflexivity ]);
    try discriminate.
  destruct (Hbody s) as (b & l & Hb & Hexit & Hans).
  cbv zeta in *. rewrite (bind_run_some _ _ _ tt Hb) in *.
  cbn [result final emitted] in *.
  destruct (IH _ Hres) as (Hzero & [ (Hnil & Hsame) | (l' & Hl') ]).
  - split; [ exact Hzero | right ].
    rewrite Hsame in Hzero. rewrite Hexit in Hzero.
    destruct b; [ | discriminate ].
    exists l. now rewrite Hnil, app_nil_r.
  - split; [ exact Hzero | right ].
    exists (answers (emitted (body s)) ++ l').
    now rewrite answers_app, Hl', app_assoc.
Qed.

Lemma sequence_ends_on_success (first body : M unit) (fuel : nat) (s : State) :
  one_attempt first -> one_attempt body ->
  let r := bind first (fun _ => while_exit_status_code fuel body) s in
  result r = Some tt ->
  exit_status_code (final r) = 0 /\
  exists l, answers (emitted r) = l ++ [true].
Proof.
  intros Hfirst Hbody r. subst r.
  destruct (Hfirst s) as (b & l & Hb & Hexit & Hans).
  rewrite (bind_run_some _ _ _ tt Hb). cbn [result final emitted]. intros Hres.
  destruct (while_ends_on_success body Hbody fuel _ Hres)
    as (Hzero & [ (Hnil & Hsame) | (l' & Hl') ]).
  - split; [ exact Hzero | ].
    rewrite Hsame in Hzero. rewrite Hexit in Hzero.
    destruct b; [ | discriminate ].
    exists l. now rewrite Hnil, app_nil_r.
  - split; [ exact Hzero | ].
    exists (answers (emitted (first s)) ++ l').
    now rewrite answers_app, Hl', app_assoc.
Qed.

End RetryUntilSuccess.

Lemma link_attempt_is_one_attempt (cfg : Config) (w : World) :
  one_attempt status_reads (assign_exit_status_code (connectToWiFi cfg w)).
Proof.
  intros s.
  destruct (connectToWiFi_run cfg w s) as (k & found & Hrun & _).
  cbv zeta in Hrun.
  set (b := wifi_status_at w (n_status s + (k + if found then 1 else 0))) in *.
  assert (Hhead : status_reads (link_connect_head cfg) = []).
  { unfold link_connect_head.
    destruct (wifi_key cfg =? KEY_NONE); [ | destruct (wifi_key cfg =? KEY_WPA_PSK) ];
      reflexivity. }
  exists b, (repeat false k ++ if found then [true] else []).
  rewrite (assign_exit_status_code_run _ _ (if b then 0 else 1))
    by (rewrite Hrun; reflexivity).
  cbn [result final emitted]. rewrite Hrun. cbn [final emitted].
  split; [ reflexivity | ]. split.
  - destruct b; reflexivity.
  - rewrite !status_reads_app, Hhead, status_reads_wait_trace.
    destruct b; cbn; now rewrite <- app_assoc.
Qed.

Lemma session_attempt_is_one_attempt (cfg : Config) (w : World) :
  one_attempt session_attempts (assign_exit_status_code (connectToMqtt cfg w)).
Proof.
  intros s.
  destruct (session_attempt_run cfg w s) as (Hres & Hexit & _ & Hem).
  destruct (connectToMqtt_run cfg w s) as (_ & _ & Hatt & _).
  exists (mqtt_connect_at w (n_connect s)), [].
  rewrite Hem, Hatt. repeat split; assumption.
Qed.

Lemma session_retry_is_one_attempt (cfg : Config) (w : World) :
  one_attempt session_attempts (session_retry cfg w).
Proof.
  intros s.
  destruct (session_retry_run cfg w s) as (Hres & Hexit & _ & Hem).
  destruct (connectToMqtt_run cfg w s) as (_ & _ & Hatt & _).
  exists (mqtt_connect_at w (n_connect s)), [].
  rewrite Hem.
  change (session_attempts (EDelay 5000 :: ?l)) with (session_attempts l).
  rewrite Hatt. repeat split; assumption.
Qed.

(** The link connection sequence ends only after a call of [connectToWiFi]
    whose deciding status read reported the link connected. *)
Lemma reconnect_link_ends_connected (cfg : Config) (w : World) (fuel : nat)
      (s : State) :
  let r := reconnect_link cfg w fuel s in
  result r = Some tt ->
  exit_status_code (final r) = 0 /\
  exists l, status_reads (emitted r) = l ++ [true].
Proof.
  apply (sequence_ends_on_success status_reads status_reads_app);
    apply link_attempt_is_one_attempt.
Qed.

(** The session connection sequence ends only after an accepted connect. *)
Lemma reconnect_session_ends_accepted (cfg : Config) (w : World) (fuel : nat)
      (s : State) :
  let r := reconnect_session cfg w fuel s in
  result r = Some tt ->
  exit_status_code (final r) = 0 /\
  exists l, session_attempts (emitted r) = l ++ [true].
Proof.
  apply (sequence_ends_on_success session_attempts session_attempts_app).
  - apply session_attempt_is_one_attempt.
  - apply session_retry_is_one_attempt.
Qed.
Lemma publishes_none (tr : list Event) :
  Forall (fun e => is_publish e = false) tr -> publishes tr = [].
Proof.
  induction 1 as [ | e tr He _ IH ]; [ reflexivity | ].
  destruct e; try discriminate; exact IH.
Qed.

Lemma session_call_publish (tr : list Event) :
  Forall (fun e => is_session_call e = false) tr ->
  Forall (fun e => is_publish e = false) tr.
Proof.
  apply Forall_impl. intros e. destruct e; try reflexivity; discriminate.
Qed.

Lemma status_reads_identity_report (w : World) (i : nat) :
  status_reads (identity_report w i) = [].
Proof. reflexivity. Qed.

(** A link that is up again: the connection sequence is a single call of
    [connectToWiFi], with no wait. *)
Lemma reconnect_link_immediate (cfg : Config) (w : World) (fuel : nat)
      (s : State) :
  wifi_status_at w (n_status s) = true ->
  wifi_status_at w (S (n_status s)) = true ->
  let r := reconnect_link cfg w fuel s in
  result r = Some tt /\
  status_reads (emitted r) = [true; true] /\
  delays (emitted r) = [] /\
  n_connect (final r) = n_connect s.
Proof.
  intros H0 H1 r. subst r.
  destruct (connectToWiFi_run cfg w s) as (k & found & Hrun & Hk & Hno & Hyes).
  cbv zeta in Hrun.
  assert (k = 0%nat).
  { destruct k as [ | k ]; [ reflexivity | ].
    specialize (Hno 0%nat ltac:(lia)). rewrite Nat.add_0_r in Hno. congruence. }
  subst k. destruct found; [ | discriminate ].
  replace (n_status s + (0 + 1))%nat with (S (n_status s)) in Hrun by lia.
  rewrite H1 in Hrun.
  assert (Hhead : status_reads (link_connect_head cfg) = []
                  /\ delays (link_connect_head cfg) = []).
  { unfold link_connect_head.
    destruct (wifi_key cfg =? KEY_NONE); [ | destruct (wifi_key cfg =? KEY_WPA_PSK) ];
      split; reflexivity. }
  destruct Hhead as [Hs Hd].
  unfold reconnect_link.
  rewrite (bind_run_some _ _ _ tt)
    by (rewrite (assign_exit_status_code_run _ _ 0) by (rewrite Hrun; reflexivity);
        reflexivity).
  rewrite (assign_exit_status_code_run _ _ 0) by (rewrite Hrun; reflexivity).
  cbn [result final emitted]. rewrite Hrun. cbn [final emitted].
  rewrite while_exit_status_code_step. cbn [exit_status_code set_exit_status_code].
  change (to_uchar 0 =? 0) with true. cbn [result final emitted].
  rewrite app_nil_r, !status_reads_app, !delays_app, Hs, Hd.
  repeat split.
Qed.
(** ** Health check and recovery *)

(** A turn whose health check finds the link lost never publishes; what
    it emits after the notice splits into a link phase and a session phase. *)
Lemma loop_recovery_phases (cfg : Config) (w : World) (fuel : nat) (s : State) :
  wifi_status_at w (n_status s) = false ->
  publishes (emitted (loop cfg w fuel s)) = [] /\
  exists link_phase session_phase,
    emitted (loop cfg w fuel s) =
      EHcsrMeasure (hcsr_measure_at w (n_measure s)) :: EWifiStatus false ::
      lost_link_notice cfg ++ link_phase ++ session_phase /\
    Forall (fun e => is_session_call e = false) link_phase /\
    Forall (fun e => is_link_call e = false) session_phase /\
    (session_phase <> [] ->
     exists l, status_reads link_phase = l ++ [true]) /\
    (result (loop cfg w fuel s) = Some tt ->
     exists l, session_attempts session_phase = l ++ [true]).
Proof.
  intros E.
  destruct (loop_link_lost cfg w fuel s E) as (Hres & Hem & _).
  cbv zeta in Hres, Hem.
  set (r1 := reconnect_link cfg w fuel (recovery_state w s)) in *.
  set (r2 := reconnect_session cfg w fuel (final r1)) in *.
  assert (L1 : Forall (fun e => is_session_call e = false) (emitted r1))
    by (apply emits_reconnect_link; intros; reflexivity).
  assert (L2 : Forall (fun e => is_link_call e = false) (emitted r2))
    by (apply emits_reconnect_session; intros; reflexivity).
  assert (L3 : Forall (fun e => is_publish e = false) (emitted r2))
    by (apply emits_reconnect_session; intros; reflexivity).
  split.
  - rewrite Hem.
    change (publishes (?a :: ?b :: ?l)) with (publishes l).
    rewrite !publishes_app.
    rewrite (publishes_none (emitted r1)) by (now apply session_call_publish).
    destruct (result r1); [ | reflexivity ].
    rewrite publishes_app, (publishes_none _ L3).
    destruct (result r2); reflexivity.
  - eexists (emitted r1), _. split; [ exact Hem | ].
    split; [ exact L1 | ].
    destruct (result r1) as [ [] | ] eqn:R1.
    + split; [ | split ].
      * apply Forall_app. split; [ exact L2 | ].
        destruct (result r2); repeat constructor.
      * intros _. now apply (reconnect_link_ends_connected cfg w fuel _ R1).
      * intros R2. rewrite Hres in R2. rewrite R2, session_attempts_app.
        destruct (reconnect_session_ends_accepted cfg w fuel _ R2)
          as (_ & l & Hl).
        exists l. fold r2 in Hl. rewrite Hl.
        change (session_attempts [EDelay (json_resend_timeout cfg)])
          with (@nil bool).
        now rewrite app_nil_r.
    + split; [ constructor | ]. split.
      * intros Hne. now contradiction Hne.
      * rewrite Hres. discriminate.
Qed.

(** C1. In the steady-state loop, a turn whose health check reports the
    link lost makes no publish attempt and performs the recovery sequence:
    after the notice, a link phase without any broker call and then a
    session phase without any link call; the session phase is entered only
    after a link connect whose deciding status read reported connected, and
    the turn ends only after an accepted session connect (it does end when
    the link is back up and the broker accepts).  A publish happens in a turn
    only when its health check passed, and then exactly once. *)
Theorem health_check_gates_publish : forall cfg w fuel s,
  let r := loop cfg w fuel s in
  let lost := negb (wifi_status_at w (n_status s)) in
  (lost = true ->
     publishes (emitted r) = [] /\
     exists link_phase session_phase,
       emitted r =
         EHcsrMeasure (hcsr_measure_at w (n_measure s)) :: EWifiStatus false ::
         lost_link_notice cfg ++ link_phase ++ session_phase /\
       Forall (fun e => is_session_call e = false) link_phase /\
       Forall (fun e => is_link_call e = false) session_phase /\
       (session_phase <> [] ->
        exists l, status_reads link_phase = l ++ [true]) /\
       (result r = Some tt ->
        exists l, session_attempts session_phase = l ++ [true])) /\
  (lost = true ->
   wifi_status_at w (S (n_status s)) = true ->
   wifi_status_at w (S (S (n_status s))) = true ->
   mqtt_connect_at w (n_connect s) = true ->
     result r = Some tt /\
     status_reads (emitted r) = [false; true; true] /\
     session_attempts (emitted r) = [true]) /\
  (lost = false ->
     result r = Some tt /\
     publishes (emitted r) =
       [(mqtt_topic cfg, telemetry_payload cfg w s,
         mqtt_publish_at w (n_publish s))] /\
     status_reads (emitted r) = [true] /\
     session_attempts (emitted r) = []) /\
  (publishes (emitted r) <> [] -> lost = false).
Proof.
  intros cfg w fuel s r lost. subst r lost.
  pose proof (loop_recovery_phases cfg w fuel s) as Hlost.
  split; [ | split; [ | split ] ].
  - intros E. apply negb_true_iff in E. exact (Hlost E).
  - intros E H1 H2 Hacc. apply negb_true_iff in E.
    destruct (loop_link_lost cfg w fuel s E) as (Hres & Hem & _).
    cbv zeta in Hres, Hem.
    destruct (reconnect_link_immediate cfg w fuel (recovery_state w s) H1 H2)
      as (R1 & S1 & _ & C1).
    cbv zeta in R1, S1, C1.
    set (r1 := reconnect_link cfg w fuel (recovery_state w s)) in *.
    destruct (reconnect_session_until_accepted cfg w 0 fuel (final r1))
      as (R2 & _ & A2 & _);
      [ intros; lia | rewrite Nat.add_0_r, C1; exact Hacc | lia | ].
    cbv zeta in R2, A2.
    set (r2 := reconnect_session cfg w fuel (final r1)) in *.
    assert (L1 : Forall (fun e => is_session_call e = false) (emitted r1))
      by (apply emits_reconnect_link; intros; reflexivity).
    assert (L2 : Forall (fun e => is_link_call e = false) (emitted r2))
      by (apply emits_reconnect_session; intros; reflexivity).
    rewrite Hres, Hem, R1, R2. split; [ reflexivity | ].
    change (status_reads (?a :: EWifiStatus false :: ?l))
      with (false :: status_reads l).
    change (session_attempts (?a :: EWifiStatus false :: ?l))
      with (session_attempts l).
    rewrite !status_reads_app, !session_attempts_app, S1, A2.
    assert (Q1 : session_attempts (emitted r1) = []).
    { clear - L1. induction L1 as [ | e tr He _ IH ]; [ reflexivity | ].
      destruct e; try discriminate; exact IH. }
    assert (Q2 : status_reads (emitted r2) = []).
    { clear - L2. induction L2 as [ | e tr He _ IH ]; [ reflexivity | ].
      destruct e; try discriminate; exact IH. }
    rewrite Q1, Q2. split; reflexivity.
  - intros E. apply negb_false_iff in E.
    destruct (loop_healthy cfg w fuel s E) as (Hres & Hem & _).
    cbv zeta in Hres, Hem. rewrite Hres, Hem.
    repeat split; destruct (mqtt_publish_at w (n_publish s)); reflexivity.
  - intros Hpub.
    destruct (wifi_status_at w (n_status s)) eqn:E; [ reflexivity | ].
    destruct (Hlost eq_refl) as [Hnone _]. contradiction.
Qed.
(** ** What gates a publish *)

(** What the sketch last learnt about its two connections: the answer of
    the latest link status read and of the latest session connect. *)
Record Gate := mkGate { link_seen : bool; session_seen : bool }.

Definition observe (g : Gate) (e : Event) : Gate :=
  match e with
  | EWifiStatus b => mkGate b (session_seen g)
  | EMqttConnect _ _ _ b => mkGate (link_seen g) b
  | _ => g
  end.

Definition observed (g : Gate) (tr : list Event) : Gate :=
  fold_left observe tr g.

(** Every publish of the trace comes when both were last seen good. *)
Fixpoint gated (g : Gate) (tr : list Event) : bool :=
  match tr with
  | [] => true
  | e :: rest =>
      (if is_publish e then link_seen g && session_seen g else true)
      && gated (observe g e) rest
  end.

(** The claim's reading: the session manager reports connected at every
    publish ([mqtt_connected_at w k] at the k-th publish of the run). *)
Definition session_gated (w : World) (tr : list Event) : Prop :=
  forall k, (k < List.length (publishes tr))%nat -> mqtt_connected_at w k = true.

(** A world whose broker session is lost after the first publish while the
    link stays up. *)
Definition session_drop_world : World :=
  {| wifi_status_at := wifi_status_at calm_world;
     wifi_SSID_at := wifi_SSID_at calm_world;
     wifi_localIP_at := wifi_localIP_at calm_world;
     wifi_macAddress_at := wifi_macAddress_at calm_world;
     wifi_RSSI_at := wifi_RSSI_at calm_world;
     mqtt_connect_at := mqtt_connect_at calm_world;
     mqtt_state_at := always (-3);
     mqtt_publish_at := fun k => Nat.eqb k 0;
     mqtt_connected_at := fun k => Nat.eqb k 0;
     hcsr_measure_at := hcsr_measure_at calm_world;
     cast_unrepresentable := cast_unrepresentable calm_world |}.

Lemma gated_app (a b : list Event) : forall g,
  gated g (a ++ b) = gated g a && gated (observed g a) b.
Proof.
  induction a as [ | e a IH ]; intros g; cbn [app gated observed fold_left].
  - reflexivity.
  - rewrite IH. unfold observed. now rewrite andb_assoc.
Qed.

Lemma gated_no_publish (tr : list Event) :
  Forall (fun e => is_publish e = false) tr -> forall g, gated g tr = true.
Proof.
  induction 1 as [ | e tr He _ IH ]; intros g; cbn [gated].
  - reflexivity.
  - now rewrite He, IH.
Qed.

Lemma observed_app (a b : list Event) (g : Gate) :
  observed g (a ++ b) = observed (observed g a) b.
Proof. apply fold_left_app. Qed.

Lemma last_cons_default {A} (x : A) (l : list A) (d d' : A) :
  last (x :: l) d = last (x :: l) d'.
Proof.
  revert x. induction l as [ | y l IH ]; intros x; [ reflexivity | ].
  change (last (x :: y :: l) d) with (last (y :: l) d).
  change (last (x :: y :: l) d') with (last (y :: l) d').
  apply IH.
Qed.

Lemma last_cons_self {A} (x : A) (l : list A) (d : A) :
  last (x :: l) d = last l x.
Proof.
  destruct l as [ | y l ]; [ reflexivity | ].
  change (last (x :: y :: l) d) with (last (y :: l) d).
  apply last_cons_default.
Qed.

Lemma session_seen_observed (tr : list Event) : forall g,
  session_seen (observed g tr) = last (session_attempts tr) (session_seen g).
Proof.
  induction tr as [ | e tr IH ]; intros g; [ reflexivity | ].
  unfold observed in *. cbn [fold_left]. rewrite IH.
  destruct e; try reflexivity.
  cbn [observe session_seen session_attempts flat_map app].
  fold (session_attempts tr). now rewrite last_cons_self.
Qed.

Lemma link_seen_observed (tr : list Event) : forall g,
  link_seen (observed g tr) = last (status_reads tr) (link_seen g).
Proof.
  induction tr as [ | e tr IH ]; intros g; [ reflexivity | ].
  unfold observed in *. cbn [fold_left]. rewrite IH.
  destruct e; try reflexivity.
  cbn [observe link_seen status_reads flat_map app].
  fold (status_reads tr). now rewrite last_cons_self.
Qed.

(** C2, as stated, fails: with the link up and the session lost after the
    first publish, the second turn still attempts a publish. *)
Lemma session_gate_fails :
  ~ session_gated session_drop_world
      (emitted (sketch sketch_config session_drop_world 0 2 initial_state)).
Proof.
  intros H. specialize (H 1%nat).
  assert (L : (1 < List.length
                 (publishes
                    (emitted (sketch sketch_config session_drop_world 0 2
                                     initial_state))))%nat)
    by (vm_compute; lia).
  specialize (H L). discriminate.
Qed.
(** The shape of [setup], whatever the two sequences do. *)
Section Setup.

Variables link_sequence session_sequence : M unit.

Definition setup_of : M unit :=
  bind (Serial_begin 9600) (fun _ =>
  bind (Serial_print
          (NL +++ NL +++ "-------------------- START --------------------"
              +++ NL)) (fun _ =>
  bind link_sequence (fun _ =>
  bind session_sequence (fun _ =>
  bind (HCSR04_begin PIN_HCSR04_TRIG PIN_HCSR04_ECHO) (fun _ =>
  Serial_print ("[+] Distance sensor HC-SR04 initialized." +++ NL)))))).

Lemma setup_of_run (s : State) :
  let r1 := link_sequence s in
  let r2 := session_sequence (final r1) in
  exists head tail,
    Forall (fun e => is_session_call e = false) head /\
    Forall (fun e => is_session_call e = false) tail /\
    result (setup_of s) =
      match result r1 with Some _ => result r2 | None => None end /\
    emitted (setup_of s) =
      head ++ emitted r1 ++
      match result r1 with
      | Some _ => emitted r2 ++ match result r2 with
                                | Some _ => tail
                                | None => []
                                end
      | None => []
      end.
Proof.
  cbv zeta.
  exists [ESerialBegin 9600;
          ESerial (NL +++ NL +++
                   "-------------------- START --------------------" +++ NL)],
         [EHcsrBegin PIN_HCSR04_TRIG PIN_HCSR04_ECHO;
          ESerial ("[+] Distance sensor HC-SR04 initialized." +++ NL)].
  split; [ repeat constructor | ]. split; [ repeat constructor | ].
  unfold setup_of. do 2 bind_step. rewrite bind_unfold.
  generalize (link_sequence s).
  intros [ [ [] | ] s1 e1 ]; cbn [result final emitted app];
    [ | split; rewrite ?app_nil_r; reflexivity ].
  rewrite bind_unfold.
  generalize (session_sequence s1).
  intros [ [ [] | ] s2 e2 ]; cbn [result final emitted app];
    [ | split; rewrite ?app_nil_r; reflexivity ].
  do 1 bind_step. split; reflexivity.
Qed.

End Setup.

Lemma setup_shape (cfg : Config) (w : World) (fuel : nat) :
  setup cfg w fuel =
  setup_of (reconnect_link cfg w fuel) (reconnect_session cfg w fuel).
Proof. reflexivity. Qed.

Lemma session_attempts_none (tr : list Event) :
  Forall (fun e => is_session_call e = false) tr -> session_attempts tr = [].
Proof.
  induction 1 as [ | e tr He _ IH ]; [ reflexivity | ].
  destruct e; try discriminate; exact IH.
Qed.

Lemma status_reads_none (tr : list Event) :
  Forall (fun e => is_link_call e = false) tr -> status_reads tr = [].
Proof.
  induction 1 as [ | e tr He _ IH ]; [ reflexivity | ].
  destruct e; try discriminate; exact IH.
Qed.

(** [setup] never publishes, and it ends only with the session accepted. *)
Lemma setup_ends_accepted (cfg : Config) (w : World) (fuel : nat) (s : State) :
  let r := setup cfg w fuel s in
  publishes (emitted r) = [] /\
  (result r = Some tt -> exists l, session_attempts (emitted r) = l ++ [true]).
Proof.
  cbv zeta. rewrite setup_shape.
  destruct (setup_of_run (reconnect_link cfg w fuel)
                         (reconnect_session cfg w fuel) s)
    as (head & tail & Hhead & Htail & Hres & Hem).
  cbv zeta in Hres, Hem.
  set (r1 := reconnect_link cfg w fuel s) in *.
  set (r2 := reconnect_session cfg w fuel (final r1)) in *.
  assert (L1 : Forall (fun e => is_session_call e = false) (emitted r1))
    by (apply emits_reconnect_link; intros; reflexivity).
  assert (L3 : Forall (fun e => is_publish e = false) (emitted r2))
    by (apply emits_reconnect_session; intros; reflexivity).
  rewrite Hres, Hem. split.
  - rewrite !publishes_app.
    rewrite (publishes_none head) by (now apply session_call_publish).
    rewrite (publishes_none (emitted r1)) by (now apply session_call_publish).
    destruct (result r1); [ | reflexivity ].
    rewrite publishes_app, (publishes_none _ L3).
    destruct (result r2); [ | reflexivity ].
    now rewrite (publishes_none tail) by (now apply session_call_publish).
  - destruct (result r1) as [ [] | ] eqn:R1; [ | discriminate ].
    intros R2. rewrite R2.
    destruct (reconnect_session_ends_accepted cfg w fuel _ R2) as (_ & l & Hl).
    fold r2 in Hl.
    rewrite !session_attempts_app, Hl.
    rewrite (session_attempts_none head Hhead).
    rewrite (session_attempts_none (emitted r1) L1).
    rewrite (session_attempts_none tail Htail).
    exists l. cbn [app]. now rewrite app_nil_r.
Qed.

(** A turn of [loop] publishes only behind a passed health check, and ends
    with the session as it was last seen, or freshly accepted. *)
Lemma loop_gated (cfg : Config) (w : World) (fuel : nat) (s : State) (g : Gate) :
  session_seen g = true ->
  let r := loop cfg w fuel s in
  gated g (emitted r) = true /\
  (result r = Some tt -> session_seen (observed g (emitted r)) = true).
Proof.
  intros Hg r. subst r.
  destruct (wifi_status_at w (n_status s)) eqn:E.
  - destruct (loop_healthy cfg w fuel s E) as (_ & Hem & _).
    cbv zeta in Hem. rewrite Hem. split.
    + unfold publish_report. cbn. rewrite Hg. reflexivity.
    + intros _. rewrite session_seen_observed.
      unfold publish_report. cbn. exact Hg.
  - destruct (loop_recovery_phases cfg w fuel s E)
      as (Hnone & link_phase & session_phase & Hem & L1 & L2 & _ & Hacc).
    split.
    + apply gated_no_publish.
      clear - Hnone. induction (emitted (loop cfg w fuel s)) as [ | e tr IH ];
        [ constructor | ].
      destruct e; try (constructor; [ reflexivity | apply IH; exact Hnone ]).
      discriminate.
    + intros R. destruct (Hacc R) as (l & Hl).
      rewrite session_seen_observed, Hem.
      change (session_attempts (?a :: EWifiStatus false :: ?t))
        with (session_attempts t).
      rewrite !session_attempts_app, Hl.
      rewrite (session_attempts_none link_phase L1).
      cbn [app lost_link_notice session_attempts flat_map].
      now rewrite last_last.
Qed.

Lemma loop_cycles_gated (cfg : Config) (w : World) (fuel : nat) :
  forall cycles s g,
    session_seen g = true ->
    gated g (emitted (loop_cycles cfg w fuel cycles s)) = true.
Proof.
  induction cycles as [ | n IH ]; intros s g Hg; cbn [loop_cycles].
  - reflexivity.
  - rewrite bind_emitted, gated_app.
    destruct (loop_gated cfg w fuel s g Hg) as (G1 & G2). cbv zeta in G1, G2.
    rewrite G1. cbn [andb].
    destruct (result (loop cfg w fuel s)) as [ [] | ]; [ | reflexivity ].
    apply IH. now apply G2.
Qed.

Lemma sketch_gated (cfg : Config) (w : World) (fuel cycles : nat) (s : State)
      (g : Gate) :
  gated g (emitted (sketch cfg w fuel cycles s)) = true.
Proof.
  unfold sketch. rewrite bind_emitted, gated_app.
  destruct (setup_ends_accepted cfg w fuel s) as (Hnone & Hacc).
  cbv zeta in Hnone, Hacc.
  assert (Hquiet : Forall (fun e => is_publish e = false)
                          (emitted (setup cfg w fuel s))).
  { clear - Hnone. induction (emitted (setup cfg w fuel s)) as [ | e tr IH ];
      [ constructor | ].
    destruct e; try (constructor; [ reflexivity | apply IH; exact Hnone ]).
    discriminate. }
  rewrite (gated_no_publish _ Hquiet). cbn [andb].
  destruct (result (setup cfg w fuel s)) as [ [] | ]; [ | reflexivity ].
  apply loop_cycles_gated.
  destruct (Hacc eq_refl) as (l & Hl).
  now rewrite session_seen_observed, Hl, last_last.
Qed.

Lemma last_true_snoc (l : list bool) :
  last l false = true -> exists l', l = l' ++ [true].
Proof.
  intros H. destruct l as [ | x l ] using rev_ind; [ discriminate | ].
  rewrite last_last in H. subst x. now exists l.
Qed.

Lemma gated_publish (g : Gate) (tr pre post : list Event)
      (topic payload : string) (sent : bool) :
  gated g tr = true ->
  tr = pre ++ EMqttPublish topic payload sent :: post ->
  link_seen (observed g pre) = true /\ session_seen (observed g pre) = true.
Proof.
  intros H ->. rewrite gated_app in H. apply andb_prop in H. destruct H as [_ H].
  cbn [gated is_publish] in H. apply andb_prop in H. destruct H as [H _].
  now apply andb_prop in H.
Qed.

(** C2, amended. In every run of the sketch, a publish attempt is made only
    when the latest link status read (the health check of the turn) reported
    the link connected and the latest session connect attempt was accepted;
    the session's own status is never read before a publish. *)
Theorem publish_gate : forall cfg w fuel cycles s pre topic payload sent post,
  emitted (sketch cfg w fuel cycles s) =
    pre ++ EMqttPublish topic payload sent :: post ->
  (exists l, status_reads pre = l ++ [true]) /\
  (exists l, session_attempts pre = l ++ [true]).
Proof.
  intros cfg w fuel cycles s pre topic payload sent post Htr.
  destruct (gated_publish (mkGate false false) _ _ _ _ _ _
              (sketch_gated cfg w fuel cycles s _) Htr) as [Hl Hs].
  rewrite link_seen_observed in Hl. rewrite session_seen_observed in Hs.
  split; now apply last_true_snoc.
Qed.

(** The end-to-end run: link and session at the first attempt, a reading of
    42.0 cm, one publish. *)
Lemma publish_gate_witness :
  exists pre post,
    emitted (sketch sketch_config calm_world 0 1 initial_state) =
      pre ++ EMqttPublish "garage_sensor"
               (serializeJson (json_data "ESP32" 42)) true :: post /\
    (exists l, status_reads pre = l ++ [true]) /\
    (exists l, session_attempts pre = l ++ [true]).
Proof.
  exists (firstn 57 (emitted (sketch sketch_config calm_world 0 1 initial_state))),
         (skipn 58 (emitted (sketch sketch_config calm_world 0 1 initial_state))).
  assert (E : emitted (sketch sketch_config calm_world 0 1 initial_state) =
              firstn 57 (emitted (sketch sketch_config calm_world 0 1 initial_state))
              ++ EMqttPublish "garage_sensor"
                   (serializeJson (json_data "ESP32" 42)) true
              :: skipn 58 (emitted (sketch sketch_config calm_world 0 1 initial_state)))
    by (vm_compute; reflexivity).
  split; [ exact E | ].
  exact (publish_gate sketch_config calm_world 0 1 initial_state _ _ _ _ _ E).
Defined.
(** ** Telemetry message: decoding *)

Record Telemetry := mkTelemetry { device : string; distance_cm : Z }.

(** [strip_prefix p s]: what follows [p] in [s], when [s] starts with [p]. *)
Fixpoint strip_prefix (p s : string) : option string :=
  match p with
  | EmptyString => Some s
  | String c p' =>
      match s with
      | String d s' => if Ascii.eqb c d then strip_prefix p' s' else None
      | EmptyString => None
      end
  end.

Definition unescape_letter (l : ascii) : option ascii :=
  if Ascii.eqb l quote_char then Some quote_char
  else if Ascii.eqb l "\" then Some "\"%char
  else if Ascii.eqb l "/" then Some "/"%char
  else if Ascii.eqb l "b" then Some (ascii_of_nat 8)
  else if Ascii.eqb l "f" then Some (ascii_of_nat 12)
  else if Ascii.eqb l "n" then Some (ascii_of_nat 10)
  else if Ascii.eqb l "r" then Some (ascii_of_nat 13)
  else if Ascii.eqb l "t" then Some (ascii_of_nat 9)
  else None.

(** Reads a string body up to its closing quote: the text and what follows
    the quote. *)
Fixpoint read_string_body (s : string) : option (string * string) :=
  match s with
  | EmptyString => None
  | String c rest =>
      if Ascii.eqb c quote_char then Some (EmptyString, rest)
      else if Ascii.eqb c "\" then
        match rest with
        | String l rest' =>
            match unescape_letter l, read_string_body rest' with
            | Some x, Some (t, r) => Some (String x t, r)
            | _, _ => None
            end
        | EmptyString => None
        end
      else
        match read_string_body rest with
        | Some (t, r) => Some (String c t, r)
        | None => None
        end
  end.

(** Reads up to the closing brace: the text before it and what follows. *)
Fixpoint read_until_brace (s : string) : option (string * string) :=
  match s with
  | EmptyString => None
  | String c rest =>
      if Ascii.eqb c "}" then Some (EmptyString, rest)
      else match read_until_brace rest with
           | Some (t, r) => Some (String c t, r)
           | None => None
           end
  end.

(** Modelled from the spec: [decode], the inverse of the encoder that the
    spec's round trip names; the sketch has no decoder.  It accepts exactly
    the two-field record, [device] then [distance_cm], and nothing after the
    closing brace. *)
Definition decode (msg : string) : option Telemetry :=
  match strip_prefix ("{" +++ QUOTE +++ "device" +++ QUOTE +++ ":" +++ QUOTE)
                     msg with
  | None => None
  | Some s1 =>
      match read_string_body s1 with
      | None => None
      | Some (name, s2) =>
          match strip_prefix ("," +++ QUOTE +++ "distance_cm" +++ QUOTE +++ ":")
                             s2 with
          | None => None
          | Some s3 =>
              match read_until_brace s3 with
              | Some (digits, EmptyString) =>
                  match NilZero.int_of_string digits with
                  | Some d => Some (mkTelemetry name (Z.of_int d))
                  | None => None
                  end
              | _ => None
              end
          end
      end
  end.

Lemma strip_prefix_app (p s : string) : strip_prefix p (p +++ s) = Some s.
Proof.
  induction p as [ | c p IH ]; [ reflexivity | ].
  change (String c p +++ s) with (String c (p +++ s)).
  cbn [strip_prefix]. now rewrite Ascii.eqb_refl.
Qed.

Lemma escape_letter_some (c l : ascii) :
  escape_letter c = Some l ->
  unescape_letter l = Some c /\ Ascii.eqb "\" quote_char = false.
Proof.
  destruct c as [ [] [] [] [] [] [] [] [] ]; vm_compute; intros H;
    inversion H; subst; split; reflexivity.
Qed.

Lemma escape_letter_none (c : ascii) :
  escape_letter c = None ->
  Ascii.eqb c quote_char = false /\ Ascii.eqb c "\" = false.
Proof.
  destruct c as [ [] [] [] [] [] [] [] [] ]; vm_compute; intros H;
    try discriminate; split; reflexivity.
Qed.

Lemma append_String (c : ascii) (a b : string) :
  String c a +++ b = String c (a +++ b).
Proof. reflexivity. Qed.

Lemma read_string_body_escaped (s rest : string) :
  read_string_body (write_escaped s +++ QUOTE +++ rest) = Some (s, rest).
Proof.
  induction s as [ | c s IH ].
  - cbn [write_escaped]. change (EmptyString +++ QUOTE +++ rest)
      with (String quote_char rest).
    cbn [read_string_body]. now rewrite Ascii.eqb_refl.
  - cbn [write_escaped]. destruct (escape_letter c) as [ l | ] eqn:E.
    + destruct (escape_letter_some c l E) as [Hl Hq].
      rewrite !append_String. cbn [read_string_body].
      rewrite Hq, Ascii.eqb_refl, Hl, IH. reflexivity.
    + destruct (escape_letter_none c E) as [Hq Hb].
      rewrite append_String. cbn [read_string_body].
      rewrite Hq, Hb, IH. reflexivity.
Qed.

(** The characters of a decimal rendering are never the closing brace. *)
Lemma read_until_brace_uint (d : Decimal.uint) (rest : string) :
  read_until_brace (NilEmpty.string_of_uint d +++ String "}" rest) =
  Some (NilEmpty.string_of_uint d, rest).
Proof.
  induction d; cbn [NilEmpty.string_of_uint]; rewrite ?append_String;
    cbn [read_until_brace];
    try (match goal with
         | |- context [ Ascii.eqb ?a ?b ] =>
             change (Ascii.eqb a b) with false
         end; cbv iota; rewrite IHd; reflexivity).
  reflexivity.
Qed.

Lemma read_until_brace_dec (v : Z) (rest : string) :
  read_until_brace (dec v +++ String "}" rest) = Some (dec v, rest).
Proof.
  unfold dec.
  assert (U : forall d, read_until_brace
                          (NilZero.string_of_uint d +++ String "}" rest)
                        = Some (NilZero.string_of_uint d, rest)).
  { intros d. destruct d; try apply read_until_brace_uint. reflexivity. }
  destruct (Z.to_int v) as [ d | d ]; cbn [NilZero.string_of_int].
  - apply U.
  - rewrite append_String. cbn [read_until_brace].
    change (Ascii.eqb "-" "}") with false. cbv iota. now rewrite U.
Qed.

Lemma int_of_string_dec (v : Z) :
  option_map Z.of_int (NilZero.int_of_string (dec v)) = Some v.
Proof.
  unfold dec. rewrite NilZero.isi.
  - cbn [option_map]. now rewrite DecimalZ.of_to.
  - destruct v as [ | p | p ]; cbn; try discriminate.
    intros H. injection H as H. now apply DecimalPos.Unsigned.to_uint_nonnil in H.
  - destruct v as [ | p | p ]; cbn; try discriminate.
    intros H. injection H as H. now apply DecimalPos.Unsigned.to_uint_nonnil in H.
Qed.

Lemma append_assoc (a b c : string) : (a +++ b) +++ c = a +++ b +++ c.
Proof.
  induction a as [ | x a IH ]; [ reflexivity | ].
  rewrite !append_String. now rewrite IH.
Qed.

(** The text [serializeJson] writes for the sketch's document. *)
Lemma serializeJson_json_data (name : string) (v : Z) :
  serializeJson (json_data name v) =
  ("{" +++ QUOTE +++ "device" +++ QUOTE +++ ":" +++ QUOTE)
    +++ write_escaped name +++ QUOTE
    +++ ("," +++ QUOTE +++ "distance_cm" +++ QUOTE +++ ":")
    +++ dec v +++ String "}" EmptyString.
Proof.
  unfold serializeJson, json_data. cbn [json_set String.eqb Ascii.eqb].
  cbn. unfold write_string.
  change (write_escaped "device") with "device".
  change (write_escaped "distance_cm") with "distance_cm".
  now rewrite !append_assoc.
Qed.

Lemma decode_serializeJson (name : string) (v : Z) :
  decode (serializeJson (json_data name v)) = Some (mkTelemetry name v).
Proof.
  rewrite serializeJson_json_data. unfold decode.
  rewrite strip_prefix_app.
  rewrite read_string_body_escaped.
  rewrite strip_prefix_app.
  rewrite read_until_brace_dec.
  pose proof (int_of_string_dec v) as H.
  destruct (NilZero.int_of_string (dec v)) as [ d | ]; [ | discriminate ].
  cbn [option_map] in H. now injection H as ->.
Qed.

Lemma substring_all (s : string) (n : nat) :
  (String.length s <= n)%nat -> substring 0 n s = s.
Proof.
  revert n. induction s as [ | c s IH ]; intros n H.
  - destruct n; reflexivity.
  - destruct n as [ | n ]; [ cbn in H; lia | ].
    cbn [substring]. rewrite IH; [ reflexivity | cbn in H; lia ].
Qed.

Lemma substring_length (s : string) (n : nat) :
  (n <= String.length s)%nat -> String.length (substring 0 n s) = n.
Proof.
  revert n. induction s as [ | c s IH ]; intros n H.
  - destruct n; [ reflexivity | cbn in H; lia ].
  - destruct n as [ | n ]; [ reflexivity | ].
    cbn [substring String.length]. rewrite IH; [ reflexivity | cbn in H; lia ].
Qed.

Lemma substring_prefix (s : string) (n : nat) :
  String.prefix (substring 0 n s) s = true.
Proof.
  revert n. induction s as [ | c s IH ]; intros n.
  - destruct n; reflexivity.
  - destruct n as [ | n ]; [ reflexivity | ].
    cbn [substring String.prefix].
    destruct (ascii_dec c c) as [ _ | N ]; [ apply IH | contradiction ].
Qed.

(** A message that fits the buffer is written whole. *)
Lemma serializeJson_to_fits (doc : JsonDocument) :
  (String.length (serializeJson doc) <= 127)%nat ->
  serializeJson_to 128 doc = serializeJson doc.
Proof. intros H. unfold serializeJson_to. now apply substring_all. Qed.
(** ** Telemetry message: round trip and buffer bound *)

(** A device name of 120 characters and the sketch configured with it. *)
Definition long_device_name : string :=
  string_of_list_ascii (repeat "A"%char 120).

Definition long_name_config : Config :=
  mkConfig (wifi_essid sketch_config) (wifi_key sketch_config)
           (wifi_password sketch_config) (mqtt_server sketch_config)
           (mqtt_port sketch_config) (mqtt_topic sketch_config)
           (mqtt_user sketch_config) (mqtt_password sketch_config)
           long_device_name (json_resend_timeout sketch_config).

(** The round trip on the message the sketch hands to [publish]. *)
Definition round_trips (name : string) (v : Z) : Prop :=
  decode (serializeJson_to 128 (json_data name v)) = Some (mkTelemetry name v).

(** C8, as stated, fails: the message of a long device name is cut to the
    buffer and no longer decodes. *)
Lemma round_trip_fails : ~ round_trips long_device_name 42.
Proof. intros H. vm_compute in H. discriminate. Qed.

(** C8, amended. For every device name and integer value whose message fits
    the 127 characters of the output buffer, the document has exactly the
    fields device and distance_cm in this order, the message handed to
    [publish] is the whole encoding, and decoding it gives back the name and
    the value; the text written to the serial port decodes back for every
    name and value; for the name ESP32 and the value 42 the message is
    the record with device ESP32 and distance_cm 42. *)
Theorem telemetry_round_trip : forall cfg w s,
  let name := json_device_name cfg in
  let v := hcsr_value s in
  let doc := json_data name v in
  (String.length (serializeJson doc) <= 127)%nat ->
  map fst doc = ["device"; "distance_cm"] /\
  publishes (emitted (sendJsonToMqttBroker cfg w s)) =
    [(mqtt_topic cfg, serializeJson doc, mqtt_publish_at w (n_publish s))] /\
  decode (serializeJson_to 128 doc) = Some (mkTelemetry name v) /\
  (forall name' v',
     decode (serializeJson (json_data name' v')) = Some (mkTelemetry name' v')) /\
  serializeJson_to 128 (json_data "ESP32" 42) =
    "{" +++ QUOTE +++ "device" +++ QUOTE +++ ":" +++ QUOTE +++ "ESP32" +++ QUOTE
        +++ "," +++ QUOTE +++ "distance_cm" +++ QUOTE +++ ":42}".
Proof.
  intros cfg w s name v doc Hfits. subst name v doc.
  split; [ reflexivity | ]. split; [ | split; [ | split ] ].
  - rewrite sendJsonToMqttBroker_run. cbv zeta. cbn [emitted].
    rewrite (serializeJson_to_fits _ Hfits). reflexivity.
  - rewrite (serializeJson_to_fits _ Hfits). apply decode_serializeJson.
  - apply decode_serializeJson.
  - vm_compute. reflexivity.
Qed.

Lemma telemetry_round_trip_witness :
  decode (serializeJson_to 128 (json_data "ESP32" 0)) =
    Some (mkTelemetry "ESP32" 0) /\
  decode (serializeJson_to 128 (json_data "ESP32" (-2147483648))) =
    Some (mkTelemetry "ESP32" (-2147483648)) /\
  decode (serializeJson_to 128 (json_data "ESP32" 400)) =
    Some (mkTelemetry "ESP32" 400).
Proof.
  assert (F : forall v,
             (String.length
                (serializeJson (json_data "ESP32" v)) <= 127)%nat ->
             decode (serializeJson_to 128 (json_data "ESP32" v)) =
             Some (mkTelemetry "ESP32" v)).
  { intros v Hv.
    exact (proj1 (proj2 (proj2
             (telemetry_round_trip sketch_config calm_world
                (set_hcsr_value v initial_state) Hv)))). }
  repeat split; apply F; vm_compute; lia.
Defined.

(** The claim's reading of the buffer bound: a message that does not fit
    is reported as a failure. *)
Definition overflow_reported (cfg : Config) (w : World) (s : State) : Prop :=
  (127 < String.length
           (serializeJson (json_data (json_device_name cfg) (hcsr_value s))))%nat ->
  result (sendJsonToMqttBroker cfg w s) <> Some 0.

(** C9, as stated, fails: with a long device name the message does not fit,
    its first 127 characters are published and the call reports success. *)
Lemma overflow_is_silent :
  ~ overflow_reported long_name_config calm_world initial_state.
Proof.
  intros H.
  assert (L : (127 < String.length
                       (serializeJson
                          (json_data (json_device_name long_name_config)
                                     (hcsr_value initial_state))))%nat)
    by (vm_compute; lia).
  apply (H L). vm_compute. reflexivity.
Qed.

(** C9, amended. Encoding never fails: the call publishes what the
    128-byte buffer holds, the whole message when it has at most 127
    characters and its first 127 characters otherwise, and its result is
    decided by the broker's answer to the publish alone. *)
Theorem publish_buffer_bound : forall cfg w s,
  let doc := json_data (json_device_name cfg) (hcsr_value s) in
  let payload := serializeJson_to 128 doc in
  let sent := mqtt_publish_at w (n_publish s) in
  let r := sendJsonToMqttBroker cfg w s in
  result r = Some (if sent then 0 else 1) /\
  publishes (emitted r) = [(mqtt_topic cfg, payload, sent)] /\
  String.prefix payload (serializeJson doc) = true /\
  String.length payload = Nat.min 127 (String.length (serializeJson doc)) /\
  ((String.length (serializeJson doc) <= 127)%nat ->
   payload = serializeJson doc).
Proof.
  intros cfg w s doc payload sent r. subst doc payload sent r.
  rewrite sendJsonToMqttBroker_run. cbv zeta. cbn [result emitted].
  split; [ reflexivity | ]. split; [ reflexivity | ].
  split; [ apply substring_prefix | ]. split.
  - unfold serializeJson_to. change (128 - 1)%nat with 127%nat.
    destruct (Nat.le_gt_cases
                (String.length
                   (serializeJson
                      (json_data (json_device_name cfg) (hcsr_value s)))) 127)
      as [Hle | Hgt].
    + rewrite substring_all by exact Hle. lia.
    + rewrite substring_length by lia. lia.
  - apply serializeJson_to_fits.
Qed.

Example overflow_truncates :
  let r := sendJsonToMqttBroker long_name_config calm_world initial_state in
  let doc := json_data long_device_name (-1) in
  String.length (serializeJson doc) = 150%nat /\
  result r = Some 0 /\
  publishes (emitted r) =
    [("garage_sensor", substring 0 127 (serializeJson doc), true)].
Proof. vm_compute. repeat split. Qed.

(** ** Measurements are published as they come *)

(** Modelled from the spec: a measurement is valid when it is finite and
    within the range [lo, hi] the sensor can measure; the sketch has no such
    notion. *)
Definition reading_valid (lo hi : Q) (d : double) : bool :=
  match d with
  | DFinite q => Qle_bool lo q && Qle_bool q hi
  | _ => false
  end.

(** The claim's reading: a turn with an invalid measurement publishes
    nothing. *)
Definition invalid_reading_skipped (lo hi : Q) (cfg : Config) (w : World)
           (fuel : nat) (s : State) : Prop :=
  reading_valid lo hi (hcsr_measure_at w (n_measure s)) = false ->
  publishes (emitted (loop cfg w fuel s)) = [].

(** A sensor that answers NaN; everything else as in [calm_world]. *)
Definition nan_world : World :=
  {| wifi_status_at := wifi_status_at calm_world;
     wifi_SSID_at := wifi_SSID_at calm_world;
     wifi_localIP_at := wifi_localIP_at calm_world;
     wifi_macAddress_at := wifi_macAddress_at calm_world;
     wifi_RSSI_at := wifi_RSSI_at calm_world;
     mqtt_connect_at := mqtt_connect_at calm_world;
     mqtt_state_at := mqtt_state_at calm_world;
     mqtt_publish_at := mqtt_publish_at calm_world;
     mqtt_connected_at := mqtt_connected_at calm_world;
     hcsr_measure_at := always DNaN;
     cast_unrepresentable := cast_unrepresentable calm_world |}.

(** C7, as stated, fails: a NaN measurement is converted and published. *)
Lemma invalid_reading_published :
  ~ invalid_reading_skipped (2 # 1) (400 # 1) sketch_config nan_world 0
      initial_state.
Proof.
  intros H. specialize (H eq_refl). vm_compute in H. discriminate.
Qed.

(** C7, amended. The sketch has no notion of an invalid measurement: in
    every turn whose health check passes, whatever the sensor returned is
    rounded, converted to [int], stored, mirrored to the serial port and
    published exactly once; the turn then logs the outcome of the publish,
    waits and ends. *)
Theorem reading_published_unchecked : forall cfg w fuel s,
  wifi_status_at w (n_status s) = true ->
  let r := loop cfg w fuel s in
  let value := double_to_int w (round (hcsr_measure_at w (n_measure s))) in
  let doc := json_data (json_device_name cfg) value in
  let sent := mqtt_publish_at w (n_publish s) in
  result r = Some tt /\
  hcsr_value (final r) = value /\
  publishes (emitted r) = [(mqtt_topic cfg, serializeJson_to 128 doc, sent)] /\
  emitted r =
    [EHcsrMeasure (hcsr_measure_at w (n_measure s)); EWifiStatus true;
     ESerial "    "; ESerial (serializeJson doc); ESerial NL;
     EMqttPublish (mqtt_topic cfg) (serializeJson_to 128 doc) sent]
    ++ publish_report cfg sent ++ [EDelay (json_resend_timeout cfg)].
Proof.
  intros cfg w fuel s E r value doc sent. subst r value doc sent.
  destruct (loop_healthy cfg w fuel s E) as (Hres & Hem & _ & _ & _ & _ & Hv).
  cbv zeta in Hres, Hem, Hv.
  unfold telemetry_payload, sampled_value in *.
  rewrite Hres, Hv, Hem. repeat split.
Qed.

Lemma reading_published_unchecked_witness :
  publishes (emitted (loop sketch_config nan_world 0 initial_state)) =
    [("garage_sensor", serializeJson_to 128 (json_data "ESP32" 0), true)].
Proof.
  exact (proj1 (proj2 (proj2
           (reading_published_unchecked sketch_config nan_world 0
              initial_state eq_refl)))).
Defined.

(** * Further properties *)

(** ** Steady state *)

Lemma elapsed_app (a b : list Event) : elapsed (a ++ b) = elapsed a + elapsed b.
Proof.
  unfold elapsed. rewrite delays_app.
  induction (delays a) as [ | x l IH ]; cbn [app fold_right]; lia.
Qed.

(** X1. While the link stays up, [cycles] turns of [loop] publish [cycles]
    messages, the i-th carrying the i-th sample of the run, whatever the
    broker answers; no reading is kept back or sent twice, no session connect
    is attempted, and each turn waits the resend timeout once. *)
Theorem steady_state_publishes : forall cfg w fuel cycles s,
  (forall i, (i < cycles)%nat -> wifi_status_at w (n_status s + i) = true) ->
  let r := loop_cycles cfg w fuel cycles s in
  result r = Some tt /\
  publishes (emitted r) =
    map (fun i =>
           (mqtt_topic cfg,
            serializeJson_to 128
              (json_data (json_device_name cfg)
                 (double_to_int w (round (hcsr_measure_at w (n_measure s + i))))),
            mqtt_publish_at w (n_publish s + i)))
        (seq 0 cycles) /\
  session_attempts (emitted r) = [] /\
  status_reads (emitted r) = repeat true cycles /\
  elapsed (emitted r) = Z.of_nat cycles * json_resend_timeout cfg.
Proof.
  intros cfg w fuel cycles. induction cycles as [ | n IH ]; intros s Hup r; subst r.
  - cbn. repeat split.
  - cbn [loop_cycles].
    assert (E : wifi_status_at w (n_status s) = true)
      by (rewrite <- (Nat.add_0_r (n_status s)); apply Hup; lia).
    destruct (loop_healthy cfg w fuel s E)
      as (Hres & Hem & Hp & _ & Hs & Hm & _).
    cbv zeta in Hres, Hem, Hp, Hs, Hm.
    rewrite (bind_run_some _ _ _ tt Hres). cbn [result final emitted].
    destruct (IH (final (loop cfg w fuel s))) as (R1 & R2 & R3 & R4 & R5).
    { intros i Hi. rewrite Hs.
      replace (S (n_status s) + i)%nat with (n_status s + S i)%nat by lia.
      apply Hup. lia. }
    cbv zeta in R1, R2, R3, R4, R5.
    rewrite publishes_app, session_attempts_app, status_reads_app, elapsed_app.
    rewrite R1, R2, R3, R4, R5. rewrite Hem, Hp, Hm.
    unfold telemetry_payload, sampled_value, publish_report.
    split; [ reflexivity | ]. split; [ | split; [ | split ] ].
    + cbn [seq map]. rewrite <- seq_shift, map_map.
      rewrite !Nat.add_0_r.
      cbn [publishes flat_map app].
      f_equal. apply map_ext. intros i.
      now replace (S (n_measure s) + i)%nat with (n_measure s + S i)%nat by lia;
        replace (S (n_publish s) + i)%nat with (n_publish s + S i)%nat by lia.
    + reflexivity.
    + reflexivity.
    + unfold elapsed at 1.
      cbn [delays flat_map app fold_right]. lia.
Qed.

Lemma steady_state_publishes_witness :
  result (loop_cycles sketch_config calm_world 0 3 initial_state) = Some tt /\
  elapsed (emitted (loop_cycles sketch_config calm_world 0 3 initial_state))
    = 3000.
Proof.
  pose proof (steady_state_publishes sketch_config calm_world 0 3 initial_state
                (fun i _ => eq_refl)) as H.
  cbv zeta in H. destruct H as (H1 & _ & _ & _ & H5).
  split; [ exact H1 | exact H5 ].
Defined.

(** ** Link connect: the retry sequence *)

(** A call of [connectToWiFi] during which the link never reports
    connected: 21 status reads, 20 waits, failure. *)
Lemma connectToWiFi_absent (cfg : Config) (w : World) (s : State) :
  (forall i, (i <= 20)%nat -> wifi_status_at w (n_status s + i) = false) ->
  let r := connectToWiFi cfg w s in
  result r = Some 1 /\
  n_status (final r) = (n_status s + 21)%nat /\
  status_reads (emitted r) = repeat false 21 /\
  delays (emitted r) = repeat 500 20 /\
  session_attempts (emitted r) = [].
Proof.
  intros Hnever r. subst r.
  destruct (connectToWiFi_run cfg w s) as (k & found & Hrun & Hk & Hno & Hyes).
  cbv zeta in Hrun.
  assert (Hfound : found = false).
  { destruct found; [ | reflexivity ].
    rewrite Hnever in Hyes by lia. now specialize (Hyes eq_refl). }
  subst found. subst k.
  rewrite Hnever in Hrun by lia.
  assert (Hhead : status_reads (link_connect_head cfg) = []
                  /\ delays (link_connect_head cfg) = []
                  /\ session_attempts (link_connect_head cfg) = []).
  { unfold link_connect_head.
    destruct (wifi_key cfg =? KEY_NONE); [ | destruct (wifi_key cfg =? KEY_WPA_PSK) ];
      repeat split. }
  destruct Hhead as (Hs & Hd & Ha).
  rewrite Hrun. cbn [result final emitted].
  rewrite n_status_iter.
  rewrite !status_reads_app, !delays_app, !session_attempts_app, Hs, Hd, Ha.
  rewrite status_reads_wait_trace, delays_wait_trace.
  split; [ reflexivity | ]. split; [ lia | ].
  split; [ reflexivity | ]. split; [ reflexivity | ].
  cbn [app]. clear. generalize 20%nat. intros n.
  induction n as [ | n IH ]; [ reflexivity | exact IH ].
Qed.

(** A call of [connectToWiFi] that finds the link up at once. *)
Lemma connectToWiFi_present (cfg : Config) (w : World) (s : State) :
  wifi_status_at w (n_status s) = true ->
  wifi_status_at w (S (n_status s)) = true ->
  let r := connectToWiFi cfg w s in
  result r = Some 0 /\
  status_reads (emitted r) = [true; true] /\
  delays (emitted r) = [] /\
  session_attempts (emitted r) = [].
Proof.
  intros H0 H1 r. subst r.
  destruct (connectToWiFi_run cfg w s) as (k & found & Hrun & Hk & Hno & Hyes).
  cbv zeta in Hrun.
  assert (k = 0%nat).
  { destruct k as [ | k ]; [ reflexivity | ].
    specialize (Hno 0%nat ltac:(lia)). rewrite Nat.add_0_r in Hno. congruence. }
  subst k. destruct found; [ | discriminate ].
  replace (n_status s + (0 + 1))%nat with (S (n_status s)) in Hrun by lia.
  rewrite H1 in Hrun.
  assert (Hhead : status_reads (link_connect_head cfg) = []
                  /\ delays (link_connect_head cfg) = []
                  /\ session_attempts (link_connect_head cfg) = []).
  { unfold link_connect_head.
    destruct (wifi_key cfg =? KEY_NONE); [ | destruct (wifi_key cfg =? KEY_WPA_PSK) ];
      repeat split. }
  destruct Hhead as (Hs & Hd & Ha).
  rewrite Hrun. cbn [result final emitted].
  rewrite !status_reads_app, !delays_app, !session_attempts_app, Hs, Hd, Ha.
  repeat split.
Qed.

(** The link retry loop entered after a failed call. *)
Lemma link_retry_until_connected (cfg : Config) (w : World) :
  forall n fuel s,
    exit_status_code s <> 0 ->
    (forall i, (i < 21 * n)%nat -> wifi_status_at w (n_status s + i) = false) ->
    wifi_status_at w (n_status s + 21 * n) = true ->
    wifi_status_at w (n_status s + 21 * n + 1) = true ->
    (n < fuel)%nat ->
    let r := while_exit_status_code fuel
               (assign_exit_status_code (connectToWiFi cfg w)) s in
    result r = Some tt /\
    exit_status_code (final r) = 0 /\
    status_reads (emitted r) = repeat false (21 * n) ++ [true; true] /\
    delays (emitted r) = repeat 500 (20 * n) /\
    session_attempts (emitted r) = [].
Proof.
  induction n as [ | n IH ]; intros fuel s Hcode Hno H1 H2 Hfuel r; subst r;
    (destruct fuel as [ | fuel ]; [ lia | ]);
    rewrite while_exit_status_code_step;
    (destruct (Z.eqb_spec (exit_status_code s) 0) as [ | _ ]; [ contradiction | ]);
    cbv zeta.
  - rewrite Nat.mul_0_r, Nat.add_0_r in *.
    replace (n_status s + 1)%nat with (S (n_status s)) in H2 by lia.
    destruct (connectToWiFi_present cfg w s H1 H2) as (R & S1 & D1 & A1).
    cbv zeta in R, S1, D1, A1.
    rewrite (bind_run_some _ _ _ tt)
      by (rewrite (assign_exit_status_code_run _ _ _ R); reflexivity).
    rewrite (assign_exit_status_code_run _ _ _ R). cbn [result final emitted].
    rewrite while_exit_status_code_step.
    cbn [exit_status_code set_exit_status_code].
    change (to_uchar 0 =? 0) with true. cbn [result final emitted].
    rewrite app_nil_r, S1, D1, A1. repeat split.
  - assert (Habs : forall i, (i <= 20)%nat ->
                             wifi_status_at w (n_status s + i) = false)
      by (intros i Hi; apply Hno; lia).
    destruct (connectToWiFi_absent cfg w s Habs) as (R & N1 & S1 & D1 & A1).
    cbv zeta in R, N1, S1, D1, A1.
    rewrite (bind_run_some _ _ _ tt)
      by (rewrite (assign_exit_status_code_run _ _ _ R); reflexivity).
    rewrite (assign_exit_status_code_run _ _ _ R). cbn [result final emitted].
    set (s' := set_exit_status_code (to_uchar 1)
                 (final (connectToWiFi cfg w s))).
    assert (Ns : n_status s' = (n_status s + 21)%nat) by exact N1.
    destruct (IH fuel s') as (Q1 & Q2 & Q3 & Q4 & Q5).
    + discriminate.
    + intros i Hi. rewrite Ns.
      replace (n_status s + 21 + i)%nat with (n_status s + (21 + i))%nat by lia.
      apply Hno. lia.
    + rewrite Ns.
      replace (n_status s + 21 + 21 * n)%nat
        with (n_status s + 21 * S n)%nat by lia.
      exact H1.
    + rewrite Ns.
      replace (n_status s + 21 + 21 * n + 1)%nat
        with (n_status s + 21 * S n + 1)%nat by lia.
      exact H2.
    + lia.
    + cbv zeta in Q1, Q2, Q3, Q4, Q5.
      rewrite status_reads_app, delays_app, session_attempts_app.
      rewrite Q1, Q2, Q3, Q4, Q5, S1, D1, A1.
      split; [ reflexivity | ]. split; [ reflexivity | ].
      split; [ | split; [ | reflexivity ] ].
      * rewrite app_assoc, <- repeat_app. do 2 f_equal. lia.
      * rewrite <- repeat_app. f_equal. lia.
Qed.

(** The link connection sequence when the link stays away for [n] whole
    calls and is up afterwards. *)
Lemma reconnect_link_until_connected (cfg : Config) (w : World) (n fuel : nat)
      (s : State) :
  (forall i, (i < 21 * n)%nat -> wifi_status_at w (n_status s + i) = false) ->
  wifi_status_at w (n_status s + 21 * n) = true ->
  wifi_status_at w (n_status s + 21 * n + 1) = true ->
  (n <= fuel)%nat ->
  let r := reconnect_link cfg w fuel s in
  result r = Some tt /\
  exit_status_code (final r) = 0 /\
  status_reads (emitted r) = repeat false (21 * n) ++ [true; true] /\
  delays (emitted r) = repeat 500 (20 * n) /\
  session_attempts (emitted r) = [].
Proof.
  intros Hno H1 H2 Hfuel r. subst r.
  unfold reconnect_link. destruct n as [ | n ].
  - rewrite Nat.mul_0_r, Nat.add_0_r in *.
    replace (n_status s + 1)%nat with (S (n_status s)) in H2 by lia.
    destruct (connectToWiFi_present cfg w s H1 H2) as (R & S1 & D1 & A1).
    cbv zeta in R, S1, D1, A1.
    rewrite (bind_run_some _ _ _ tt)
      by (rewrite (assign_exit_status_code_run _ _ _ R); reflexivity).
    rewrite (assign_exit_status_code_run _ _ _ R). cbn [result final emitted].
    rewrite while_exit_status_code_step.
    cbn [exit_status_code set_exit_status_code].
    change (to_uchar 0 =? 0) with true. cbn [result final emitted].
    rewrite app_nil_r, S1, D1, A1. repeat split.
  - assert (Habs : forall i, (i <= 20)%nat ->
                             wifi_status_at w (n_status s + i) = false)
      by (intros i Hi; apply Hno; lia).
    destruct (connectToWiFi_absent cfg w s Habs) as (R & N1 & S1 & D1 & A1).
    cbv zeta in R, N1, S1, D1, A1.
    rewrite (bind_run_some _ _ _ tt)
      by (rewrite (assign_exit_status_code_run _ _ _ R); reflexivity).
    rewrite (assign_exit_status_code_run _ _ _ R). cbn [result final emitted].
    set (s' := set_exit_status_code (to_uchar 1)
                 (final (connectToWiFi cfg w s))).
    assert (Ns : n_status s' = (n_status s + 21)%nat) by exact N1.
    destruct (link_retry_until_connected cfg w n fuel s')
      as (Q1 & Q2 & Q3 & Q4 & Q5).
    + discriminate.
    + intros i Hi. rewrite Ns.
      replace (n_status s + 21 + i)%nat with (n_status s + (21 + i))%nat by lia.
      apply Hno. lia.
    + rewrite Ns.
      replace (n_status s + 21 + 21 * n)%nat
        with (n_status s + 21 * S n)%nat by lia.
      exact H1.
    + rewrite Ns.
      replace (n_status s + 21 + 21 * n + 1)%nat
        with (n_status s + 21 * S n + 1)%nat by lia.
      exact H2.
    + lia.
    + cbv zeta in Q1, Q2, Q3, Q4, Q5.
      rewrite status_reads_app, delays_app, session_attempts_app.
      rewrite Q1, Q2, Q3, Q4, Q5, S1, D1, A1.
      split; [ reflexivity | ]. split; [ reflexivity | ].
      split; [ | split; [ | reflexivity ] ].
      * rewrite app_assoc, <- repeat_app. do 2 f_equal. lia.
      * rewrite <- repeat_app. f_equal. lia.
Qed.

Lemma elapsed_repeat (ms : Z) (n : nat) :
  fold_right Z.add 0 (repeat ms n) = ms * Z.of_nat n.
Proof.
  induction n as [ | n IH ]; [ cbn; lia | ].
  cbn [repeat fold_right]. rewrite IH. lia.
Qed.

(** X2. The link connection sequence of [setup] and of the recovery branch
    has no attempt bound: when the link stays away for [n] whole calls of
    [connectToWiFi] (21 status reads each) and is up afterwards, the sequence
    makes these [n] failing calls, waiting 20 times 500 ms in each, then one
    successful call without any wait, and ends; no other wait separates the
    calls. *)
Theorem link_retry_policy : forall cfg w n fuel s,
  (forall i, (i < 21 * n)%nat -> wifi_status_at w (n_status s + i) = false) ->
  wifi_status_at w (n_status s + 21 * n) = true ->
  wifi_status_at w (n_status s + 21 * n + 1) = true ->
  (n <= fuel)%nat ->
  let r := reconnect_link cfg w fuel s in
  result r = Some tt /\
  exit_status_code (final r) = 0 /\
  status_reads (emitted r) = repeat false (21 * n) ++ [true; true] /\
  delays (emitted r) = repeat 500 (20 * n) /\
  elapsed (emitted r) = 10000 * Z.of_nat n.
Proof.
  intros cfg w n fuel s Hno H1 H2 Hfuel r. subst r.
  destruct (reconnect_link_until_connected cfg w n fuel s Hno H1 H2 Hfuel)
    as (C1 & C2 & C3 & C4 & _).
  cbv zeta in C1, C2, C3, C4.
  repeat split; try assumption.
  unfold elapsed. rewrite C4, elapsed_repeat. lia.
Qed.

Lemma link_retry_policy_witness :
  let r := reconnect_link sketch_config (slow_world 42 0) 2 initial_state in
  result r = Some tt /\
  List.length (status_reads (emitted r)) = 44%nat /\
  elapsed (emitted r) = 20000.
Proof.
  cbv zeta.
  pose proof (link_retry_policy sketch_config (slow_world 42 0) 2 2
                initial_state) as H.
  cbv zeta in H.
  destruct H as (H1 & _ & H3 & _ & H5).
  - intros i Hi. cbn [wifi_status_at slow_world n_status initial_state].
    apply Nat.leb_gt. lia.
  - reflexivity.
  - reflexivity.
  - lia.
  - split; [ exact H1 | ]. split; [ | exact H5 ].
    rewrite H3. reflexivity.
Defined.

(** ** What a routine leaves untouched *)

(** [m] hands on the component [f] of the state as it found it. *)
Definition keeps {A X} (f : State -> X) (m : M A) : Prop :=
  forall s, f (final (m s)) = f s.

Section Keeps.

Context {X : Type}.
Variable f : State -> X.

Lemma keeps_ret {A} (a : A) : keeps f (ret a).
Proof. intros s. reflexivity. Qed.

Lemma keeps_out_of_fuel {A} : keeps f (@out_of_fuel A).
Proof. intros s. reflexivity. Qed.

Lemma keeps_get {A} (g : State -> A) : keeps f (get g).
Proof. intros s. reflexivity. Qed.

Lemma keeps_emit (e : Event) : keeps f (emit e).
Proof. intros s. reflexivity. Qed.

Lemma keeps_modify (g : State -> State) :
  (forall s, f (g s) = f s) -> keeps f (modify g).
Proof. intros H s. apply H. Qed.

Lemma keeps_bind {A B} (m : M A) (k : A -> M B) :
  keeps f m -> (forall a, keeps f (k a)) -> keeps f (bind m k).
Proof.
  intros Hm Hk s. unfold bind.
  destruct (result (m s)) as [ a | ] eqn:E; cbn [final].
  - now rewrite Hk, Hm.
  - apply Hm.
Qed.

Lemma keeps_while (fuel : nat) (body : M unit) :
  keeps f body -> keeps f (while_exit_status_code fuel body).
Proof.
  intros Hbody. induction fuel as [ | fuel IH ]; intros s;
    rewrite while_exit_status_code_step;
    destruct (exit_status_code s =? 0); try reflexivity.
  cbv zeta. rewrite bind_unfold.
  destruct (result (body s)); cbn [final]; [ now rewrite IH, Hbody | apply Hbody ].
Qed.

Hypothesis f_exit : forall c s, f (set_exit_status_code c s) = f s.

Lemma keeps_assign (m : M Z) : keeps f m -> keeps f (assign_exit_status_code m).
Proof.
  intros H. unfold assign_exit_status_code.
  apply keeps_bind; [ exact H | intros c; apply keeps_modify; apply f_exit ].
Qed.

End Keeps.

Ltac keeps_with leaf :=
  repeat first
    [ apply keeps_ret
    | apply keeps_get
    | apply keeps_out_of_fuel
    | apply keeps_emit
    | apply keeps_bind; [ | intro ]
    | apply keeps_assign; [ solve [ leaf ] | ]
    | apply keeps_while
    | match goal with
      | |- keeps _ (if ?b then _ else _) => destruct b
      end
    | solve [ leaf ]
    | (intros ?; cbn; solve [ leaf ]) ].

Section SketchKeeps.

Context {X : Type}.
Variable cfg : Config.
Variable w : World.
Variable f : State -> X.

Hypothesis f_exit : forall c s, f (set_exit_status_code c s) = f s.

Section Link.

Hypothesis f_status : forall s, f (tick_status s) = f s.
Hypothesis f_identity : forall s, f (tick_identity s) = f s.

Lemma keeps_wait_for_link (fuel : nat) : forall wait_counter,
  keeps f (wait_for_link w fuel wait_counter).
Proof.
  induction fuel as [ | fuel IH ]; intros wc s; rewrite wait_for_link_step;
    destruct (wifi_status_at w (n_status s)); cbn [final]; try apply f_status;
    destruct (to_uchar (wc + 1) >=? 20); cbn [final]; try apply f_status.
  cbv zeta. cbn [final]. now rewrite IH.
Qed.

Lemma keeps_connectToWiFi : keeps f (connectToWiFi cfg w).
Proof.
  intros s.
  destruct (connectToWiFi_run cfg w s) as (k & found & Hrun & _).
  cbv zeta in Hrun. rewrite Hrun. cbn [final].
  assert (I : forall n, f (Nat.iter n tick_status s) = f s).
  { induction n as [ | n IH ]; [ reflexivity | ].
    change (Nat.iter (S n) tick_status s)
      with (tick_status (Nat.iter n tick_status s)).
    now rewrite f_status. }
  destruct (wifi_status_at w _); [ rewrite f_identity | ]; apply I.
Qed.

Lemma keeps_reconnect_link (fuel : nat) : keeps f (reconnect_link cfg w fuel).
Proof.
  unfold reconnect_link.
  apply keeps_bind; [ | intros _; apply keeps_while ];
    apply keeps_assign; auto using keeps_connectToWiFi.
Qed.

End Link.

Section Session.

Hypothesis f_connect : forall s, f (tick_connect s) = f s.
Hypothesis f_state : forall s, f (tick_state s) = f s.

Lemma keeps_connectToMqtt : keeps f (connectToMqtt cfg w).
Proof.
  unfold connectToMqtt.
  keeps_with ltac:(auto).
Qed.

Lemma keeps_reconnect_session (fuel : nat) :
  keeps f (reconnect_session cfg w fuel).
Proof.
  unfold reconnect_session.
  apply keeps_bind; [ | intros _; apply keeps_while ].
  - apply keeps_assign; auto using keeps_connectToMqtt.
  - apply keeps_bind; [ apply keeps_emit | intros _ ].
    apply keeps_assign; auto using keeps_connectToMqtt.
Qed.

End Session.

End SketchKeeps.

(** ** The start-up sequence *)

Definition setup_banner : list Event :=
  [ESerialBegin 9600;
   ESerial (NL +++ NL +++ "-------------------- START --------------------"
               +++ NL)].

Definition sensor_start : list Event :=
  [EHcsrBegin PIN_HCSR04_TRIG PIN_HCSR04_ECHO;
   ESerial ("[+] Distance sensor HC-SR04 initialized." +++ NL)].

Lemma setup_of_exact (link_sequence session_sequence : M unit) (s : State) :
  let r1 := link_sequence s in
  let r2 := session_sequence (final r1) in
  setup_of link_sequence session_sequence s =
  mkRun (match result r1 with Some _ => result r2 | None => None end)
        (match result r1 with Some _ => final r2 | None => final r1 end)
        (setup_banner ++ emitted r1 ++
         match result r1 with
         | Some _ => emitted r2 ++ match result r2 with
                                   | Some _ => sensor_start
                                   | None => []
                                   end
         | None => []
         end).
Proof.
  cbv zeta. unfold setup_of, setup_banner, sensor_start.
  do 2 bind_step. rewrite bind_unfold.
  generalize (link_sequence s).
  intros [ [ [] | ] s1 e1 ]; cbn [result final emitted app];
    [ | rewrite ?app_nil_r; reflexivity ].
  rewrite bind_unfold.
  generalize (session_sequence s1).
  intros [ [ [] | ] s2 e2 ]; cbn [result final emitted app];
    [ | rewrite ?app_nil_r; reflexivity ].
  do 1 bind_step. reflexivity.
Qed.

(** X3. [setup] opens the serial port and writes the banner first; it takes
    no measurement and publishes nothing, and leaves [hcsr_value] as it was.
    When it returns, both connection sequences have succeeded, in this
    order, each confined to its own collaborator, [exit_status_code] is 0,
    and the sensor driver was started last.  It does return, without any
    retry, when the link is up and the broker accepts. *)
Theorem setup_sequence : forall cfg w fuel s,
  let r := setup cfg w fuel s in
  (exists rest, emitted r = setup_banner ++ rest) /\
  Forall (fun e => is_sensor_or_publish e = false) (emitted r) /\
  hcsr_value (final r) = hcsr_value s /\
  (result r = Some tt ->
   exit_status_code (final r) = 0 /\
   exists link_phase session_phase,
     emitted r = setup_banner ++ link_phase ++ session_phase ++ sensor_start /\
     Forall (fun e => is_session_call e = false) link_phase /\
     Forall (fun e => is_link_call e = false) session_phase /\
     (exists l, status_reads link_phase = l ++ [true]) /\
     (exists l, session_attempts session_phase = l ++ [true])) /\
  (wifi_status_at w (n_status s) = true ->
   wifi_status_at w (S (n_status s)) = true ->
   mqtt_connect_at w (n_connect s) = true ->
   result r = Some tt /\
   status_reads (emitted r) = [true; true] /\
   session_attempts (emitted r) = [true] /\
   delays (emitted r) = []).
Proof.
  intros cfg w fuel s r. subst r.
  rewrite setup_shape.
  rewrite setup_of_exact. cbv zeta. cbn [result final emitted].
  set (r1 := reconnect_link cfg w fuel s).
  set (r2 := reconnect_session cfg w fuel (final r1)).
  assert (L1 : Forall (fun e => is_session_call e = false) (emitted r1))
    by (apply emits_reconnect_link; intros; reflexivity).
  assert (L2 : Forall (fun e => is_link_call e = false) (emitted r2))
    by (apply emits_reconnect_session; intros; reflexivity).
  assert (M1 : Forall (fun e => is_sensor_or_publish e = false) (emitted r1))
    by (apply emits_reconnect_link; intros; reflexivity).
  assert (M2 : Forall (fun e => is_sensor_or_publish e = false) (emitted r2))
    by (apply emits_reconnect_session; intros; reflexivity).
  assert (K1 : hcsr_value (final r1) = hcsr_value s)
    by (apply (keeps_reconnect_link cfg w hcsr_value); reflexivity).
  assert (K2 : hcsr_value (final r2) = hcsr_value (final r1))
    by (apply (keeps_reconnect_session cfg w hcsr_value); reflexivity).
  split; [ | split; [ | split; [ | split ] ] ].
  - eexists. reflexivity.
  - apply Forall_app. split; [ repeat constructor | ].
    apply Forall_app. split; [ exact M1 | ].
    destruct (result r1); [ | constructor ].
    apply Forall_app. split; [ exact M2 | ].
    destruct (result r2); repeat constructor.
  - destruct (result r1); [ now rewrite K2 | exact K1 ].
  - destruct (result r1) as [ [] | ] eqn:R1; [ | discriminate ].
    intros R2. rewrite R2.
    destruct (reconnect_link_ends_connected cfg w fuel s R1) as (_ & l1 & Hl1).
    destruct (reconnect_session_ends_accepted cfg w fuel (final r1) R2)
      as (Hzero & l2 & Hl2).
    split; [ exact Hzero | ].
    exists (emitted r1), (emitted r2).
    split; [ reflexivity | ].
    split; [ exact L1 | ]. split; [ exact L2 | ].
    split; [ now exists l1 | now exists l2 ].
  - intros H0 H1 Hacc.
    destruct (reconnect_link_immediate cfg w fuel s H0 H1)
      as (R1 & S1 & D1 & C1).
    cbv zeta in R1, S1, D1, C1. fold r1 in R1, S1, D1, C1.
    destruct (reconnect_session_until_accepted cfg w 0 fuel (final r1))
      as (R2 & _ & A2 & D2);
      [ intros; lia | rewrite Nat.add_0_r, C1; exact Hacc | lia | ].
    cbv zeta in R2, D2, A2. fold r2 in R2, D2, A2.
    rewrite R1, R2.
    split; [ reflexivity | ].
    rewrite !status_reads_app, !session_attempts_app, !delays_app.
    rewrite S1, A2, D1.
    rewrite (session_attempts_none _ L1), (status_reads_none _ L2).
    split; [ reflexivity | ]. split; [ reflexivity | ].
    cbn [setup_banner sensor_start delays flat_map app].
    rewrite app_nil_r. exact D2.
Qed.

(** ** Joining the network *)

(** The one join the configuration allows: the configured network, without
    a passphrase for an open network, with the configured one for WPA-PSK;
    no join at all for the other key types. *)
Definition configured_join (cfg : Config) : list (string * option string) :=
  if wifi_key cfg =? KEY_NONE then [(wifi_essid cfg, None)]
  else if wifi_key cfg =? KEY_WPA_PSK
       then [(wifi_essid cfg, Some (wifi_password cfg))]
       else [].

Definition join_as_configured (cfg : Config) (e : Event) : Prop :=
  match e with
  | EWifiBegin essid password => In (essid, password) (configured_join cfg)
  | _ => True
  end.

Lemma joins_app (a b : list Event) : joins (a ++ b) = joins a ++ joins b.
Proof. apply flat_map_app. Qed.

Lemma joins_none (tr : list Event) :
  Forall (fun e => match e with EWifiBegin _ _ => False | _ => True end) tr ->
  joins tr = [].
Proof.
  induction 1 as [ | e tr He _ IH ]; [ reflexivity | ].
  destruct e; try contradiction; exact IH.
Qed.

Lemma joins_wait_trace (k : nat) (found : bool) : joins (wait_trace k found) = [].
Proof.
  induction k as [ | k IH ]; cbn [wait_trace].
  - now destruct found.
  - rewrite joins_app, IH. reflexivity.
Qed.

Lemma joins_connectToWiFi (cfg : Config) (w : World) (s : State) :
  joins (emitted (connectToWiFi cfg w s)) = configured_join cfg.
Proof.
  destruct (connectToWiFi_run cfg w s) as (k & found & Hrun & _).
  cbv zeta in Hrun. rewrite Hrun. cbn [emitted].
  rewrite !joins_app, joins_wait_trace.
  unfold link_connect_head, configured_join.
  destruct (wifi_key cfg =? KEY_NONE); [ | destruct (wifi_key cfg =? KEY_WPA_PSK) ];
    destruct (wifi_status_at w _); reflexivity.
Qed.

(** As [emits_with], for routines some of whose parts are covered by a lemma:
    [leaf] is tried on a routine before it is split. *)
Ltac emits_by leaf :=
  repeat first
    [ solve [ leaf ]
    | apply emits_ret
    | apply emits_get
    | apply emits_modify
    | apply emits_out_of_fuel
    | apply emits_bind; [ | intro ]
    | match goal with
      | |- always_emits _ (if ?b then _ else _) => destruct b
      end
    | (intros ?; cbn; repeat constructor; solve [ leaf ]) ].

(** Events of the whole sketch, given what [connectToWiFi] emits. *)
Section SketchEventsByLink.

Variable cfg : Config.
Variable w : World.
Variable P : Event -> Prop.

Hypothesis P_link : always_emits P (connectToWiFi cfg w).
Hypothesis P_serial : forall t, P (ESerial t).
Hypothesis P_delay : forall ms, P (EDelay ms).
Hypothesis P_status : forall b, P (EWifiStatus b).
Hypothesis P_setServer : forall h p, P (EMqttSetServer h p).
Hypothesis P_connect : forall c u p b, P (EMqttConnect c u p b).
Hypothesis P_state : forall c, P (EMqttState c).
Hypothesis P_publish : forall t p b, P (EMqttPublish t p b).
Hypothesis P_serial_begin : forall baud, P (ESerialBegin baud).
Hypothesis P_hcsr_begin : forall t e, P (EHcsrBegin t e).
Hypothesis P_measure : forall d, P (EHcsrMeasure d).

Lemma emits_reconnect_link_by (fuel : nat) :
  always_emits P (reconnect_link cfg w fuel).
Proof.
  unfold reconnect_link.
  apply emits_bind; [ | intros _; apply emits_while ];
    apply emits_assign; exact P_link.
Qed.

Lemma emits_setup_by (fuel : nat) : always_emits P (setup cfg w fuel).
Proof.
  unfold setup.
  emits_by ltac:(auto using emits_reconnect_link_by, emits_reconnect_session).
Qed.

Lemma emits_loop_by (fuel : nat) : always_emits P (loop cfg w fuel).
Proof.
  unfold loop, getDistanceCm.
  emits_by ltac:(auto using emits_reconnect_link_by, emits_reconnect_session,
                   emits_assign, emits_healthCheck, emits_sendJsonToMqttBroker).
Qed.

Lemma emits_sketch_by (fuel cycles : nat) :
  always_emits P (sketch cfg w fuel cycles).
Proof.
  unfold sketch.
  apply emits_bind; [ apply emits_setup_by | intros _ ].
  induction cycles as [ | n IH ]; cbn [loop_cycles].
  - apply emits_ret.
  - apply emits_bind; [ apply emits_loop_by | intros _; exact IH ].
Qed.

End SketchEventsByLink.

(** X4. Each call of [connectToWiFi] starts at most one join, before any
    status read: for an open network the configured name without a
    passphrase, for WPA-PSK the configured name and passphrase, and for every
    other key type none at all, although the call then still polls the link
    and decides by its status.  In every run of the sketch each join is the
    configured one; with a key type other than these two the sketch never
    calls [WiFi.begin]. *)
Theorem join_by_auth_mode : forall cfg w fuel cycles s,
  joins (emitted (connectToWiFi cfg w s)) = configured_join cfg /\
  status_reads (link_connect_head cfg) = [] /\
  (exists polled, emitted (connectToWiFi cfg w s) = link_connect_head cfg ++ polled
                  /\ joins polled = [] /\ status_reads polled <> []) /\
  Forall (join_as_configured cfg) (emitted (sketch cfg w fuel cycles s)) /\
  (wifi_key cfg <> KEY_NONE -> wifi_key cfg <> KEY_WPA_PSK ->
   joins (emitted (sketch cfg w fuel cycles s)) = []).
Proof.
  intros cfg w fuel cycles s.
  assert (Hcall : always_emits (join_as_configured cfg) (connectToWiFi cfg w)).
  { intros s0.
    destruct (connectToWiFi_run cfg w s0) as (k & found & Hrun & _).
    cbv zeta in Hrun. rewrite Hrun. cbn [emitted].
    apply Forall_app. split.
    - unfold link_connect_head. apply Forall_app. split.
      + repeat constructor.
      + unfold configured_join, join_as_configured.
        destruct (wifi_key cfg =? KEY_NONE) eqn:E1;
          [ | destruct (wifi_key cfg =? KEY_WPA_PSK) eqn:E2 ];
          repeat constructor; unfold configured_join; rewrite ?E1, ?E2;
          now left.
    - apply Forall_app. split.
      + clear. induction k as [ | k IH ]; cbn [wait_trace].
        * destruct found; repeat constructor.
        * apply Forall_app. split; [ repeat constructor | exact IH ].
      + destruct (wifi_status_at w _); repeat constructor. }
  assert (Hall : Forall (join_as_configured cfg)
                        (emitted (sketch cfg w fuel cycles s)))
    by (apply emits_sketch_by; try exact Hcall; intros; exact I).
  split; [ apply joins_connectToWiFi | ].
  split.
  { unfold link_connect_head.
    destruct (wifi_key cfg =? KEY_NONE); [ | destruct (wifi_key cfg =? KEY_WPA_PSK) ];
      reflexivity. }
  split; [ | split; [ exact Hall | ] ].
  - destruct (connectToWiFi_run cfg w s) as (k & found & Hrun & _).
    cbv zeta in Hrun. rewrite Hrun. cbn [emitted].
    eexists. split; [ reflexivity | ]. split.
    + rewrite joins_app, joins_wait_trace.
      destruct (wifi_status_at w _); reflexivity.
    + rewrite status_reads_app.
      change (status_reads (EWifiStatus ?b :: ?l)) with (b :: status_reads l).
      intros H. apply app_eq_nil in H. destruct H as [_ H]. discriminate.
  - intros N1 N2. apply joins_none.
    revert Hall. apply Forall_impl. intros e.
    destruct e; try (intros; exact I).
    unfold join_as_configured, configured_join.
    destruct (Z.eqb_spec (wifi_key cfg) KEY_NONE); [ contradiction | ].
    destruct (Z.eqb_spec (wifi_key cfg) KEY_WPA_PSK); [ contradiction | ].
    intros [].
Qed.

(** ** The frame of a turn *)

(** X5. Every turn of [loop] that returns has the same frame, in the
    publishing branch as in the recovery branch: it starts with exactly one
    measurement and one link status read, ends with the wait of the resend
    timeout, and calls the sensor nowhere in between; the rounded measurement
    is in [hcsr_value] when the turn ends, whether or not it was published;
    [exit_status_code] ends as 0 after a recovery and after a publish the
    broker took, and as 1 after a publish it refused. *)
Theorem turn_frame : forall cfg w fuel s,
  let r := loop cfg w fuel s in
  let up := wifi_status_at w (n_status s) in
  result r = Some tt ->
  exists body,
    emitted r =
      EHcsrMeasure (hcsr_measure_at w (n_measure s)) :: EWifiStatus up ::
      body ++ [EDelay (json_resend_timeout cfg)] /\
    Forall (fun e => is_sensor_call e = false) body /\
    hcsr_value (final r) = sampled_value w s /\
    n_measure (final r) = S (n_measure s) /\
    exit_status_code (final r) =
      (if up then (if mqtt_publish_at w (n_publish s) then 0 else 1) else 0).
Proof.
  intros cfg w fuel s r up. subst r up.
  rewrite loop_shape, turn_run. cbv zeta.
  destruct (wifi_status_at w (n_status s)) eqn:E.
  - rewrite publication_of_run. cbv zeta. cbn [result final emitted].
    intros _. eexists. split; [ reflexivity | ].
    split; [ unfold publish_report; repeat constructor | ].
    state_fields. repeat split.
  - fold (recovery_state w s). rewrite recovery_of_run. cbv zeta.
    set (r1 := reconnect_link cfg w fuel (recovery_state w s)).
    set (r2 := reconnect_session cfg w fuel (final r1)).
    assert (L1 : Forall (fun e => is_sensor_call e = false) (emitted r1))
      by (apply emits_reconnect_link; intros; reflexivity).
    assert (L2 : Forall (fun e => is_sensor_call e = false) (emitted r2))
      by (apply emits_reconnect_session; intros; reflexivity).
    assert (K1 : hcsr_value (final r1) = hcsr_value (recovery_state w s))
      by (apply (keeps_reconnect_link cfg w hcsr_value); reflexivity).
    assert (K2 : hcsr_value (final r2) = hcsr_value (final r1))
      by (apply (keeps_reconnect_session cfg w hcsr_value); reflexivity).
    assert (N1 : n_measure (final r1) = n_measure (recovery_state w s))
      by (apply (keeps_reconnect_link cfg w n_measure); reflexivity).
    assert (N2 : n_measure (final r2) = n_measure (final r1))
      by (apply (keeps_reconnect_session cfg w n_measure); reflexivity).
    cbn [result final emitted].
    destruct (result r1) as [ [] | ] eqn:R1; [ | discriminate ].
    destruct (result r2) as [ [] | ] eqn:R2; [ | discriminate ].
    intros _.
    destruct (reconnect_session_ends_accepted cfg w fuel (final r1) R2)
      as (Hzero & _).
    exists (lost_link_notice cfg ++ emitted r1 ++ emitted r2).
    split; [ now rewrite <- !app_assoc | ].
    split.
    { apply Forall_app. split; [ repeat constructor | ].
      apply Forall_app. split; assumption. }
    rewrite K2, K1, N2, N1. repeat split. exact Hzero.
Qed.

Lemma turn_frame_witness :
  exists body,
    emitted (loop sketch_config calm_world 0 initial_state) =
      EHcsrMeasure (DFinite (42 # 1)) :: EWifiStatus true ::
      body ++ [EDelay 1000] /\
    hcsr_value (final (loop sketch_config calm_world 0 initial_state)) = 42.
Proof.
  destruct (turn_frame sketch_config calm_world 0 initial_state eq_refl)
    as (body & H1 & _ & H3 & _).
  exists body. split; [ exact H1 | exact H3 ].
Defined.

(** X6. A turn of [loop] reads neither global before writing it: it behaves
    the same, event for event and in the state it leaves, whatever
    [exit_status_code] and [hcsr_value] the previous turn left behind.  A
    publish that failed is therefore never taken up again, and the reading of
    a turn that could not publish is never sent later. *)
Theorem loop_overwrites_globals : forall cfg w fuel s code value,
  loop cfg w fuel (set_exit_status_code code (set_hcsr_value value s)) =
  loop cfg w fuel s.
Proof.
  intros cfg w fuel s code value.
  rewrite loop_shape.
  rewrite (turn_run cfg w _ _ (set_exit_status_code code (set_hcsr_value value s))).
  rewrite (turn_run cfg w _ _ s).
  cbv zeta. reflexivity.
Qed.

(** ** Telemetry message: its length *)

Lemma length_append (a b : string) :
  String.length (a +++ b) = (String.length a + String.length b)%nat.
Proof.
  induction a as [ | c a IH ]; [ reflexivity | ].
  rewrite append_String. cbn [String.length]. now rewrite IH.
Qed.

Lemma write_escaped_length (s : string) :
  (String.length s <= String.length (write_escaped s) <= 2 * String.length s)%nat.
Proof.
  induction s as [ | c s IH ]; [ cbn; lia | ].
  cbn [write_escaped]. destruct (escape_letter c); cbn [String.length]; lia.
Qed.

(** Digits read most significant first are worth at least a power of ten. *)
Lemma of_uint_acc_lower (d : Decimal.uint) : forall acc : positive,
  Z.pos acc * 10 ^ Z.of_nat (String.length (NilEmpty.string_of_uint d))
  <= Z.pos (Pos.of_uint_acc d acc).
Proof.
  induction d as [ | d IH | d IH | d IH | d IH | d IH | d IH | d IH | d IH
                   | d IH | d IH ]; intros acc;
    cbn [NilEmpty.string_of_uint String.length Pos.of_uint_acc];
    [ cbn [Z.of_nat]; rewrite Z.pow_0_r; lia | .. ];
    rewrite Nat2Z.inj_succ, Z.pow_succ_r by lia;
    (eapply Z.le_trans; [ | apply IH ]);
    rewrite Z.mul_assoc; apply Z.mul_le_mono_nonneg_r;
    try (apply Z.pow_nonneg; lia); lia.
Qed.

(** The decimal rendering of a positive number has no leading zero. *)
Lemma to_uint_head (p : positive) :
  match Pos.to_uint p with
  | Decimal.Nil | Decimal.D0 _ => False
  | _ => True
  end.
Proof.
  pose proof (DecimalPos.Unsigned.to_of (Pos.to_uint p)) as H.
  rewrite DecimalPos.Unsigned.of_to in H. cbn [N.to_uint] in H.
  pose proof (DecimalPos.Unsigned.to_uint_nonzero p) as Hz.
  pose proof (DecimalPos.Unsigned.to_uint_nonnil p) as Hn.
  destruct (Pos.to_uint p) as [ | d | d | d | d | d | d | d | d | d | d ];
    try exact I; try contradiction.
  exfalso. unfold Decimal.unorm in H. cbn [Decimal.nzhead] in H.
  pose proof (DecimalFacts.nb_digits_nzhead d) as Hle.
  destruct (Decimal.nzhead d) as [ | u | u | u | u | u | u | u | u | u | u ] eqn:E;
    try discriminate H.
  - apply Hz. exact H.
  - injection H as H. subst u. cbn [Decimal.nb_digits] in Hle. lia.
Qed.

(** A positive number has at most as many digits as its size allows. *)
Lemma to_uint_length (p : positive) :
  10 ^ (Z.of_nat (String.length (NilEmpty.string_of_uint (Pos.to_uint p))) - 1)
  <= Z.pos p.
Proof.
  pose proof (to_uint_head p) as Hhead.
  pose proof (DecimalPos.Unsigned.of_to p) as Hof.
  destruct (Pos.to_uint p) as [ | d | d | d | d | d | d | d | d | d | d ];
    try contradiction;
    cbn [NilEmpty.string_of_uint String.length];
    cbn [Pos.of_uint] in Hof; injection Hof as Hof; rewrite <- Hof;
    rewrite Nat2Z.inj_succ;
    replace (Z.succ (Z.of_nat (String.length (NilEmpty.string_of_uint d))) - 1)
      with (Z.of_nat (String.length (NilEmpty.string_of_uint d))) by lia;
    (eapply Z.le_trans; [ | apply of_uint_acc_lower ]);
    assert (0 <= 10 ^ Z.of_nat (String.length (NilEmpty.string_of_uint d)))
      by (apply Z.pow_nonneg; lia);
    nia.
Qed.

(** An [int] is written with at most 11 characters, sign included. *)
Lemma dec_length (v : Z) :
  INT_MIN <= v <= INT_MAX -> (1 <= String.length (dec v) <= 11)%nat.
Proof.
  unfold INT_MIN, INT_MAX, dec. intros Hv.
  assert (Hpos : forall p, Z.pos p < 10 ^ 10 ->
            (1 <= String.length (NilZero.string_of_uint (Pos.to_uint p)) <= 10)%nat).
  { intros p Hp.
    pose proof (to_uint_length p) as Hlen.
    pose proof (to_uint_head p) as Hhead.
    assert (E : NilZero.string_of_uint (Pos.to_uint p)
                = NilEmpty.string_of_uint (Pos.to_uint p))
      by (destruct (Pos.to_uint p); [ contradiction | reflexivity .. ]).
    rewrite E.
    set (n := String.length (NilEmpty.string_of_uint (Pos.to_uint p))) in *.
    split.
    - destruct (Pos.to_uint p); try contradiction; subst n;
        cbn [NilEmpty.string_of_uint String.length]; lia.
    - destruct (Nat.le_gt_cases n 10) as [ Hle | Hgt ]; [ exact Hle | exfalso ].
      assert (10 ^ 10 <= 10 ^ (Z.of_nat n - 1))
        by (apply Z.pow_le_mono_r; lia).
      lia. }
  destruct v as [ | p | p ]; cbn [Z.to_int NilZero.string_of_int].
  - cbn. lia.
  - assert (Z.pos p < 10 ^ 10) by (change (10 ^ 10) with 10000000000; lia).
    specialize (Hpos p H). lia.
  - cbn [String.length].
    assert (Z.pos p < 10 ^ 10) by (change (10 ^ 10) with 10000000000; lia).
    specialize (Hpos p H). lia.
Qed.

Lemma serializeJson_length (name : string) (v : Z) :
  String.length (serializeJson (json_data name v)) =
  (28 + String.length (write_escaped name) + String.length (dec v))%nat.
Proof.
  rewrite serializeJson_json_data, !length_append.
  cbn [String.length QUOTE]. lia.
Qed.

Lemma substring_whole_iff (s : string) (n : nat) :
  substring 0 n s = s <-> (String.length s <= n)%nat.
Proof.
  split; [ | apply substring_all ].
  intros H. destruct (Nat.le_gt_cases (String.length s) n) as [ Hle | Hgt ];
    [ exact Hle | ].
  pose proof (substring_length s n ltac:(lia)) as L. rewrite H in L. lia.
Qed.

(** X7. The message the sketch builds has 28 characters of layout around
    the escaped device name and the decimal value.  It is handed to [publish]
    unabridged exactly when the escaped name and the value together take at
    most 99 characters; otherwise the broker receives 127 characters, fewer
    than the serial port shows. *)
Theorem message_fits_iff : forall cfg w s,
  let name := json_device_name cfg in
  let doc := json_data name (hcsr_value s) in
  let written := (String.length (write_escaped name)
                  + String.length (dec (hcsr_value s)))%nat in
  String.length (serializeJson doc) = (28 + written)%nat /\
  (publishes (emitted (sendJsonToMqttBroker cfg w s)) =
     [(mqtt_topic cfg, serializeJson doc, mqtt_publish_at w (n_publish s))]
   <-> (written <= 99)%nat) /\
  ((99 < written)%nat ->
   exists payload sent,
     publishes (emitted (sendJsonToMqttBroker cfg w s)) =
       [(mqtt_topic cfg, payload, sent)] /\
     String.length payload = 127%nat /\
     (String.length payload < String.length (serializeJson doc))%nat).
Proof.
  intros cfg w s name doc written. subst name doc written.
  pose proof (serializeJson_length (json_device_name cfg) (hcsr_value s)) as L.
  rewrite sendJsonToMqttBroker_run. cbv zeta. cbn [emitted].
  change (publishes [ESerial ?a; ESerial ?b; ESerial ?c; EMqttPublish ?t ?p ?x])
    with [(t, p, x)].
  split; [ exact L | ]. split.
  - split.
    + intros H.
      assert (H' : serializeJson_to 128
                     (json_data (json_device_name cfg) (hcsr_value s))
                   = serializeJson
                       (json_data (json_device_name cfg) (hcsr_value s)))
        by congruence.
      unfold serializeJson_to in H'.
      apply substring_whole_iff in H'. cbn [Nat.sub] in H'. lia.
    + intros H. rewrite serializeJson_to_fits by lia. reflexivity.
  - intros H. eexists _, _. split; [ reflexivity | ].
    unfold serializeJson_to. change (128 - 1)%nat with 127%nat.
    rewrite substring_length by lia. lia.
Qed.

(** X8. A device name of at most 44 characters always fits, whatever it
    contains and whatever [int] was measured: the message has at most 127
    characters, the broker is handed the same text as the serial port, and
    that text reads back as the name and the value. *)
Theorem short_names_fit : forall cfg w s,
  (String.length (json_device_name cfg) <= 44)%nat ->
  INT_MIN <= hcsr_value s <= INT_MAX ->
  let doc := json_data (json_device_name cfg) (hcsr_value s) in
  (String.length (serializeJson doc) <= 127)%nat /\
  emitted (sendJsonToMqttBroker cfg w s) =
    [ESerial "    "; ESerial (serializeJson doc); ESerial NL;
     EMqttPublish (mqtt_topic cfg) (serializeJson doc)
                  (mqtt_publish_at w (n_publish s))] /\
  decode (serializeJson doc) =
    Some (mkTelemetry (json_device_name cfg) (hcsr_value s)).
Proof.
  intros cfg w s Hname Hv doc. subst doc.
  pose proof (serializeJson_length (json_device_name cfg) (hcsr_value s)) as L.
  pose proof (write_escaped_length (json_device_name cfg)) as E.
  pose proof (dec_length (hcsr_value s) Hv) as D.
  assert (F : (String.length
                 (serializeJson (json_data (json_device_name cfg) (hcsr_value s)))
               <= 127)%nat) by lia.
  split; [ exact F | ]. split.
  - rewrite sendJsonToMqttBroker_run. cbv zeta.
    now rewrite (serializeJson_to_fits _ F).
  - apply decode_serializeJson.
Qed.

Lemma short_names_fit_witness :
  (String.length
     (serializeJson (json_data "ESP32" (-2147483648))) <= 127)%nat /\
  decode (serializeJson (json_data "ESP32" (-2147483648))) =
    Some (mkTelemetry "ESP32" (-2147483648)).
Proof.
  pose proof (short_names_fit sketch_config calm_world
                (set_hcsr_value (-2147483648) initial_state)) as H.
  cbv zeta in H.
  destruct H as (H1 & _ & H3).
  - cbn. lia.
  - cbn. unfold INT_MIN, INT_MAX. lia.
  - split; [ exact H1 | exact H3 ].
Defined.

(** ** The stored reading *)

(** Whatever a turn of [loop] goes on to do, and even when a connection
    sequence runs out of fuel, it has taken one measurement and stored its
    rounding. *)
Lemma loop_stores_sample (cfg : Config) (w : World) (fuel : nat) (s : State) :
  hcsr_value (final (loop cfg w fuel s)) = sampled_value w s /\
  n_measure (final (loop cfg w fuel s)) = S (n_measure s).
Proof.
  rewrite loop_shape, turn_run. cbv zeta. cbn [final].
  destruct (wifi_status_at w (n_status s)).
  - rewrite publication_of_run. cbv zeta. cbn [final]. split; reflexivity.
  - fold (recovery_state w s). rewrite recovery_of_run. cbv zeta. cbn [final].
    set (r1 := reconnect_link cfg w fuel (recovery_state w s)).
    set (r2 := reconnect_session cfg w fuel (final r1)).
    assert (K1 : hcsr_value (final r1) = hcsr_value (recovery_state w s))
      by (apply (keeps_reconnect_link cfg w hcsr_value); reflexivity).
    assert (K2 : hcsr_value (final r2) = hcsr_value (final r1))
      by (apply (keeps_reconnect_session cfg w hcsr_value); reflexivity).
    assert (N1 : n_measure (final r1) = n_measure (recovery_state w s))
      by (apply (keeps_reconnect_link cfg w n_measure); reflexivity).
    assert (N2 : n_measure (final r2) = n_measure (final r1))
      by (apply (keeps_reconnect_session cfg w n_measure); reflexivity).
    destruct (result r1); [ rewrite K2, N2 | ]; rewrite K1, N1; split; reflexivity.
Qed.

(** Every turn starts with its one measurement; the rest of the turn leaves
    the sensor alone. *)
Lemma loop_trace_shape (cfg : Config) (w : World) (fuel : nat) (s : State) :
  exists rest,
    emitted (loop cfg w fuel s) =
      EHcsrMeasure (hcsr_measure_at w (n_measure s)) :: rest /\
    Forall (fun e => is_sensor_call e = false) rest.
Proof.
  rewrite loop_shape, turn_run. cbv zeta. cbn [emitted].
  eexists. split; [ reflexivity | ].
  constructor; [ reflexivity | ].
  set (b := wifi_status_at w (n_status s)).
  set (s2 := set_exit_status_code _ _).
  assert (P : Forall (fun e => is_sensor_call e = false)
                (emitted ((if b then publication_of cfg w
                           else recovery_of cfg (reconnect_link cfg w fuel)
                                  (reconnect_session cfg w fuel)) s2))).
  { destruct b.
    - rewrite publication_of_run. cbv zeta. cbn [emitted].
      unfold publish_report. repeat constructor.
    - rewrite recovery_of_run. cbv zeta. cbn [emitted].
      apply Forall_app. split; [ repeat constructor | ].
      apply Forall_app. split.
      + apply emits_reconnect_link; intros; reflexivity.
      + destruct (result _); [ | constructor ].
        apply emits_reconnect_session; intros; reflexivity. }
  apply Forall_app. split; [ exact P | ].
  destruct (result _); repeat constructor.
Qed.

Lemma truncate_inject_Z (z : Z) : truncate (inject_Z z) = z.
Proof.
  unfold truncate.
  destruct (Qle_bool 0 (inject_Z z)); [ apply Qfloor_Z | apply Qceiling_Z ].
Qed.

Lemma round_half_away_bounds (q : Q) :
  ((0 <= q -> q - (1 # 2) < inject_Z (round_half_away q) <= q + (1 # 2)) /\
   (q < 0 -> q - (1 # 2) <= inject_Z (round_half_away q) < q + (1 # 2)))%Q.
Proof.
  unfold round_half_away. split; intros Hq.
  - assert (E : Qle_bool 0 q = true) by (now apply Qle_bool_iff).
    rewrite E.
    pose proof (Qfloor_le (q + (1 # 2))) as H1.
    pose proof (Qlt_floor (q + (1 # 2))) as H2.
    rewrite inject_Z_plus in H2. change (inject_Z 1) with 1%Q in H2.
    split; lra.
  - assert (E : Qle_bool 0 q = false).
    { destruct (Qle_bool 0 q) eqn:E; [ | reflexivity ].
      apply Qle_bool_iff in E. lra. }
    rewrite E.
    pose proof (Qle_ceiling (q - (1 # 2))) as H1.
    pose proof (Qceiling_lt (q - (1 # 2))) as H2.
    unfold Z.sub in H2. rewrite inject_Z_plus in H2.
    change (inject_Z (- (1))) with (- (1))%Q in H2.
    split; lra.
Qed.

Lemma round_half_away_range (q : Q) :
  (inject_Z INT_MIN <= q <= inject_Z INT_MAX)%Q ->
  INT_MIN <= round_half_away q <= INT_MAX.
Proof.
  intros [Hlo Hhi].
  destruct (round_half_away_bounds q) as [Hpos Hneg].
  assert (I : forall a b : Z, (inject_Z a < inject_Z b + 1)%Q -> a <= b).
  { intros a b H. change 1%Q with (inject_Z 1) in H.
    rewrite <- inject_Z_plus, <- Zlt_Qlt in H. lia. }
  destruct (Qlt_le_dec q 0) as [ Hq | Hq ].
  - specialize (Hneg Hq). split.
    + apply I. unfold INT_MIN in *. lra.
    + apply I. unfold INT_MAX in *.
      assert (inject_Z INT_MIN <= 0)%Q by (unfold INT_MIN; cbn; discriminate).
      change (inject_Z 2147483647) with (2147483647 # 1)%Q. lra.
  - specialize (Hpos Hq). split.
    + apply I. unfold INT_MIN.
      change (inject_Z (-2147483648)) with (-2147483648 # 1)%Q. lra.
    + apply I. unfold INT_MAX in *. lra.
Qed.

(** X9. For a finite measurement within the range of [int], the value a
    turn stores in [hcsr_value] is the integer nearest to the measurement,
    halfway cases going away from zero: it lies in the half-open interval of
    width one around the measurement that is closed on the far side of
    zero.  It is an [int], so the conversion stays defined. *)
Theorem stored_reading_is_nearest : forall cfg w fuel s q,
  hcsr_measure_at w (n_measure s) = DFinite q ->
  (inject_Z INT_MIN <= q <= inject_Z INT_MAX)%Q ->
  let v := hcsr_value (final (loop cfg w fuel s)) in
  v = round_half_away q /\
  INT_MIN <= v <= INT_MAX /\
  ((0 <= q -> q - (1 # 2) < inject_Z v <= q + (1 # 2)) /\
   (q < 0 -> q - (1 # 2) <= inject_Z v < q + (1 # 2)))%Q.
Proof.
  intros cfg w fuel s q Hm Hq v. subst v.
  destruct (loop_stores_sample cfg w fuel s) as [Hv _]. rewrite Hv.
  pose proof (round_half_away_range q Hq) as Hr.
  assert (E : sampled_value w s = round_half_away q).
  { unfold sampled_value. rewrite Hm. unfold round, double_to_int.
    rewrite truncate_inject_Z.
    destruct (Z.leb_spec INT_MIN (round_half_away q)); [ | lia ].
    destruct (Z.leb_spec (round_half_away q) INT_MAX); [ | lia ].
    reflexivity. }
  rewrite E. split; [ reflexivity | ]. split; [ exact Hr | ].
  apply round_half_away_bounds.
Qed.

Lemma stored_reading_is_nearest_witness :
  hcsr_value (final (loop sketch_config halfway_world 0 initial_state)) = 3.
Proof.
  destruct (stored_reading_is_nearest sketch_config halfway_world 0
              initial_state (5 # 2) eq_refl) as (H & _).
  - split; unfold Qle; cbn; lia.
  - exact H.
Defined.

(** ** The sensor-only sketch *)

(** The value the [i]-th measurement from state [s] on is stored as. *)
Definition sample_at (w : World) (s : State) (i : nat) : Z :=
  double_to_int w (round (hcsr_measure_at w (n_measure s + i))).

Lemma serial_output_app (a b : list Event) :
  serial_output (a ++ b) = serial_output a +++ serial_output b.
Proof.
  induction a as [ | e a IH ]; [ reflexivity | ].
  cbn [app serial_output fold_right]. fold (serial_output (a ++ b)).
  fold (serial_output a). rewrite IH.
  destruct e; try reflexivity. now rewrite append_assoc.
Qed.

Lemma append_empty_r (s : string) : s +++ EmptyString = s.
Proof.
  induction s as [ | c s IH ]; [ reflexivity | ].
  rewrite append_String. now rewrite IH.
Qed.

Lemma fold_right_map_shift {A B C} (f : B -> C -> C) (g : A -> B) (e : C)
      (l : list A) :
  fold_right f e (map g l) = fold_right (fun x acc => f (g x) acc) e l.
Proof.
  induction l as [ | x l IH ]; [ reflexivity | ].
  cbn [map fold_right]. now rewrite IH.
Qed.

Definition sensor_only_turn (w : World) (s : State) : list Event :=
  [EHcsrMeasure (hcsr_measure_at w (n_measure s));
   ESerial "Measured distance: "; ESerial (dec (sampled_value w s));
   ESerial (" cm." +++ NL); EDelay 1000].

Lemma sensor_only_loop_run (w : World) (s : State) :
  SensorOnly.loop w s =
  mkRun (Some tt) (set_hcsr_value (sampled_value w s) (tick_measure s))
        (sensor_only_turn w s).
Proof.
  unfold SensorOnly.loop, SensorOnly.getDistanceCm, sampled_value,
    sensor_only_turn.
  repeat bind_step. reflexivity.
Qed.

Lemma serial_output_sensor_only_turn (w : World) (s : State) :
  serial_output (sensor_only_turn w s) =
  SensorOnly.reading_line (sampled_value w s).
Proof.
  unfold sensor_only_turn, SensorOnly.reading_line, serial_output.
  cbn [fold_right]. now rewrite append_empty_r.
Qed.

(** X10. The sensor-only sketch always returns and needs no connection:
    [cycles] turns take [cycles] measurements, print for each one line with
    its rounded value and nothing else, wait one second each, leave the last
    value in [hcsr_value], and call neither the WiFi stack nor the broker. *)
Theorem sensor_only_turns : forall w cycles s,
  let r := SensorOnly.loop_cycles w cycles s in
  result r = Some tt /\
  serial_output (emitted r) =
    fold_right (fun i rest => SensorOnly.reading_line (sample_at w s i) +++ rest)
               EmptyString (seq 0 cycles) /\
  delays (emitted r) = repeat 1000 cycles /\
  n_measure (final r) = (n_measure s + cycles)%nat /\
  hcsr_value (final r) =
    last (map (sample_at w s) (seq 0 cycles)) (hcsr_value s) /\
  Forall (fun e => is_link_call e = false /\ is_session_call e = false)
         (emitted r).
Proof.
  intros w cycles. induction cycles as [ | n IH ]; intros s r; subst r.
  - cbn [SensorOnly.loop_cycles ret result final emitted seq fold_right map
         last repeat].
    rewrite Nat.add_0_r. repeat split. constructor.
  - cbn [SensorOnly.loop_cycles].
    rewrite (bind_run_eq _ _ _ _ _ _ (sensor_only_loop_run w s)).
    cbn [result final emitted].
    set (s1 := set_hcsr_value (sampled_value w s) (tick_measure s)).
    destruct (IH s1) as (R & O & D & N & V & Q). cbv zeta in R, O, D, N, V, Q.
    assert (Hshift : forall i, sample_at w s1 i = sample_at w s (S i)).
    { intros i. unfold sample_at, s1. state_fields.
      now replace (S (n_measure s) + i)%nat with (n_measure s + S i)%nat by lia. }
    assert (H0 : sample_at w s 0 = sampled_value w s)
      by (unfold sample_at, sampled_value; now rewrite Nat.add_0_r).
    cbn [seq]. rewrite <- seq_shift.
    split; [ exact R | ]. split; [ | split; [ | split; [ | split ] ] ].
    + rewrite serial_output_app, O, serial_output_sensor_only_turn.
      cbn [fold_right]. rewrite H0, fold_right_map_shift. f_equal.
      clear - Hshift. induction (seq 0 n) as [ | i l IHl ]; [ reflexivity | ].
      cbn [fold_right]. now rewrite Hshift, IHl.
    + rewrite delays_app, D. reflexivity.
    + rewrite N. unfold s1. state_fields. lia.
    + rewrite V. cbn [map]. rewrite H0, map_map.
      rewrite (map_ext _ (fun i => sample_at w s (S i)) Hshift).
      unfold s1. state_fields. symmetry. apply last_cons_self.
    + apply Forall_app. split; [ | exact Q ].
      unfold sensor_only_turn. repeat constructor.
Qed.

(** X11. The telemetry sketch is the sensor-only sketch with connectivity
    added around the same sensor code: its [setup], when it returns, emits
    what the sensor-only [setup] emits with the two connection phases
    inserted between the banner and the start of the driver, and a turn of
    its [loop] takes the same measurement and stores the same value as a turn
    of the sensor-only [loop], in the publishing and in the recovery branch
    alike. *)
Theorem telemetry_extends_sensor_only : forall cfg w fuel s,
  emitted (SensorOnly.setup s) = setup_banner ++ sensor_start /\
  (result (setup cfg w fuel s) = Some tt ->
   exists connection,
     emitted (setup cfg w fuel s) = setup_banner ++ connection ++ sensor_start /\
     Forall (fun e => is_sensor_call e = false) connection) /\
  hcsr_value (final (loop cfg w fuel s)) =
    hcsr_value (final (SensorOnly.loop w s)) /\
  n_measure (final (loop cfg w fuel s)) =
    n_measure (final (SensorOnly.loop w s)) /\
  (exists rest, emitted (loop cfg w fuel s) =
                firstn 1 (emitted (SensorOnly.loop w s)) ++ rest
                /\ Forall (fun e => is_sensor_call e = false) rest).
Proof.
  intros cfg w fuel s.
  split; [ reflexivity | ]. split; [ | split; [ | split ] ].
  - rewrite setup_shape, setup_of_exact. cbv zeta. cbn [result emitted].
    set (r1 := reconnect_link cfg w fuel s).
    set (r2 := reconnect_session cfg w fuel (final r1)).
    assert (L1 : Forall (fun e => is_sensor_call e = false) (emitted r1))
      by (apply emits_reconnect_link; intros; reflexivity).
    assert (L2 : Forall (fun e => is_sensor_call e = false) (emitted r2))
      by (apply emits_reconnect_session; intros; reflexivity).
    destruct (result r1) as [ [] | ]; [ | discriminate ].
    destruct (result r2) as [ [] | ]; [ | discriminate ].
    intros _. exists (emitted r1 ++ emitted r2).
    split; [ now rewrite <- app_assoc | ].
    apply Forall_app. split; assumption.
  - rewrite sensor_only_loop_run. cbn [final]. state_fields.
    apply loop_stores_sample.
  - rewrite sensor_only_loop_run. cbn [final]. state_fields.
    apply loop_stores_sample.
  - rewrite sensor_only_loop_run. cbn [emitted sensor_only_turn firstn app].
    apply loop_trace_shape.
Qed.

(** ** The installation script *)

Lemma install_step_run (h : Install.Host) (last : bool) (c : Install.Command)
      (ok error : string) :
  Install.ran (Install.run h last (Install.step c ok error)) =
    c :: Install.step_report h c ok error /\
  Install.exited (Install.run h last (Install.step c ok error)) =
    Install.step_exits h c ok error.
Proof.
  unfold Install.step, Install.step_report, Install.step_exits.
  cbn [Install.run Install.ran Install.status Install.exited].
  destruct (Install.succeeds h c);
    cbn [Install.ran Install.status Install.exited app andb negb];
    [ destruct (Install.succeeds h (Install.echo ok));
      cbn [Install.ran Install.status Install.exited app andb negb] | ];
    try (split; reflexivity);
    destruct (Install.succeeds h (Install.echo error));
    cbn [Install.ran Install.status Install.exited app andb negb];
    split; reflexivity.
Qed.

(** The steps up to and including the first that exits. *)
Fixpoint install_steps_run (h : Install.Host)
         (steps : list (Install.Command * string * string))
  : list Install.Command * bool :=
  match steps with
  | [] => ([], false)
  | (c, ok, error) :: rest =>
      if Install.step_exits h c ok error
      then (c :: Install.step_report h c ok error, true)
      else let '(l, e) := install_steps_run h rest in
           (c :: Install.step_report h c ok error ++ l, e)
  end.

Lemma install_script_run (h : Install.Host) :
  forall steps last,
    let o := Install.run_all h last (Install.script_of steps) in
    let '(l, e) := install_steps_run h steps in
    Install.ran o = (if e then l else l ++ [Install.finished]) /\
    Install.exited o = e.
Proof.
  induction steps as [ | [ [c ok] error ] rest IH ]; intros last.
  - cbn. split; reflexivity.
  - cbv zeta. unfold Install.script_of. cbn [map app Install.run_all].
    destruct (install_step_run h last c ok error) as [Hran Hexit].
    rewrite Hexit. cbn [install_steps_run].
    destruct (Install.step_exits h c ok error).
    + split; [ exact Hran | exact Hexit ].
    + specialize (IH (Install.status
                        (Install.run h last (Install.step c ok error)))).
      cbv zeta in IH. unfold Install.script_of in IH.
      destruct (install_steps_run h rest) as [l e].
      destruct IH as [IH1 IH2].
      cbn [Install.ran Install.exited]. rewrite Hran, IH1, IH2.
      split; [ | reflexivity ].
      destruct e; cbn [app]; rewrite <- ?app_assoc; reflexivity.
Qed.

Lemma install_as_root (h : Install.Host) :
  Install.EUID h = 0 ->
  Install.ran (Install.install h) =
    (if snd (install_steps_run h Install.install_steps)
     then fst (install_steps_run h Install.install_steps)
     else fst (install_steps_run h Install.install_steps)
          ++ [Install.finished]) /\
  Install.exited (Install.install h) =
    snd (install_steps_run h Install.install_steps).
Proof.
  intros Hroot. unfold Install.install. rewrite Hroot.
  change (negb (0 =? 0)) with false. cbv iota.
  pose proof (install_script_run h Install.install_steps true) as H.
  cbv zeta in H.
  destruct (install_steps_run h Install.install_steps) as [l e].
  exact H.
Qed.

Lemma install_steps_run_exited (h : Install.Host)
      (steps : list (Install.Command * string * string)) :
  snd (install_steps_run h steps) =
  existsb (fun '(c, ok, error) => Install.step_exits h c ok error) steps.
Proof.
  induction steps as [ | [ [c ok] error ] rest IH ]; [ reflexivity | ].
  cbn [install_steps_run existsb].
  destruct (Install.step_exits h c ok error); [ reflexivity | ].
  destruct (install_steps_run h rest) as [l e]. exact IH.
Qed.

Lemma last_app_cons {A} (a : list A) (x : A) (l : list A) (d : A) :
  last (a ++ x :: l) d = last (x :: l) d.
Proof.
  induction a as [ | y a IH ]; [ reflexivity | ].
  cbn [app]. rewrite <- IH.
  destruct (a ++ x :: l) eqn:E; [ | reflexivity ].
  now destruct a.
Qed.

Lemma install_steps_run_last (h : Install.Host)
      (steps : list (Install.Command * string * string)) :
  snd (install_steps_run h steps) = true ->
  exists c ok error,
    In (c, ok, error) steps /\
    last (fst (install_steps_run h steps)) [] = Install.echo error /\
    Install.succeeds h (Install.echo error) = false.
Proof.
  induction steps as [ | [ [c ok] error ] rest IH ]; [ discriminate | ].
  cbn [install_steps_run].
  destruct (Install.step_exits h c ok error) eqn:E.
  - intros _. exists c, ok, error. split; [ now left | ].
    unfold Install.step_exits in E. unfold Install.step_report.
    apply andb_prop in E. destruct E as [E1 E2].
    apply negb_true_iff in E1, E2.
    split; [ | exact E2 ].
    destruct (Install.succeeds h c); [ | reflexivity ].
    cbn [andb] in E1. rewrite E1. reflexivity.
  - destruct (install_steps_run h rest) as [l e]. cbn [fst snd] in *.
    intros He. destruct (IH He) as (c' & ok' & error' & Hin & Hlast & Hfail).
    exists c', ok', error'. split; [ now right | ]. split; [ | exact Hfail ].
    destruct l as [ | x l ]; [ discriminate Hlast | ].
    rewrite app_comm_cons, last_app_cons. exact Hlast.
Qed.

(** X12. Run by anyone but root, the installation script writes the
    request to run as root and leaves at once: no file is removed, created
    or copied. *)
Theorem install_requires_root : forall h,
  Install.EUID h <> 0 ->
  Install.ran (Install.install h) = [Install.echo "Run as root!"] /\
  Install.exited (Install.install h) = true.
Proof.
  intros h Hroot. unfold Install.install.
  destruct (Z.eqb_spec (Install.EUID h) 0) as [ E | _ ]; [ contradiction | ].
  cbn. split; reflexivity.
Qed.

(** X13. Run as root on a host where writing a message always succeeds, the
    installation script never stops early: each of its seven commands is run,
    in order, whatever the commands before it did; a command that failed is
    followed by its error message and the next command, and the script ends
    with the message that the installation finished successfully. *)
Theorem install_ignores_failures : forall h,
  Install.EUID h = 0 ->
  (forall text, Install.succeeds h (Install.echo text) = true) ->
  Install.exited (Install.install h) = false /\
  Install.ran (Install.install h) =
    flat_map (fun '(c, ok, error) =>
                [c; Install.echo (if Install.succeeds h c then ok else error)])
             Install.install_steps
    ++ [Install.finished].
Proof.
  intros h Hroot Hecho.
  destruct (install_as_root h Hroot) as [Hran Hexit].
  assert (G : forall steps,
             install_steps_run h steps =
             (flat_map (fun '(c, ok, error) =>
                          [c; Install.echo (if Install.succeeds h c then ok
                                            else error)]) steps, false)).
  { induction steps as [ | [ [c ok] error ] rest IH ]; [ reflexivity | ].
    cbn [install_steps_run flat_map].
    unfold Install.step_exits, Install.step_report.
    rewrite !Hecho, IH.
    destruct (Install.succeeds h c); reflexivity. }
  rewrite Hran, Hexit, G. split; reflexivity.
Qed.

(** X14. Run as root, the installation script stops early exactly when some
    step fails to report: its command failed, or the success message could
    not be written, and the error message could not be written either.  The
    last thing it ran is then that error message; in every other case the
    last thing it ran is the message that the installation finished
    successfully. *)
Theorem install_stops_only_unreported : forall h,
  Install.EUID h = 0 ->
  let o := Install.install h in
  (Install.exited o = true <->
   exists c ok error,
     In (c, ok, error) Install.install_steps /\
     Install.step_exits h c ok error = true) /\
  (Install.exited o = true ->
   exists c ok error,
     In (c, ok, error) Install.install_steps /\
     last (Install.ran o) [] = Install.echo error /\
     Install.succeeds h (Install.echo error) = false) /\
  (Install.exited o = false -> last (Install.ran o) [] = Install.finished).
Proof.
  intros h Hroot o. subst o.
  destruct (install_as_root h Hroot) as [Hran Hexit].
  rewrite Hran, Hexit. split; [ | split ].
  - rewrite install_steps_run_exited, existsb_exists. split.
    + intros ([ [c ok] error ] & Hin & Hx). now exists c, ok, error.
    + intros (c & ok & error & Hin & Hx). now exists (c, ok, error).
  - intros He. rewrite He. now apply install_steps_run_last.
  - intros He. rewrite He. apply last_last.
Qed.

Lemma install_requires_root_witness :
  Install.ran (Install.install unprivileged_host) =
    [Install.echo "Run as root!"] /\
  Install.exited (Install.install unprivileged_host) = true.
Proof.
  apply (install_requires_root unprivileged_host). cbn. discriminate.
Defined.

Lemma install_ignores_failures_witness :
  Install.exited (Install.install failing_mkdir_host) = false /\
  List.length (Install.ran (Install.install failing_mkdir_host)) = 15%nat /\
  nth 3 (Install.ran (Install.install failing_mkdir_host)) [] =
    Install.echo "ERROR! Directory '/etc/nemesis' could not be created!".
Proof.
  destruct (install_ignores_failures failing_mkdir_host eq_refl) as [H1 H2].
  - intros text. reflexivity.
  - split; [ exact H1 | ]. rewrite H2. split; reflexivity.
Defined.

Lemma install_stops_only_unreported_witness :
  Install.exited (Install.install mute_host) = true /\
  last (Install.ran (Install.install mute_host)) [] =
    Install.echo "ERROR! Directory '/etc/nemesis' could not be removed!".
Proof.
  pose proof (install_stops_only_unreported mute_host eq_refl) as H.
  cbv zeta in H. destruct H as (H1 & _ & _).
  split; [ | reflexivity ].
  apply H1. eexists _, _, _. split; [ left; reflexivity | reflexivity ].
Defined.

(** ** Every published reading is fresh *)

(** Scans a trace with the measurement that is waiting to be published:
    a publish must carry, on the configured topic, the message of the waiting
    measurement, which it uses up. *)
Fixpoint fresh (cfg : Config) (w : World) (waiting : option double)
         (tr : list Event) : Prop :=
  match tr with
  | [] => True
  | EHcsrMeasure d :: rest => fresh cfg w (Some d) rest
  | EMqttPublish topic payload _ :: rest =>
      (exists d, waiting = Some d /\ topic = mqtt_topic cfg /\
                 payload = serializeJson_to 128
                             (json_data (json_device_name cfg)
                                        (double_to_int w (round d)))) /\
      fresh cfg w None rest
  | _ :: rest => fresh cfg w waiting rest
  end.

Lemma fresh_no_publish (cfg : Config) (w : World) (tr : list Event) :
  Forall (fun e => is_publish e = false) tr ->
  forall waiting, fresh cfg w waiting tr.
Proof.
  induction 1 as [ | e tr He _ IH ]; intros waiting; [ exact I | ].
  destruct e; try discriminate; cbn [fresh]; apply IH.
Qed.

(** A trace whose publishes are fresh, followed by one that is fresh
    whatever is waiting. *)
Lemma fresh_app (cfg : Config) (w : World) (a b : list Event) :
  (forall waiting, fresh cfg w waiting b) ->
  forall waiting, fresh cfg w waiting a -> fresh cfg w waiting (a ++ b).
Proof.
  intros Hb. induction a as [ | e a IH ]; intros waiting Ha; [ apply Hb | ].
  destruct e; cbn [app fresh] in *; try (apply IH; exact Ha).
  destruct Ha as [Hd Ha]. split; [ exact Hd | apply IH; exact Ha ].
Qed.

Lemma no_publish_of_publishes_nil (tr : list Event) :
  publishes tr = [] -> Forall (fun e => is_publish e = false) tr.
Proof.
  induction tr as [ | e tr IH ]; [ constructor | ].
  destruct e; try (intros H; constructor; [ reflexivity | apply IH; exact H ]).
  discriminate.
Qed.

Lemma measures_none (tr : list Event) :
  Forall (fun e => is_sensor_call e = false) tr -> measures tr = [].
Proof.
  induction 1 as [ | e tr He _ IH ]; [ reflexivity | ].
  destruct e; try discriminate; exact IH.
Qed.

Lemma measures_app (a b : list Event) :
  measures (a ++ b) = measures a ++ measures b.
Proof. apply flat_map_app. Qed.

Lemma loop_fresh (cfg : Config) (w : World) (fuel : nat) (s : State) :
  (forall waiting, fresh cfg w waiting (emitted (loop cfg w fuel s))) /\
  (List.length (publishes (emitted (loop cfg w fuel s))) <= 1)%nat /\
  measures (emitted (loop cfg w fuel s)) = [hcsr_measure_at w (n_measure s)].
Proof.
  split; [ | split ].
  - destruct (wifi_status_at w (n_status s)) eqn:E.
    + destruct (loop_healthy cfg w fuel s E) as (_ & Hem & _).
      cbv zeta in Hem. rewrite Hem.
      unfold publish_report, telemetry_payload, sampled_value.
      intros waiting. cbn [app fresh]. split; [ | exact I ].
      eexists. repeat split.
    + destruct (loop_recovery_phases cfg w fuel s E) as (Hnone & _).
      intros waiting. apply fresh_no_publish.
      now apply no_publish_of_publishes_nil.
  - destruct (wifi_status_at w (n_status s)) eqn:E.
    + destruct (loop_healthy cfg w fuel s E) as (_ & Hem & _).
      cbv zeta in Hem. rewrite Hem. unfold publish_report.
      destruct (mqtt_publish_at w (n_publish s)); cbn; lia.
    + destruct (loop_recovery_phases cfg w fuel s E) as (Hnone & _).
      rewrite Hnone. cbn. lia.
  - destruct (loop_trace_shape cfg w fuel s) as (rest & Hem & Hq).
    rewrite Hem. cbn [measures flat_map app]. fold (measures rest).
    now rewrite (measures_none rest Hq).
Qed.

(** Freshness of a run made of a quiet start and a number of turns,
    whatever the start and a turn are. *)
Section FreshRun.

Variable cfg : Config.
Variable w : World.
Variables start turn : M unit.

Hypothesis start_quiet : forall s,
  publishes (emitted (start s)) = [] /\ measures (emitted (start s)) = [].
Hypothesis turn_fresh : forall s,
  (forall waiting, fresh cfg w waiting (emitted (turn s))) /\
  (List.length (publishes (emitted (turn s))) <= 1)%nat /\
  List.length (measures (emitted (turn s))) = 1%nat.

Fixpoint turns (n : nat) : M unit :=
  match n with
  | O => ret tt
  | S n' => bind turn (fun _ => turns n')
  end.

Lemma turns_fresh : forall n s,
  let r := turns n s in
  (forall waiting, fresh cfg w waiting (emitted r)) /\
  (List.length (publishes (emitted r))
     <= List.length (measures (emitted r)) <= n)%nat /\
  (result r = Some tt -> List.length (measures (emitted r)) = n).
Proof.
  induction n as [ | n IH ]; intros s r; subst r; cbn [turns].
  - cbn [ret result emitted fresh publishes measures flat_map List.length].
    split; [ intros; exact I | ]. split; [ lia | reflexivity ].
  - destruct (turn_fresh s) as (F & P & Ms).
    rewrite bind_unfold.
    destruct (result (turn s)) as [ [] | ]; cbn [result emitted].
    + destruct (IH (final (turn s))) as (F' & P' & M'). cbv zeta in F', P', M'.
      rewrite publishes_app, measures_app, !length_app, Ms.
      split; [ | split ].
      * intros waiting. apply fresh_app; [ exact F' | apply F ].
      * lia.
      * intros R'. rewrite (M' R'). reflexivity.
    + rewrite Ms. split; [ exact F | ]. split; [ lia | discriminate ].
Qed.

Lemma run_fresh (n : nat) (s : State) :
  let r := bind start (fun _ => turns n) s in
  fresh cfg w None (emitted r) /\
  (List.length (publishes (emitted r))
     <= List.length (measures (emitted r)) <= n)%nat /\
  (result r = Some tt -> List.length (measures (emitted r)) = n).
Proof.
  cbv zeta. destruct (start_quiet s) as [S1 S2].
  rewrite bind_unfold.
  destruct (result (start s)) as [ [] | ]; cbn [result emitted].
  - destruct (turns_fresh n (final (start s))) as (F & P & Mm).
    cbv zeta in F, P, Mm.
    rewrite publishes_app, measures_app, !length_app, S1, S2.
    change (List.length (@nil (string * string * bool))) with 0%nat.
    change (List.length (@nil double)) with 0%nat.
    rewrite !Nat.add_0_l. split; [ | split; [ exact P | exact Mm ] ].
    apply fresh_app; [ exact F | ].
    apply fresh_no_publish. now apply no_publish_of_publishes_nil.
  - rewrite S1, S2. split; [ | split; [ cbn; lia | discriminate ] ].
    apply fresh_no_publish. now apply no_publish_of_publishes_nil.
Qed.

End FreshRun.

Lemma loop_cycles_turns (cfg : Config) (w : World) (fuel n : nat) :
  loop_cycles cfg w fuel n = turns (loop cfg w fuel) n.
Proof.
  induction n as [ | n IH ]; [ reflexivity | ].
  cbn [loop_cycles turns]. now rewrite IH.
Qed.

(** X15. In every run of the sketch each publish carries, on the configured
    topic, the message of the latest measurement, and no measurement is
    published twice: between two publishes there is a new measurement, and
    nothing is published before the first one.  [setup] measures nothing;
    every turn of [loop] measures once, so a run of [cycles] turns makes at
    most [cycles] measurements, exactly [cycles] when it returns, and at most
    as many publishes. *)
Theorem published_reading_is_fresh : forall cfg w fuel cycles s,
  let r := sketch cfg w fuel cycles s in
  fresh cfg w None (emitted r) /\
  (List.length (publishes (emitted r)) <= List.length (measures (emitted r))
     <= cycles)%nat /\
  (result r = Some tt -> List.length (measures (emitted r)) = cycles).
Proof.
  intros cfg w fuel cycles s. unfold sketch. rewrite loop_cycles_turns.
  apply run_fresh.
  - intros s0.
    assert (Hsetup : Forall (fun e => is_sensor_or_publish e = false)
                            (emitted (setup cfg w fuel s0)))
      by (apply emits_setup; intros; reflexivity).
    split.
    + apply publishes_none. revert Hsetup. apply Forall_impl.
      intros e. destruct e; try reflexivity; discriminate.
    + clear - Hsetup. induction Hsetup as [ | e tr He _ IH ]; [ reflexivity | ].
      destruct e; try discriminate; exact IH.
  - intros s0. destruct (loop_fresh cfg w fuel s0) as (F & P & Ms).
    split; [ exact F | ]. split; [ exact P | ]. now rewrite Ms.
Qed.

(** ** How long the connection sequences take *)

Lemma connection_sequences_run (cfg : Config) (w : World) (n m fuel : nat)
      (s : State) :
  (forall i, (i < 21 * n)%nat -> wifi_status_at w (n_status s + i) = false) ->
  wifi_status_at w (n_status s + 21 * n) = true ->
  wifi_status_at w (n_status s + 21 * n + 1) = true ->
  (forall k, (k < m)%nat -> mqtt_connect_at w (n_connect s + k) = false) ->
  mqtt_connect_at w (n_connect s + m) = true ->
  (n <= fuel)%nat -> (m <= fuel)%nat ->
  let r1 := reconnect_link cfg w fuel s in
  let r2 := reconnect_session cfg w fuel (final r1) in
  result r1 = Some tt /\ result r2 = Some tt /\
  status_reads (emitted r1 ++ emitted r2) = repeat false (21 * n) ++ [true; true] /\
  session_attempts (emitted r1 ++ emitted r2) = repeat false m ++ [true] /\
  publishes (emitted r1 ++ emitted r2) = [] /\
  elapsed (emitted r1 ++ emitted r2) = 10000 * Z.of_nat n + 5000 * Z.of_nat m.
Proof.
  intros Hno H1 H2 Hrefused Haccepted Hn Hm r1 r2.
  destruct (reconnect_link_until_connected cfg w n fuel s Hno H1 H2 Hn)
    as (R1 & _ & S1 & D1 & A1).
  cbv zeta in R1, S1, D1, A1. fold r1 in R1, S1, D1, A1.
  assert (K : n_connect (final r1) = n_connect s)
    by (apply (keeps_reconnect_link cfg w n_connect); reflexivity).
  destruct (reconnect_session_until_accepted cfg w m fuel (final r1))
    as (R2 & _ & A2 & D2);
    [ rewrite K; exact Hrefused | rewrite K; exact Haccepted | exact Hm | ].
  cbv zeta in R2, A2, D2. fold r2 in R2, A2, D2.
  assert (L1 : Forall (fun e => is_session_call e = false) (emitted r1))
    by (apply emits_reconnect_link; intros; reflexivity).
  assert (L2 : Forall (fun e => is_link_call e = false) (emitted r2))
    by (apply emits_reconnect_session; intros; reflexivity).
  assert (L3 : Forall (fun e => is_publish e = false) (emitted r2))
    by (apply emits_reconnect_session; intros; reflexivity).
  split; [ exact R1 | ]. split; [ exact R2 | ].
  rewrite status_reads_app, session_attempts_app, publishes_app, elapsed_app.
  rewrite S1, A1, A2, (status_reads_none _ L2), app_nil_r.
  rewrite (publishes_none (emitted r1)) by (now apply session_call_publish).
  rewrite (publishes_none _ L3).
  split; [ reflexivity | ]. split; [ reflexivity | ]. split; [ reflexivity | ].
  unfold elapsed. rewrite D1, D2, !elapsed_repeat. lia.
Qed.

(** X16. Start-up takes as long as the link and the broker make it wait:
    when the link stays away for [n] whole calls of [connectToWiFi] and the
    broker refuses [m] attempts before it accepts, [setup] returns after
    exactly [n] times 10 s plus [m] times 5 s of waiting, having published
    nothing. *)
Theorem startup_duration : forall cfg w n m fuel s,
  (forall i, (i < 21 * n)%nat -> wifi_status_at w (n_status s + i) = false) ->
  wifi_status_at w (n_status s + 21 * n) = true ->
  wifi_status_at w (n_status s + 21 * n + 1) = true ->
  (forall k, (k < m)%nat -> mqtt_connect_at w (n_connect s + k) = false) ->
  mqtt_connect_at w (n_connect s + m) = true ->
  (n <= fuel)%nat -> (m <= fuel)%nat ->
  let r := setup cfg w fuel s in
  result r = Some tt /\
  status_reads (emitted r) = repeat false (21 * n) ++ [true; true] /\
  session_attempts (emitted r) = repeat false m ++ [true] /\
  publishes (emitted r) = [] /\
  elapsed (emitted r) = 10000 * Z.of_nat n + 5000 * Z.of_nat m.
Proof.
  intros cfg w n m fuel s Hno H1 H2 Hrefused Haccepted Hn Hm r. subst r.
  destruct (connection_sequences_run cfg w n m fuel s Hno H1 H2 Hrefused
              Haccepted Hn Hm) as (R1 & R2 & Hs & Ha & Hp & He).
  cbv zeta in R1, R2, Hs, Ha, Hp, He.
  rewrite setup_shape, setup_of_exact. cbv zeta.
  generalize dependent (reconnect_link cfg w fuel s). intros r1.
  generalize (reconnect_session cfg w fuel (final r1)). intros r2.
  intros R1 R2 Hs Ha Hp He.
  cbn [result emitted]. rewrite R1, R2.
  split; [ reflexivity | ].
  rewrite (app_assoc (emitted r1)).
  rewrite !status_reads_app, !session_attempts_app, !publishes_app, !elapsed_app.
  rewrite <- status_reads_app, <- session_attempts_app, <- publishes_app,
    <- elapsed_app.
  rewrite Hs, Ha, Hp, He.
  cbn [setup_banner sensor_start status_reads session_attempts publishes
       flat_map app].
  rewrite !app_nil_r. repeat split.
  change (elapsed setup_banner) with 0. change (elapsed sensor_start) with 0.
  lia.
Qed.

(** X17. A turn of [loop] that finds the link lost takes as long as the
    link and the broker make it wait: when, after the failed health check,
    the link stays away for [n] whole calls of [connectToWiFi] and the broker
    then refuses [m] attempts before it accepts, the turn returns after
    [n] times 10 s plus [m] times 5 s plus the resend timeout, having
    published nothing; the reading it took is dropped. *)
Theorem recovery_duration : forall cfg w n m fuel s,
  wifi_status_at w (n_status s) = false ->
  (forall i, (i < 21 * n)%nat -> wifi_status_at w (S (n_status s) + i) = false) ->
  wifi_status_at w (S (n_status s) + 21 * n) = true ->
  wifi_status_at w (S (n_status s) + 21 * n + 1) = true ->
  (forall k, (k < m)%nat -> mqtt_connect_at w (n_connect s + k) = false) ->
  mqtt_connect_at w (n_connect s + m) = true ->
  (n <= fuel)%nat -> (m <= fuel)%nat ->
  let r := loop cfg w fuel s in
  result r = Some tt /\
  status_reads (emitted r) = false :: repeat false (21 * n) ++ [true; true] /\
  session_attempts (emitted r) = repeat false m ++ [true] /\
  publishes (emitted r) = [] /\
  elapsed (emitted r) =
    10000 * Z.of_nat n + 5000 * Z.of_nat m + json_resend_timeout cfg.
Proof.
  intros cfg w n m fuel s Hlost Hno H1 H2 Hrefused Haccepted Hn Hm r. subst r.
  destruct (connection_sequences_run cfg w n m fuel (recovery_state w s) Hno H1
              H2 Hrefused Haccepted Hn Hm) as (R1 & R2 & Hs & Ha & Hp & He).
  cbv zeta in R1, R2, Hs, Ha, Hp, He.
  destruct (loop_link_lost cfg w fuel s Hlost) as (Hres & Hem & _).
  cbv zeta in Hres, Hem. rewrite Hres, Hem. clear Hres Hem.
  generalize dependent (reconnect_link cfg w fuel (recovery_state w s)).
  intros r1.
  generalize (reconnect_session cfg w fuel (final r1)). intros r2.
  intros R1 R2 Hs Ha Hp He.
  rewrite R1, R2. split; [ reflexivity | ].
  change (status_reads (?a :: EWifiStatus false :: ?l))
    with (false :: status_reads l).
  change (session_attempts (?a :: EWifiStatus false :: ?l))
    with (session_attempts l).
  change (publishes (?a :: EWifiStatus false :: ?l)) with (publishes l).
  change (elapsed (?a :: EWifiStatus false :: ?l)) with (elapsed l).
  rewrite (app_assoc (emitted r1)).
  rewrite !status_reads_app, !session_attempts_app, !publishes_app, !elapsed_app.
  rewrite <- status_reads_app, <- session_attempts_app, <- publishes_app,
    <- elapsed_app.
  rewrite Hs, Ha, Hp, He.
  cbn [lost_link_notice status_reads session_attempts publishes flat_map app].
  rewrite !app_nil_r. repeat split.
  change (elapsed (lost_link_notice cfg)) with 0.
  change (elapsed [EDelay (json_resend_timeout cfg)])
    with (json_resend_timeout cfg + 0).
  lia.
Qed.

Lemma startup_duration_witness :
  let r := setup sketch_config (slow_world 21 2) 2 initial_state in
  result r = Some tt /\
  session_attempts (emitted r) = [false; false; true] /\
  elapsed (emitted r) = 20000.
Proof.
  cbv zeta.
  pose proof (startup_duration sketch_config (slow_world 21 2) 1 2 2
                initial_state) as H.
  cbv zeta in H.
  destruct H as (H1 & _ & H3 & _ & H5).
  - intros i Hi. cbn [wifi_status_at slow_world n_status initial_state].
    apply Nat.leb_gt. lia.
  - reflexivity.
  - reflexivity.
  - intros k Hk. cbn [mqtt_connect_at slow_world n_connect initial_state].
    apply Nat.leb_gt. lia.
  - reflexivity.
  - lia.
  - lia.
  - split; [ exact H1 | ]. split; [ exact H3 | exact H5 ].
Defined.

Lemma recovery_duration_witness :
  let r := loop sketch_config (slow_world 22 1) 1 initial_state in
  result r = Some tt /\
  publishes (emitted r) = [] /\
  elapsed (emitted r) = 16000.
Proof.
  cbv zeta.
  pose proof (recovery_duration sketch_config (slow_world 22 1) 1 1 1
                initial_state) as H.
  cbv zeta in H.
  destruct H as (H1 & _ & _ & H4 & H5).
  - reflexivity.
  - intros i Hi. cbn [wifi_status_at slow_world n_status initial_state].
    apply Nat.leb_gt. lia.
  - reflexivity.
  - reflexivity.
  - intros k Hk. cbn [mqtt_connect_at slow_world n_connect initial_state].
    apply Nat.leb_gt. lia.
  - reflexivity.
  - lia.
  - lia.
  - split; [ exact H1 | ]. split; [ exact H4 | exact H5 ].
Defined.

(** ** While the link stays away *)

Lemma link_retry_while_absent (cfg : Config) (w : World) :
  forall fuel s,
    exit_status_code s <> 0 ->
    (forall i, (i < 21 * fuel)%nat -> wifi_status_at w (n_status s + i) = false) ->
    let r := while_exit_status_code fuel
               (assign_exit_status_code (connectToWiFi cfg w)) s in
    result r = None /\
    status_reads (emitted r) = repeat false (21 * fuel) /\
    delays (emitted r) = repeat 500 (20 * fuel) /\
    session_attempts (emitted r) = [].
Proof.
  induction fuel as [ | fuel IH ]; intros s Hcode Hno r; subst r;
    rewrite while_exit_status_code_step;
    (destruct (Z.eqb_spec (exit_status_code s) 0) as [ | _ ]; [ contradiction | ]).
  - repeat split.
  - cbv zeta.
    assert (Habs : forall i, (i <= 20)%nat ->
                             wifi_status_at w (n_status s + i) = false)
      by (intros i Hi; apply Hno; lia).
    destruct (connectToWiFi_absent cfg w s Habs) as (R & N1 & S1 & D1 & A1).
    cbv zeta in R, N1, S1, D1, A1.
    rewrite (bind_run_some _ _ _ tt)
      by (rewrite (assign_exit_status_code_run _ _ _ R); reflexivity).
    rewrite (assign_exit_status_code_run _ _ _ R). cbn [result final emitted].
    set (s' := set_exit_status_code (to_uchar 1)
                 (final (connectToWiFi cfg w s))).
    assert (Ns : n_status s' = (n_status s + 21)%nat) by exact N1.
    destruct (IH s') as (Q1 & Q2 & Q3 & Q4).
    + discriminate.
    + intros i Hi. rewrite Ns.
      replace (n_status s + 21 + i)%nat with (n_status s + (21 + i))%nat by lia.
      apply Hno. lia.
    + cbv zeta in Q1, Q2, Q3, Q4.
      rewrite status_reads_app, delays_app, session_attempts_app.
      rewrite Q1, Q2, Q3, Q4, S1, D1, A1.
      split; [ reflexivity | ].
      split; [ | split; [ | reflexivity ] ];
        rewrite <- repeat_app; f_equal; lia.
Qed.

Lemma reconnect_link_while_absent (cfg : Config) (w : World) (fuel : nat)
      (s : State) :
  (forall i, (i < 21 * S fuel)%nat -> wifi_status_at w (n_status s + i) = false) ->
  let r := reconnect_link cfg w fuel s in
  result r = None /\
  status_reads (emitted r) = repeat false (21 * S fuel) /\
  delays (emitted r) = repeat 500 (20 * S fuel).
Proof.
  intros Hno r. subst r. unfold reconnect_link.
  assert (Habs : forall i, (i <= 20)%nat ->
                           wifi_status_at w (n_status s + i) = false)
    by (intros i Hi; apply Hno; lia).
  destruct (connectToWiFi_absent cfg w s Habs) as (R & N1 & S1 & D1 & A1).
  cbv zeta in R, N1, S1, D1, A1.
  rewrite (bind_run_some _ _ _ tt)
    by (rewrite (assign_exit_status_code_run _ _ _ R); reflexivity).
  rewrite (assign_exit_status_code_run _ _ _ R). cbn [result final emitted].
  set (s' := set_exit_status_code (to_uchar 1)
               (final (connectToWiFi cfg w s))).
  assert (Ns : n_status s' = (n_status s + 21)%nat) by exact N1.
  destruct (link_retry_while_absent cfg w fuel s') as (Q1 & Q2 & Q3 & _).
  - discriminate.
  - intros i Hi. rewrite Ns.
    replace (n_status s + 21 + i)%nat with (n_status s + (21 + i))%nat by lia.
    apply Hno. lia.
  - cbv zeta in Q1, Q2, Q3.
    rewrite status_reads_app, delays_app, Q1, Q2, Q3, S1, D1.
    split; [ reflexivity | ].
    split; rewrite <- repeat_app; f_equal; lia.
Qed.

(** X18. While the link stays away the sketch does nothing but try to
    connect: the link connection sequence has not returned after any number
    of calls of [connectToWiFi], each taking its full 20 waits of 500 ms, with
    no pause between the calls; [setup] then has not returned either, has
    made no broker call and has not started the sensor; and a turn of [loop]
    that found the link lost has not returned, published or waited its
    resend timeout. *)
Theorem link_outage_blocks : forall cfg w fuel s,
  (forall i, (i < 21 * S fuel + 1)%nat ->
             wifi_status_at w (n_status s + i) = false) ->
  (let r := reconnect_link cfg w fuel s in
   result r = None /\
   status_reads (emitted r) = repeat false (21 * S fuel) /\
   delays (emitted r) = repeat 500 (20 * S fuel)) /\
  (let r := setup cfg w fuel s in
   result r = None /\
   delays (emitted r) = repeat 500 (20 * S fuel) /\
   Forall (fun e => is_session_call e = false /\ is_sensor_call e = false)
          (emitted r)) /\
  (let r := loop cfg w fuel s in
   result r = None /\
   publishes (emitted r) = [] /\
   delays (emitted r) = repeat 500 (20 * S fuel)).
Proof.
  intros cfg w fuel s Hno.
  assert (Hno0 : forall i, (i < 21 * S fuel)%nat ->
                           wifi_status_at w (n_status s + i) = false)
    by (intros i Hi; apply Hno; lia).
  split; [ now apply reconnect_link_while_absent | ]. split.
  - destruct (reconnect_link_while_absent cfg w fuel s Hno0) as (R1 & _ & D1).
    cbv zeta in R1, D1.
    assert (L1 : Forall (fun e => is_session_call e = false /\
                                  is_sensor_call e = false)
                        (emitted (reconnect_link cfg w fuel s)))
      by (apply emits_reconnect_link; intros; split; reflexivity).
    cbv zeta. rewrite setup_shape, setup_of_exact. cbv zeta.
    generalize dependent (reconnect_link cfg w fuel s). intros r1 R1 D1 L1.
    cbn [result emitted]. rewrite R1.
    split; [ reflexivity | ]. rewrite app_nil_r. split.
    + rewrite delays_app, D1. reflexivity.
    + apply Forall_app. split; [ | exact L1 ].
      unfold setup_banner. repeat constructor.
  - assert (Hlost : wifi_status_at w (n_status s) = false)
      by (rewrite <- (Nat.add_0_r (n_status s)); apply Hno; lia).
    destruct (loop_link_lost cfg w fuel s Hlost) as (Hres & Hem & _).
    destruct (loop_recovery_phases cfg w fuel s Hlost) as (Hnone & _).
    cbv zeta in Hres, Hem. cbv zeta. rewrite Hnone, Hres, Hem.
    destruct (reconnect_link_while_absent cfg w fuel (recovery_state w s))
      as (R1 & _ & D1).
    { intros i Hi.
      change (n_status (recovery_state w s)) with (S (n_status s)).
      replace (S (n_status s) + i)%nat with (n_status s + S i)%nat by lia.
      apply Hno. lia. }
    cbv zeta in R1, D1.
    generalize dependent (reconnect_link cfg w fuel (recovery_state w s)).
    intros r1 _ _ R1 D1. rewrite R1.
    split; [ reflexivity | ]. split; [ reflexivity | ].
    change (delays (?a :: EWifiStatus false :: ?l)) with (delays l).
    rewrite !delays_app, D1, app_nil_r. reflexivity.
Qed.

Lemma link_outage_blocks_witness :
  result (setup sketch_config (slow_world 1000 0) 1 initial_state) = None /\
  elapsed (emitted (setup sketch_config (slow_world 1000 0) 1 initial_state))
    = 20000.
Proof.
  destruct (link_outage_blocks sketch_config (slow_world 1000 0) 1
              initial_state) as (_ & (H1 & H2 & _) & _).
  - intros i Hi. cbn [wifi_status_at slow_world n_status initial_state].
    apply Nat.leb_gt. lia.
  - split; [ exact H1 | ]. unfold elapsed. rewrite H2. reflexivity.
Defined.
